(** * unicart-scraper: the extraction engine of [src/index.js]

    A shallow embedding of the product-extraction code of the scraper
    service (authorization check, first-non-empty picker, URL resolution,
    price normalisation, currency sniffing, JSON-LD flattening and the
    [parseFromHtml] merge) together with the part of the JavaScript
    runtime it runs on, followed by the properties of the written
    specification that were checked against it.

    Conventions.
    - A JavaScript string is the list of its UTF-16 code units.
    - A JavaScript number is an IEEE 754 binary64 value, carried as the
      [spec_float] of the Standard Library with the binary64 parameters.
    - A thrown exception is the [Throw] case of [completion]; [try]/[catch]
      is an explicit match on it.
    - The platform libraries the code calls but does not contain are
      interfaces: the URL parser is the class [UrlApi], the parsed page is
      a [document] answering the selectors that the code asks. *)

From Stdlib Require Import List ZArith NArith Bool Lia String Ascii.
From Stdlib Require Import Floats.SpecFloat.
Import ListNotations.

Set Warnings "-register-all".

(* ================================================================= *)
(** ** Strings *)

Module JsString.

(** A UTF-16 code unit is a number below [2^16]; the type is [N]. *)
Abbreviation code_unit := N (only parsing).
Definition jsstring := list code_unit.

(** An ASCII literal as a sequence of code units. *)
Definition str (s : string) : jsstring :=
  List.map N_of_ascii (list_ascii_of_string s).

Definition euro_sign : jsstring := [0x20AC%N].
Definition pound_sign : jsstring := [0xA3%N].

Fixpoint eqb (a b : jsstring) : bool :=
  match a, b with
  | [], [] => true
  | x :: a', y :: b' => N.eqb x y && eqb a' b'
  | _, _ => false
  end.

Definition is_empty (s : jsstring) : bool :=
  match s with [] => true | _ :: _ => false end.

(** WhiteSpace and LineTerminator code points, the set that
    [String.prototype.trim] strips and that [Number] skips. *)
Definition is_white_space (c : code_unit) : bool :=
  existsb (N.eqb c)
    [0x9; 0xA; 0xB; 0xC; 0xD; 0x20; 0xA0; 0x1680; 0x2028; 0x2029;
     0x202F; 0x205F; 0x3000; 0xFEFF]%N
  || (N.leb 0x2000 c && N.leb c 0x200A).

Fixpoint trimStart (s : jsstring) : jsstring :=
  match s with
  | [] => []
  | c :: r => if is_white_space c then trimStart r else s
  end.

Definition trimEnd (s : jsstring) : jsstring := rev (trimStart (rev s)).

Definition trim (s : jsstring) : jsstring := trimEnd (trimStart s).

Fixpoint starts_with (p s : jsstring) : bool :=
  match p, s with
  | [], _ => true
  | x :: p', y :: s' => N.eqb x y && starts_with p' s'
  | _ :: _, [] => false
  end.

(** [s.includes(needle)] *)
Fixpoint includes (s needle : jsstring) : bool :=
  starts_with needle s
  || match s with
     | [] => false
     | _ :: r => includes r needle
     end.

(** [s.lastIndexOf(needle)]: the largest index at which [needle] occurs,
    [-1] when there is none. *)
Fixpoint lastIndexOf_from (s needle : jsstring) (i found : Z) : Z :=
  let found' := if starts_with needle s then i else found in
  match s with
  | [] => found'
  | _ :: r => lastIndexOf_from r needle (i + 1) found'
  end.

Definition lastIndexOf (s needle : jsstring) : Z :=
  lastIndexOf_from s needle 0 (-1).

(** [s.replace(pat, rep)] for a string pattern: the first occurrence only.
    The replacement text is taken literally; the code only ever passes
    ["."], which holds no [$] pattern. *)
Fixpoint replace (s pat rep : jsstring) : jsstring :=
  if starts_with pat s then rep ++ skipn (List.length pat) s
  else match s with
       | [] => []
       | c :: r => c :: replace r pat rep
       end.

(** [s.replace(/[class]/g, "")] for a one-character class: every code
    unit of the class is dropped. *)
Definition remove_all (class : code_unit -> bool) (s : jsstring) : jsstring :=
  filter (fun c => negb (class c)) s.

Definition is_digit (c : code_unit) : bool := N.leb 0x30 c && N.leb c 0x39.
Definition is_comma (c : code_unit) : bool := N.eqb c 0x2C.
Definition is_period (c : code_unit) : bool := N.eqb c 0x2E.

Definition is_ascii_lower (c : code_unit) : bool := N.leb 0x61 c && N.leb c 0x7A.
Definition is_ascii_upper (c : code_unit) : bool := N.leb 0x41 c && N.leb c 0x5A.

Fixpoint assoc_unit (c : code_unit) (t : list (code_unit * jsstring))
  : option jsstring :=
  match t with
  | [] => None
  | (k, v) :: r => if N.eqb c k then Some v else assoc_unit c r
  end.

(** The code points outside Basic Latin whose Unicode uppercase mapping
    (UnicodeData and SpecialCasing, locale independent) holds a Basic
    Latin letter. *)
Definition upper_special : list (code_unit * jsstring) :=
  [ (0xDF, [0x53; 0x53]);        (* sharp s -> SS *)
    (0x131, [0x49]);             (* dotless i -> I *)
    (0x149, [0x2BC; 0x4E]);
    (0x17F, [0x53]);             (* long s -> S *)
    (0x1F0, [0x4A; 0x30C]);
    (0x1E96, [0x48; 0x331]);
    (0x1E97, [0x54; 0x308]);
    (0x1E98, [0x57; 0x30A]);
    (0x1E99, [0x59; 0x30A]);
    (0x1E9A, [0x41; 0x2BE]);
    (0xFB00, [0x46; 0x46]);
    (0xFB01, [0x46; 0x49]);
    (0xFB02, [0x46; 0x4C]);
    (0xFB03, [0x46; 0x46; 0x49]);
    (0xFB04, [0x46; 0x46; 0x4C]);
    (0xFB05, [0x53; 0x54]);
    (0xFB06, [0x53; 0x54]) ]%N.

(** The code points outside Basic Latin whose lowercase mapping holds a
    Basic Latin letter. *)
Definition lower_special : list (code_unit * jsstring) :=
  [ (0x130, [0x69; 0x307]);      (* I with dot above *)
    (0x212A, [0x6B]) ]%N.        (* Kelvin sign -> k *)

Definition upper_unit (c : code_unit) : jsstring :=
  if is_ascii_lower c then [(c - 0x20)%N]
  else match assoc_unit c upper_special with
       | Some u => u
       | None => [c]
       end.

Definition lower_unit (c : code_unit) : jsstring :=
  if is_ascii_upper c then [(c + 0x20)%N]
  else match assoc_unit c lower_special with
       | Some u => u
       | None => [c]
       end.

(** [s.toUpperCase()] and [s.toLowerCase()].  The Unicode tables are
    carried for Basic Latin and for every other code point whose image
    holds a Basic Latin letter ([upper_special], [lower_special]).  The
    remaining cased code points are mapped by Unicode to one or more code
    units outside Basic Latin and are left in place here: the code only
    compares the result with, or searches it for, Basic Latin words
    (["EUR"], ["USD"], ["GBP"], ["product"]), and such a test sees the
    same Basic Latin runs either way. *)
Definition toUpperCase (s : jsstring) : jsstring := flat_map upper_unit s.
Definition toLowerCase (s : jsstring) : jsstring := flat_map lower_unit s.

End JsString.
Export JsString.

(* ================================================================= *)
(** ** Numbers *)

Module JsNumber.

Local Open Scope Z_scope.

(** A Number value: binary64, with one NaN. *)
Definition number := spec_float.

Definition prec : Z := 53.
Definition emax : Z := 1024.

Definition NaN : number := S754_nan.

(** [Number.isFinite(x)] for a Number [x] *)
Definition isFinite (x : number) : bool :=
  match x with
  | S754_zero _ | S754_finite _ _ _ => true
  | S754_infinity _ | S754_nan => false
  end.

(** ToBoolean on a Number: zeros and NaN are falsy. *)
Definition number_truthy (x : number) : bool :=
  match x with
  | S754_zero _ | S754_nan => false
  | S754_infinity _ | S754_finite _ _ _ => true
  end.

Definition number_eqb (x y : number) : bool :=
  match SFcompare x y with
  | Some Eq => true
  | _ => false
  end.

(** The Number nearest to the decimal [m * 10^e] (ties to even), with
    sign [neg]: how a decimal literal is read, in source text, by
    [Number(string)] and by [JSON.parse]. *)
Definition of_decimal (neg : bool) (m : N) (e : Z) : number :=
  match m with
  | N0 => S754_zero neg
  | Npos p =>
      if 0 <=? e
      then binary_round prec emax neg (Z.to_pos (Zpos p * 10 ^ e)) 0
      else SFdiv prec emax (S754_finite neg p 0)
                 (S754_finite false (Z.to_pos (10 ^ (- e))) 0)
  end.

(** The Number nearest to a non-negative integer *)
Definition of_integer (m : N) : number := of_decimal false m 0.

(** *** Reading digits *)

Definition digit_value (c : code_unit) : N := (c - 0x30)%N.

Fixpoint digits_value_from (acc : N) (ds : jsstring) : N :=
  match ds with
  | [] => acc
  | c :: r => digits_value_from (10 * acc + digit_value c)%N r
  end.

(** The value of a run of decimal digits. *)
Definition digits_value (ds : jsstring) : N := digits_value_from 0%N ds.

(** [span p s]: the longest prefix of [s] inside [p], and the rest. *)
Fixpoint span (p : code_unit -> bool) (s : jsstring) : jsstring * jsstring :=
  match s with
  | [] => ([], [])
  | c :: r =>
      if p c then let (a, b) := span p r in (c :: a, b) else ([], s)
  end.

Definition all_digits (s : jsstring) : bool := forallb is_digit s.

(** SignedInteger of an ExponentPart: digits with an optional sign. *)
Definition signed_integer (s : jsstring) : option Z :=
  match s with
  | 0x2B%N :: ds =>            (* + *)
      if all_digits ds && negb (is_empty ds)
      then Some (Z.of_N (digits_value ds)) else None
  | 0x2D%N :: ds =>            (* - *)
      if all_digits ds && negb (is_empty ds)
      then Some (- Z.of_N (digits_value ds)) else None
  | _ =>
      if all_digits s && negb (is_empty s)
      then Some (Z.of_N (digits_value s)) else None
  end.

(** Optional ExponentPart ending the literal. *)
Definition exponent_part (s : jsstring) : option Z :=
  match s with
  | [] => Some 0
  | c :: r =>
      if N.eqb c 0x65 || N.eqb c 0x45 then signed_integer r else None
  end.

(** StrUnsignedDecimalLiteral without [Infinity]:
    digits [.] digits? exp? | [.] digits exp? | digits exp?,
    as a mantissa and a power of ten. *)
Definition unsigned_decimal (s : jsstring) : option (N * Z) :=
  let (ip, r) := span is_digit s in
  let '(fp, r') :=
    match r with
    | 0x2E%N :: r1 => span is_digit r1
    | _ => ([], r)
    end in
  if is_empty ip && is_empty fp then None
  else match exponent_part r' with
       | None => None
       | Some e =>
           Some (digits_value (ip ++ fp), e - Z.of_nat (List.length fp))
       end.

Definition str_unsigned_decimal (neg : bool) (s : jsstring) : number :=
  if JsString.eqb s (str "Infinity") then S754_infinity neg
  else match unsigned_decimal s with
       | Some (m, e) => of_decimal neg m e
       | None => NaN
       end.

(** Digits of the non-decimal integer literals. *)
Definition radix_digit (radix : N) (c : code_unit) : option N :=
  let v :=
    if is_digit c then Some (c - 0x30)%N
    else if N.leb 0x61 c && N.leb c 0x66 then Some (c - 0x61 + 10)%N
    else if N.leb 0x41 c && N.leb c 0x46 then Some (c - 0x41 + 10)%N
    else None in
  match v with
  | Some d => if N.ltb d radix then Some d else None
  | None => None
  end.

Fixpoint radix_value (radix acc : N) (s : jsstring) : option N :=
  match s with
  | [] => Some acc
  | c :: r =>
      match radix_digit radix c with
      | Some d => radix_value radix (radix * acc + d)%N r
      | None => None
      end
  end.

Definition non_decimal (radix : N) (ds : jsstring) : number :=
  if is_empty ds then NaN
  else match radix_value radix 0%N ds with
       | Some v => of_integer v
       | None => NaN
       end.

(** StringToNumber: what [Number(s)] returns for a string [s].  White
    space around the literal is skipped, the empty literal is [+0],
    anything outside the StringNumericLiteral grammar is [NaN]. *)
Definition Number_of_string (s : jsstring) : number :=
  match trim s with
  | [] => S754_zero false
  | 0x30%N :: x :: ds =>
      if N.eqb x 0x78 || N.eqb x 0x58 then non_decimal 16 ds
      else if N.eqb x 0x6F || N.eqb x 0x4F then non_decimal 8 ds
      else if N.eqb x 0x62 || N.eqb x 0x42 then non_decimal 2 ds
      else str_unsigned_decimal false (0x30%N :: x :: ds)
  | 0x2B%N :: t => str_unsigned_decimal false t
  | 0x2D%N :: t => str_unsigned_decimal true t
  | t => str_unsigned_decimal false t
  end.

(** *** Printing: Number::toString, radix 10 *)

(** The positive rational [num / den] of a finite non-zero Number. *)
Definition ratio_of (m : positive) (e : Z) : Z * Z :=
  if 0 <=? e then (Zpos m * 2 ^ e, 1) else (Zpos m, 2 ^ (- e)).

(** [num / den < 10 ^ n] *)
Definition below_pow10 (num den n : Z) : bool :=
  if 0 <=? n then num <? 10 ^ n * den else num * 10 ^ (- n) <? den.

(** The least [n], from [n0] on, with [num / den < 10 ^ n]. *)
Fixpoint magnitude_from (fuel : nat) (num den n0 : Z) : Z :=
  match fuel with
  | O => n0
  | S f =>
      if below_pow10 num den n0 then n0
      else magnitude_from f num den (n0 + 1)
  end.

(** Every finite binary64 lies in [10^-324, 10^309). *)
Definition magnitude (num den : Z) : Z := magnitude_from 640 num den (-324).

(** [num / den] scaled by [10 ^ (- scale)], as a fraction. *)
Definition scaled (num den scale : Z) : Z * Z :=
  if 0 <=? scale then (num, den * 10 ^ scale)
  else (num * 10 ^ (- scale), den).

(** Among the [k]-digit decimals [s * 10 ^ (n - k)] that read back as
    [x], the one nearest to [x] (the even one on a tie), if any. *)
Definition shortest_at (x : number) (num den n : Z) (k : Z) : option Z :=
  let scale := n - k in
  let (a, b) := scaled num den scale in
  let lo := a / b in
  let hi := lo + 1 in
  let twice_rem := 2 * (a mod b) in
  let ok c := number_eqb (of_decimal false (Z.to_N c) scale) x in
  match ok lo, ok hi with
  | true, true =>
      if twice_rem <? b then Some lo
      else if b <? twice_rem then Some hi
      else if Z.even lo then Some lo else Some hi
  | true, false => Some lo
  | false, true => Some hi
  | false, false => None
  end.

(** The least digit count [k] (from [k] on) that admits such a decimal,
    with the decimal. *)
Fixpoint shortest_from (fuel : nat) (x : number) (num den n k : Z)
  : Z * Z :=
  match fuel with
  | O => (k, fst (scaled num den (n - k)) / snd (scaled num den (n - k)))
  | S f =>
      match shortest_at x num den n k with
      | Some s => (k, s)
      | None => shortest_from f x num den n (k + 1)
      end
  end.

Fixpoint digits_of_from (fuel : nat) (v : Z) (acc : jsstring) : jsstring :=
  match fuel with
  | O => acc
  | S f =>
      let acc' := (Z.to_N (v mod 10) + 0x30)%N :: acc in
      if v / 10 =? 0 then acc' else digits_of_from f (v / 10) acc'
  end.

(** The decimal digits of a non-negative integer. *)
Definition digits_of (v : Z) : jsstring :=
  digits_of_from (S (Z.to_nat (Z.log2 v))) v [].

Definition zeros (n : Z) : jsstring := repeat 0x30%N (Z.to_nat n).

(** Number::toString for a positive finite [x = m * 2^e]: the digits
    [s] ([k] of them) and the exponent [n] of the shortest decimal
    [0.s * 10^n] that reads back as [x], laid out as the language
    prescribes. *)
Definition positive_toString (m : positive) (e : Z) : jsstring :=
  let x := S754_finite false m e in
  let (num, den) := ratio_of m e in
  let n0 := magnitude num den in
  let (k0, s0) := shortest_from 17 x num den n0 1 in
  let '(k, s, n) :=
    if s0 =? 10 ^ k0 then (1, 1, n0 + 1) else (k0, s0, n0) in
  let ds := digits_of s in
  if (k <=? n) && (n <=? 21) then ds ++ zeros (n - k)
  else if (0 <? n) && (n <=? 21)
  then firstn (Z.to_nat n) ds ++ str "." ++ skipn (Z.to_nat n) ds
  else if (-6 <? n) && (n <=? 0)
  then str "0." ++ zeros (- n) ++ ds
  else
    let ex := n - 1 in
    let sign := if 0 <=? ex then str "+" else str "-" in
    let mant :=
      match ds with
      | [] => []
      | [d] => [d]
      | d :: rest => d :: str "." ++ rest
      end in
    mant ++ str "e" ++ sign ++ digits_of (Z.abs ex).

(** [String(x)] for a Number [x] *)
Definition Number_toString (x : number) : jsstring :=
  match x with
  | S754_nan => str "NaN"
  | S754_zero _ => str "0"
  | S754_infinity false => str "Infinity"
  | S754_infinity true => str "-Infinity"
  | S754_finite false m e => positive_toString m e
  | S754_finite true m e => str "-" ++ positive_toString m e
  end.

End JsNumber.
Export JsNumber.

(* ================================================================= *)
(** ** Values, exceptions and conversions *)

Module JsValue.

(** The values the code handles: what [JSON.parse] builds, and
    [undefined] for a missing property. An object is the list of its own
    properties. *)
Inductive value : Type :=
| VUndefined
| VNull
| VBool (b : bool)
| VNumber (x : number)
| VString (s : jsstring)
| VArray (items : list value)
| VObject (props : list (jsstring * value)).

Inductive error : Type :=
| TypeError
| SyntaxError
| RangeError.

(** The outcome of evaluating an expression or a statement list. *)
Inductive completion (A : Type) : Type :=
| Return (a : A)
| Throw (e : error).

Arguments Return {A} a.
Arguments Throw {A} e.

Definition bind {A B : Type} (c : completion A) (k : A -> completion B)
  : completion B :=
  match c with
  | Return a => k a
  | Throw e => Throw e
  end.

(** [try { c } catch { handler }] *)
Definition try_catch {A : Type} (c : completion A) (handler : A) : A :=
  match c with
  | Return a => a
  | Throw _ => handler
  end.

Definition returns {A : Type} (c : completion A) : bool :=
  match c with
  | Return _ => true
  | Throw _ => false
  end.

(** ToBoolean *)
Definition truthy (v : value) : bool :=
  match v with
  | VUndefined | VNull => false
  | VBool b => b
  | VNumber x => number_truthy x
  | VString s => negb (is_empty s)
  | VArray _ | VObject _ => true
  end.

(** [v === null || v === undefined], also [v == null] *)
Definition nullish (v : value) : bool :=
  match v with
  | VUndefined | VNull => true
  | _ => false
  end.

(** [a ?? b] *)
Definition coalesce (a b : value) : value := if nullish a then b else a.

Fixpoint own_property (props : list (jsstring * value)) (key : jsstring)
  : option value :=
  match props with
  | [] => None
  | (k, v) :: rest =>
      if JsString.eqb k key then Some v else own_property rest key
  end.

(** [v.key], [v[key]] and [v?.key] for the property names the code
    reads ([@graph], [graph], [mainEntity], [itemListElement], [offers],
    [@type], [name], [image], [price], [lowPrice], [highPrice],
    [priceCurrency]).  None of them is defined on the prototype of an
    object, array, string, number or boolean, so the result is the own
    property of an object and [undefined] for everything else. *)
Definition get (v : value) (key : jsstring) : value :=
  match v with
  | VObject props =>
      match own_property props key with
      | Some x => x
      | None => VUndefined
      end
  | _ => VUndefined
  end.

(** [xs[0]] on an array *)
Definition first_item (items : list value) : value :=
  match items with
  | [] => VUndefined
  | x :: _ => x
  end.

Definition has_own (props : list (jsstring * value)) (key : jsstring) : bool :=
  match own_property props key with
  | Some _ => true
  | None => false
  end.

(** [String(v)].  An array is joined with commas, [null] and [undefined]
    items printing as nothing.  A parsed object has no callable property
    of its own: with an own [toString] the conversion finds no method
    returning a primitive and throws a TypeError, without one it reaches
    [Object.prototype.toString]. *)
Fixpoint ToString (v : value) : completion jsstring :=
  match v with
  | VUndefined => Return (str "undefined")
  | VNull => Return (str "null")
  | VBool true => Return (str "true")
  | VBool false => Return (str "false")
  | VNumber x => Return (Number_toString x)
  | VString s => Return s
  | VArray items =>
      (fix join_items (xs : list value) : completion jsstring :=
         match xs with
         | [] => Return []
         | x :: rest =>
             bind (if nullish x then Return [] else ToString x) (fun s =>
             match rest with
             | [] => Return s
             | _ :: _ =>
                 bind (join_items rest) (fun t => Return (s ++ str "," ++ t))
             end)
         end) items
  | VObject props =>
      if has_own props (str "toString") then Throw TypeError
      else Return (str "[object Object]")
  end.

(** [items.map(String)] *)
Fixpoint map_String (items : list value) : completion (list jsstring) :=
  match items with
  | [] => Return []
  | x :: rest =>
      bind (ToString x) (fun s =>
      bind (map_String rest) (fun ss => Return (s :: ss)))
  end.

End JsValue.
Export JsValue.

Notation "x <- c ;; k" := (bind c (fun x => k))
  (at level 61, c at next level, right associativity).

(* ================================================================= *)
(** ** [JSON.parse] *)

Module Json.

Definition is_json_ws (c : code_unit) : bool :=
  N.eqb c 0x20 || N.eqb c 0x9 || N.eqb c 0xA || N.eqb c 0xD.

Fixpoint skip_ws (s : jsstring) : jsstring :=
  match s with
  | [] => []
  | c :: r => if is_json_ws c then skip_ws r else s
  end.

Definition hex4 (a b c d : code_unit) : option code_unit :=
  match radix_digit 16 a, radix_digit 16 b, radix_digit 16 c, radix_digit 16 d with
  | Some x, Some y, Some z, Some w =>
      Some (((x * 16 + y) * 16 + z) * 16 + w)%N
  | _, _, _, _ => None
  end.

(** The character named by a one-letter escape. *)
Definition simple_escape (c : code_unit) : option code_unit :=
  if N.eqb c 0x22 then Some 0x22%N          (* quote *)
  else if N.eqb c 0x5C then Some 0x5C%N     (* backslash *)
  else if N.eqb c 0x2F then Some 0x2F%N     (* slash *)
  else if N.eqb c 0x62 then Some 0x8%N      (* b *)
  else if N.eqb c 0x66 then Some 0xC%N      (* f *)
  else if N.eqb c 0x6E then Some 0xA%N      (* n *)
  else if N.eqb c 0x72 then Some 0xD%N      (* r *)
  else if N.eqb c 0x74 then Some 0x9%N      (* t *)
  else None.

Definition cons_to (c : code_unit) (r : option (jsstring * jsstring))
  : option (jsstring * jsstring) :=
  match r with
  | Some (body, rest) => Some (c :: body, rest)
  | None => None
  end.

(** A string literal after its opening quote: the decoded text and what
    follows the closing quote. *)
Fixpoint string_body (s : jsstring) : option (jsstring * jsstring) :=
  match s with
  | [] => None
  | c :: r =>
      if N.eqb c 0x22 then Some ([], r)
      else if N.eqb c 0x5C then
        match r with
        | [] => None
        | e :: r1 =>
            if N.eqb e 0x75 then
              match r1 with
              | a :: b :: c' :: d :: r' =>
                  match hex4 a b c' d with
                  | Some u => cons_to u (string_body r')
                  | None => None
                  end
              | _ => None
              end
            else
              match simple_escape e with
              | Some u => cons_to u (string_body r1)
              | None => None
              end
        end
      else if N.ltb c 0x20 then None
      else cons_to c (string_body r)
  end.

(** [s] without a leading [c], and whether it was there. *)
Definition take_unit (c : code_unit) (s : jsstring) : bool * jsstring :=
  match s with
  | x :: r => if N.eqb x c then (true, r) else (false, s)
  | [] => (false, s)
  end.

(** The digits of an integer part longer than its leading zero. *)
Definition leading_zero (ip : jsstring) : bool :=
  match ip with
  | c :: _ :: _ => N.eqb c 0x30
  | _ => false
  end.

(** Optional fraction: a period and at least one digit. *)
Definition fraction (s : jsstring) : option (jsstring * jsstring) :=
  match take_unit 0x2E s with
  | (true, r) =>
      let (fp, r') := span is_digit r in
      if is_empty fp then None else Some (fp, r')
  | (false, _) => Some ([], s)
  end.

(** Optional exponent: [e] or [E], an optional sign, at least one digit. *)
Definition exponent (s : jsstring) : option (Z * jsstring) :=
  match s with
  | c :: r =>
      if N.eqb c 0x65 || N.eqb c 0x45 then
        let (minus, r0) := take_unit 0x2D r in
        let (_, r1) := if minus then (false, r0) else take_unit 0x2B r in
        let (ds, r2) := span is_digit r1 in
        if is_empty ds then None
        else
          let e := Z.of_N (digits_value ds) in
          Some (if minus then (- e)%Z else e, r2)
      else Some (0%Z, s)
  | [] => Some (0%Z, s)
  end.

(** A number literal: [-]? int frac? exp? *)
Definition number_literal (s : jsstring) : option (number * jsstring) :=
  let (neg, s1) := take_unit 0x2D s in
  let (ip, s2) := span is_digit s1 in
  if is_empty ip || leading_zero ip then None
  else
    match fraction s2 with
    | None => None
    | Some (fp, s3) =>
        match exponent s3 with
        | None => None
        | Some (e, s4) =>
            Some (of_decimal neg (digits_value (ip ++ fp))
                    (e - Z.of_nat (List.length fp))%Z, s4)
        end
    end.

(** [CreateDataProperty]: a repeated key keeps its place and takes the
    later value. *)
Fixpoint define_property (props : list (jsstring * value))
  (key : jsstring) (v : value) : list (jsstring * value) :=
  match props with
  | [] => [(key, v)]
  | (k, old) :: rest =>
      if JsString.eqb k key then (k, v) :: rest
      else (k, old) :: define_property rest key v
  end.

Definition strip_prefix (p s : jsstring) : option jsstring :=
  if starts_with p s then Some (skipn (List.length p) s) else None.

(** The literals [true], [false], [null], or else a number. *)
Definition literal (s : jsstring) : option (value * jsstring) :=
  match strip_prefix (str "true") s with
  | Some r => Some (VBool true, r)
  | None =>
  match strip_prefix (str "false") s with
  | Some r => Some (VBool false, r)
  | None =>
  match strip_prefix (str "null") s with
  | Some r => Some (VNull, r)
  | None =>
  match number_literal s with
  | Some (x, r) => Some (VNumber x, r)
  | None => None
  end end end end.

(** A value starting at the head of [s]; [elements] and [members] read
    the rest of an array and of an object from their first item on. *)
Fixpoint parse_value (fuel : nat) (s : jsstring) : option (value * jsstring) :=
  match fuel with
  | O => None
  | S f =>
      match s with
      | [] => None
      | c :: r =>
          if N.eqb c 0x7B then            (* { *)
            match strip_prefix (str "}") (skip_ws r) with
            | Some r' => Some (VObject [], r')
            | None => members f (skip_ws r) []
            end
          else if N.eqb c 0x5B then       (* [ *)
            match strip_prefix (str "]") (skip_ws r) with
            | Some r' => Some (VArray [], r')
            | None => elements f (skip_ws r) []
            end
          else if N.eqb c 0x22 then       (* quote *)
            match string_body r with
            | Some (t, r') => Some (VString t, r')
            | None => None
            end
          else literal s
      end
  end
with elements (fuel : nat) (s : jsstring) (acc : list value)
  : option (value * jsstring) :=
  match fuel with
  | O => None
  | S f =>
      match parse_value f s with
      | None => None
      | Some (v, r) =>
          match skip_ws r with
          | [] => None
          | c :: r' =>
              if N.eqb c 0x2C then elements f (skip_ws r') (acc ++ [v])
              else if N.eqb c 0x5D then Some (VArray (acc ++ [v]), r')
              else None
          end
      end
  end
with members (fuel : nat) (s : jsstring) (acc : list (jsstring * value))
  : option (value * jsstring) :=
  match fuel with
  | O => None
  | S f =>
      match s with
      | [] => None
      | q :: r =>
          if N.eqb q 0x22 then
            match string_body r with
            | None => None
            | Some (key, r1) =>
                match skip_ws r1 with
                | [] => None
                | colon :: r2 =>
                    if N.eqb colon 0x3A then
                      match parse_value f (skip_ws r2) with
                      | None => None
                      | Some (v, r3) =>
                          match skip_ws r3 with
                          | [] => None
                          | c :: r4 =>
                              if N.eqb c 0x2C then
                                members f (skip_ws r4)
                                        (define_property acc key v)
                              else if N.eqb c 0x7D then
                                Some (VObject (define_property acc key v), r4)
                              else None
                          end
                      end
                    else None
                end
            end
          else None
      end
  end.

(** Fuel that [parse_value] cannot use up on [text]: every call consumes
    input ([parse_value_fuel] below). *)
Definition fuel_for (text : jsstring) : nat := 2 * List.length text + 2.

(** [JSON.parse(text)]: the value, or a SyntaxError when [text] is not
    one JSON value surrounded by optional white space. *)
Definition JSON_parse (text : jsstring) : completion value :=
  match parse_value (fuel_for text) (skip_ws text) with
  | Some (v, rest) =>
      if is_empty (skip_ws rest) then Return v else Throw SyntaxError
  | None => Throw SyntaxError
  end.

End Json.
Export Json.

(* ================================================================= *)
(** ** The platform interfaces *)

Module Cheerio.

(** The selectors the code hands to [$]. *)
Inductive selector : Type :=
| script_type (t : jsstring)      (* script[type=t] *)
| meta_property (p : jsstring)    (* meta[property=p] *)
| meta_name (n : jsstring)        (* meta[name=n] *)
| tag (t : jsstring)              (* t *)
| itemprop (v : jsstring).        (* [itemprop=v] *)

(** A matched element: its attributes and its text content. *)
Record element : Type := {
  attribs : list (jsstring * jsstring);
  text_content : jsstring
}.

Definition selection := list element.

(** The loaded page, [$ = cheerio.load(html)]: for a selector, the
    matching elements in document order.  [cheerio.load] accepts every
    string, so the engine is modelled from its result on. *)
Definition document := selector -> selection.

Fixpoint attribute (attrs : list (jsstring * jsstring)) (name : jsstring)
  : option jsstring :=
  match attrs with
  | [] => None
  | (k, v) :: rest =>
      if JsString.eqb k name then Some v else attribute rest name
  end.

(** [sel.attr(name)]: the attribute of the first matched element,
    [undefined] ([None]) without a match or without the attribute. *)
Definition attr (sel : selection) (name : jsstring) : option jsstring :=
  match sel with
  | [] => None
  | el :: _ => attribute (attribs el) name
  end.

(** [sel.text()]: the text of all matched elements, concatenated. *)
Definition text (sel : selection) : jsstring :=
  List.concat (List.map text_content sel).

(** [sel.first()] *)
Definition first (sel : selection) : selection := firstn 1 sel.

End Cheerio.
Export Cheerio.

(** [new URL(input, base).toString()]: the serialised URL, or a
    TypeError when [input] cannot be parsed against [base]. *)
Class UrlApi : Type := {
  URL_href : jsstring -> jsstring -> completion jsstring
}.

(* ================================================================= *)
(** ** The code of [src/index.js] *)

(** [const TOKEN = process.env.SCRAPER_TOKEN || ""] *)
Definition TOKEN_of (env_SCRAPER_TOKEN : option jsstring) : jsstring :=
  match env_SCRAPER_TOKEN with
  | Some t => if is_empty t then str "" else t
  | None => str ""
  end.

(** The part of a request that [authOk] reads: [req.headers.authorization] *)
Record request : Type := {
  authorization : option jsstring
}.

Definition authOk (TOKEN : jsstring) (req : request) : bool :=
  if is_empty TOKEN then true
  else
    let h :=
      match authorization req with
      | Some a => if is_empty a then str "" else a
      | None => str ""
      end in
    JsString.eqb h (str "Bearer " ++ TOKEN).

(** [pickFirst(...vals)]; an argument is a string or [undefined]. *)
Fixpoint pickFirst (vals : list (option jsstring)) : jsstring :=
  match vals with
  | [] => str ""
  | v :: rest =>
      let s := trim (match v with Some x => x | None => str "" end) in
      if negb (is_empty s) then s else pickFirst rest
  end.

Definition absUrl {U : UrlApi} (base maybe : jsstring) : jsstring :=
  try_catch
    (if is_empty maybe then Return (str "")
     else URL_href maybe base)
    (str "").

(** The class [[^\d.,]] of the regular expression of [toNumberOrNull] *)
Definition not_digit_dot_comma (c : code_unit) : bool :=
  negb (is_digit c || is_period c || is_comma c).

Definition toNumberOrNull (v : value) : completion (option number) :=
  if nullish v then Return None
  else
    match v with
    | VNumber x => Return (if isFinite x then Some x else None)
    | _ =>
        s0 <- ToString v ;;
        let s := trim s0 in
        if is_empty s then Return None
        else
          let cleaned := remove_all not_digit_dot_comma s in
          if is_empty cleaned then Return None
          else
            let lastComma := lastIndexOf cleaned (str ",") in
            let lastDot := lastIndexOf cleaned (str ".") in
            let normalized :=
              if negb (Z.eqb lastComma (-1)) && negb (Z.eqb lastDot (-1))
              then
                let decSep :=
                  if Z.gtb lastComma lastDot then str "," else str "." in
                replace
                  (remove_all
                     (if JsString.eqb decSep (str ",")
                      then is_period else is_comma)
                     cleaned)
                  decSep (str ".")
              else replace cleaned (str ",") (str ".") in
            let num := Number_of_string normalized in
            Return (if isFinite num then Some num else None)
    end.

Definition extractCurrencyLoose (s : jsstring) : option jsstring :=
  let up := toUpperCase (if is_empty s then str "" else s) in
  if includes up (str "EUR") || includes s euro_sign then Some (str "EUR")
  else if includes up (str "USD") || includes s (str "$") then Some (str "USD")
  else if includes up (str "GBP") || includes s pound_sign then Some (str "GBP")
  else None.

(** The inner [walk] of [flattenJsonLd], returning what it pushes on
    [out].  [walk_own props key] is [if (node[key]) walk(node[key])] for
    the object with own properties [props]; it looks the property up
    while descending so that the recursion is on a part of [node]
    ([walk_object] states it through [get]).  The call stack is taken
    deep enough for the nesting of [node]; [walk_within] carries the
    bound and the RangeError of a stack that is not. *)
Fixpoint walk (node : value) : list value :=
  if negb (truthy node) then []
  else
    match node with
    | VArray items => flat_map walk items
    | VObject props =>
        let walk_own (key : jsstring) : list value :=
          (fix find (ps : list (jsstring * value)) : list value :=
             match ps with
             | [] => []
             | (k, v) :: rest =>
                 if JsString.eqb k key
                 then (if truthy v then walk v else [])
                 else find rest
             end) props in
        node
          :: walk_own (str "@graph")
          ++ walk_own (str "graph")
          ++ walk_own (str "mainEntity")
          ++ walk_own (str "itemListElement")
          ++ walk_own (str "offers")
    | _ => []
    end.

Definition flattenJsonLd (input : value) : list value := walk input.

Definition isType (node : value) (t : jsstring) : completion bool :=
  let want := toLowerCase t in
  let raw := get node (str "@type") in
  if negb (truthy raw) then Return false
  else
    match raw with
    | VString r => Return (JsString.eqb (toLowerCase r) want)
    | VArray items =>
        xs <- map_String items ;;
        Return (existsb (fun x => JsString.eqb (toLowerCase x) want) xs)
    | _ => Return false
    end.

(** The record [parseFromHtml] returns.  The four local variables of its
    JSON-LD part, [title], [imageUrl], [price] and [currency], have the
    same shape and are carried in the same record; [None] is [null]. *)
Record ProductRecord : Type := {
  title : jsstring;
  imageUrl : jsstring;
  price : option number;
  currency : option jsstring
}.

Definition set_title (s : jsstring) (st : ProductRecord) : ProductRecord :=
  {| title := s; imageUrl := imageUrl st;
     price := price st; currency := currency st |}.
Definition set_imageUrl (s : jsstring) (st : ProductRecord) : ProductRecord :=
  {| title := title st; imageUrl := s;
     price := price st; currency := currency st |}.
Definition set_price (p : option number) (st : ProductRecord) : ProductRecord :=
  {| title := title st; imageUrl := imageUrl st;
     price := p; currency := currency st |}.
Definition set_currency (c : option jsstring) (st : ProductRecord)
  : ProductRecord :=
  {| title := title st; imageUrl := imageUrl st;
     price := price st; currency := c |}.

(** ToBoolean on a string, and on a string-or-null. *)
Definition truthy_string (s : jsstring) : bool := negb (is_empty s).
Definition truthy_nullable (c : option jsstring) : bool :=
  match c with
  | Some s => truthy_string s
  | None => false
  end.

(** [x != null] and [x == null] on a number-or-null *)
Definition not_null {A : Type} (x : option A) : bool :=
  match x with Some _ => true | None => false end.
Definition is_null {A : Type} (x : option A) : bool := negb (not_null x).

(** *** Statements over the four local variables

    A statement turns the variables into their new values and says how it
    ended; what was assigned before a [break] or a throw stays assigned. *)
Module Stmt.

Inductive signal : Type :=
| Normal
| Broke
| Thrown (e : error).

Definition stmt := ProductRecord -> ProductRecord * signal.

Definition skip : stmt := fun st => (st, Normal).

Definition assign (f : ProductRecord -> ProductRecord) : stmt :=
  fun st => (f st, Normal).

Definition break : stmt := fun st => (st, Broke).

Definition seq (s1 s2 : stmt) : stmt :=
  fun st =>
    match s1 st with
    | (st', Normal) => s2 st'
    | other => other
    end.

(** [if (cond) body] *)
Definition when (cond : ProductRecord -> bool) (body : stmt) : stmt :=
  fun st => if cond st then body st else (st, Normal).

(** Evaluate an expression that may throw, then go on with its value. *)
Definition eval {A : Type} (c : completion A) (k : A -> stmt) : stmt :=
  fun st =>
    match c with
    | Return a => k a st
    | Throw e => (st, Thrown e)
    end.

(** [for (const x of xs) body(x)] *)
Fixpoint for_of {A : Type} (body : A -> stmt) (xs : list A) : stmt :=
  fun st =>
    match xs with
    | [] => (st, Normal)
    | x :: rest =>
        match body x st with
        | (st', Normal) => for_of body rest st'
        | (st', Broke) => (st', Normal)
        | (st', Thrown e) => (st', Thrown e)
        end
    end.

(** [try { body } catch {}] *)
Definition try_ (body : stmt) : stmt :=
  fun st =>
    match body st with
    | (st', Thrown _) => (st', Normal)
    | other => other
    end.

End Stmt.
Export Stmt.

Notation "s1 ;;; s2" := (seq s1 s2) (at level 62, right associativity).

(** [nodes.filter((n) => isType(n, t))] *)
Fixpoint filter_isType (nodes : list value) (t : jsstring)
  : completion (list value) :=
  match nodes with
  | [] => Return []
  | n :: rest =>
      keep <- isType n t ;;
      kept <- filter_isType rest t ;;
      Return (if keep then n :: kept else kept)
  end.

(** [Array.isArray(offers) ? offers[0] : offers] *)
Definition first_offer (offers : value) : value :=
  match offers with
  | VArray items => first_item items
  | _ => offers
  end.

(** Title, image and price are all set: [title && imageUrl && price != null] *)
Definition complete (st : ProductRecord) : bool :=
  truthy_string (title st) && truthy_string (imageUrl st)
  && not_null (price st).

(** The four statements of the body of [for (const n of candidates)]. *)

(** Line 113: [if (!title && n?.name) title = String(n.name).trim();] *)
Definition title_statement (n : value) : stmt :=
  when (fun st => negb (truthy_string (title st)) && truthy (get n (str "name")))
    (eval (ToString (get n (str "name"))) (fun s =>
     assign (set_title (trim s)))).

(** Lines 115 to 119: [if (!imageUrl) { const img = n?.image; ... }] *)
Definition image_statement (n : value) : stmt :=
  when (fun st => negb (truthy_string (imageUrl st)))
    (let img := get n (str "image") in
     (* if (typeof img === "string") imageUrl = img; *)
     (match img with
      | VString s => assign (set_imageUrl s)
      | _ => skip
      end) ;;;
     (* if (Array.isArray(img) && typeof img[0] === "string") imageUrl = img[0]; *)
     (match img with
      | VArray items =>
          match first_item items with
          | VString s => assign (set_imageUrl s)
          | _ => skip
          end
      | _ => skip
      end)).

(** Lines 121 to 128: [if (price == null && offer) { price = ...;
    const cur = ...; if (!currency && cur) currency = cur; }] *)
Definition offer_statement (n : value) : stmt :=
  let offers := get n (str "offers") in
  let offer := first_offer offers in
  when (fun st => is_null (price st) && truthy offer)
    (eval (toNumberOrNull
             (coalesce (coalesce (get offer (str "price"))
                                 (get offer (str "lowPrice")))
                       (get offer (str "highPrice")))) (fun p =>
     assign (set_price p) ;;;
     eval (if truthy (get offer (str "priceCurrency"))
           then (s <- ToString (get offer (str "priceCurrency")) ;;
                 Return (Some s))
           else Return None) (fun cur =>
     when (fun st => negb (truthy_nullable (currency st))
                     && truthy_nullable cur)
       (assign (set_currency cur))))).

(** Line 130: [if (title && imageUrl && price != null) break;] *)
Definition break_statement : stmt := when complete break.

(** The body of [for (const n of candidates)], lines 113 to 130. *)
Definition candidate_body (n : value) : stmt :=
  title_statement n ;;;
  image_statement n ;;;
  offer_statement n ;;;
  break_statement.

(** The body of [try] for one script text, lines 107 to 131. *)
Definition script_body (raw : jsstring) : stmt :=
  eval (JSON_parse raw) (fun json =>
  let nodes := flattenJsonLd json in
  eval (filter_isType nodes (str "Product")) (fun products =>
  let candidates :=
    match products with
    | [] => nodes
    | _ :: _ => products
    end in
  for_of candidate_body candidates)).

Definition no_product : ProductRecord :=
  {| title := str ""; imageUrl := str ""; price := None; currency := None |}.

Definition ld_json : selector := script_type (str "application/ld+json").

(** Lines 104 to 133: the texts of the JSON-LD scripts, scanned in turn. *)
Definition scripts_of (html : document) : list jsstring :=
  List.map (fun el => text [el]) (html ld_json).

Definition jsonld_pass (html : document) : ProductRecord * signal :=
  for_of (fun raw => try_ (script_body raw)) (scripts_of html) no_product.

(** The four strings of the OG/meta fallback, lines 136 to 159. *)
Definition content : jsstring := str "content".

Definition ogTitle_of (html : document) : jsstring :=
  pickFirst
    [ attr (html (meta_property (str "og:title"))) content;
      attr (html (meta_name (str "twitter:title"))) content;
      Some (text (html (tag (str "title")))) ].

Definition ogImage_of (html : document) : jsstring :=
  pickFirst
    [ attr (html (meta_property (str "og:image"))) content;
      attr (html (meta_name (str "twitter:image"))) content ].

Definition metaPrice_of (html : document) : jsstring :=
  pickFirst
    [ attr (html (meta_property (str "product:price:amount"))) content;
      attr (html (meta_name (str "product:price:amount"))) content;
      attr (html (itemprop (str "price"))) content;
      Some (text (first (html (itemprop (str "price"))))) ].

Definition metaCurrency_of (html : document) : jsstring :=
  pickFirst
    [ attr (html (meta_property (str "product:price:currency"))) content;
      attr (html (meta_name (str "product:price:currency"))) content;
      attr (html (itemprop (str "priceCurrency"))) content;
      Some (text (first (html (itemprop (str "priceCurrency"))))) ].

(** [a || b] on strings-or-null *)
Definition or_else (a b : option jsstring) : option jsstring :=
  if truthy_nullable a then a else b.

(** Lines 161 to 171, from the variables left by the JSON-LD part and
    the four fallback strings. *)
Definition merge {U : UrlApi} (url : jsstring) (st : ProductRecord)
  (ogTitle ogImage metaPrice metaCurrency : jsstring)
  : completion ProductRecord :=
  let finalTitle := pickFirst [Some (title st); Some ogTitle] in
  let finalImage := absUrl url (pickFirst [Some (imageUrl st); Some ogImage]) in
  finalPrice <- (if not_null (price st) then Return (price st)
                 else toNumberOrNull (VString metaPrice)) ;;
  let finalCurrency :=
    or_else
      (or_else (currency st)
               (if truthy_string metaCurrency
                then Some (trim metaCurrency) else None))
      (extractCurrencyLoose
         (if truthy_string metaPrice then metaPrice else str "")) in
  Return {| title := finalTitle;
            imageUrl := finalImage;
            price := finalPrice;
            currency := finalCurrency |}.

Definition parseFromHtml {U : UrlApi} (url : jsstring) (html : document)
  : completion ProductRecord :=
  match jsonld_pass html with
  | (st, Thrown e) => Throw e
  | (st, _) =>
      merge url st (ogTitle_of html) (ogImage_of html)
            (metaPrice_of html) (metaCurrency_of html)
  end.

(* ================================================================= *)
(** ** A reference URL resolver

    The general results below hold for every [UrlApi].  For the worked
    examples a resolver is needed that can be run: [reference_href]
    follows the URL Standard on the URLs it covers, which are the [http]
    and [https] URLs of the form [scheme://host/path?query#fragment]
    whose host is a plain ASCII name and whose other parts need no
    percent-encoding, and the references relative to them.  Everything
    else it does not attempt and reports as unparsable. *)

Module UrlReference.

Record url : Type := {
  scheme : jsstring;
  host : jsstring;
  path : list jsstring;
  query : option jsstring;
  fragment : option jsstring
}.

Definition is_alpha (c : code_unit) : bool :=
  is_ascii_lower c || is_ascii_upper c.

Definition one_of (chars : jsstring) (c : code_unit) : bool :=
  existsb (N.eqb c) chars.

Definition is_scheme_char (c : code_unit) : bool :=
  is_alpha c || is_digit c || one_of (str "+-.") c.

(** Code units that every part of a URL keeps as they are. *)
Definition is_plain (c : code_unit) : bool :=
  is_alpha c || is_digit c || one_of (str "-._~!$&'()*+,;=:@") c.

Definition is_host_char (c : code_unit) : bool :=
  is_alpha c || is_digit c || one_of (str "-.") c.

(** The scheme of [s], in lower case, and what follows its colon. *)
Definition split_scheme (s : jsstring) : option (jsstring * jsstring) :=
  match s with
  | c :: _ =>
      if is_alpha c then
        let (sch, r) := span is_scheme_char s in
        match r with
        | 0x3A%N :: r' => Some (toLowerCase sch, r')
        | _ => None
        end
      else None
  | [] => None
  end.

(** [s] cut at the first code unit satisfying [p] (which is dropped). *)
Fixpoint cut_at (p : code_unit -> bool) (s : jsstring)
  : jsstring * option jsstring :=
  match s with
  | [] => ([], None)
  | c :: r =>
      if p c then ([], Some r)
      else let (a, b) := cut_at p r in (c :: a, b)
  end.

Fixpoint split_on (p : code_unit -> bool) (s : jsstring) : list jsstring :=
  match s with
  | [] => [[]]
  | c :: r =>
      if p c then [] :: split_on p r
      else match split_on p r with
           | seg :: segs => (c :: seg) :: segs
           | [] => [[c]]
           end
  end.

Definition is_slash (c : code_unit) : bool := N.eqb c 0x2F.

(** The last label of a host, a trailing dot set aside. *)
Definition last_label (h : jsstring) : jsstring :=
  let labels := split_on is_period h in
  match rev labels with
  | [] :: l :: _ => l
  | l :: _ => l
  | [] => []
  end.

(** A covered host: an ASCII name that is not read as an IPv4 address
    and holds no punycode label. *)
Definition host_covered (h : jsstring) : bool :=
  negb (is_empty h)
  && forallb is_host_char h
  && match last_label h with
     | c :: _ => negb (is_digit c)
     | [] => false
     end
  && negb (includes (toLowerCase h) (str "xn--")).

(** The path state: segments are appended in turn, [..] drops the last
    one, [.] is skipped, and either of them in last position leaves an
    empty last segment. *)
Fixpoint path_state (acc : list jsstring) (segs : list jsstring)
  : list jsstring :=
  match segs with
  | [] => acc
  | seg :: rest =>
      let last := match rest with [] => true | _ :: _ => false end in
      if JsString.eqb seg (str "..") then
        path_state (removelast acc ++ (if last then [[]] else [])) rest
      else if JsString.eqb seg (str ".") then
        path_state (acc ++ (if last then [[]] else [])) rest
      else path_state (acc ++ [seg]) rest
  end.

Definition is_path_char (c : code_unit) : bool := is_plain c || is_slash c.
Definition is_query_char (c : code_unit) : bool :=
  (is_plain c && negb (N.eqb c 0x27)) || is_slash c || N.eqb c 0x3F.
Definition is_fragment_char (c : code_unit) : bool :=
  is_plain c || is_slash c || N.eqb c 0x3F.

Definition covered_opt (p : code_unit -> bool) (s : option jsstring) : bool :=
  match s with
  | Some t => forallb p t
  | None => true
  end.

(** Path, query and fragment of [s]; the path is read on top of [dir]. *)
Definition parse_tail (dir : list jsstring) (s : jsstring)
  : option (list jsstring * option jsstring * option jsstring) :=
  let (before_hash, frag) := cut_at (N.eqb 0x23) s in
  let (p, q) := cut_at (N.eqb 0x3F) before_hash in
  if forallb is_path_char p && covered_opt is_query_char q
     && covered_opt is_fragment_char frag
  then
    let segs :=
      match p with
      | 0x2F%N :: p' => split_on is_slash p'
      | _ => split_on is_slash p
      end in
    Some (path_state dir segs, q, frag)
  else None.

(** What follows [scheme:] in a covered absolute URL. *)
Definition parse_after_scheme (sch : jsstring) (s : jsstring) : option url :=
  match s with
  | 0x2F%N :: 0x2F%N :: r =>
      let (h, _) := span is_host_char r in
      let tail := skipn (List.length h) r in
      let tail_ok :=
        match tail with
        | [] => true
        | c :: _ => one_of (str "/?#") c
        end in
      if host_covered h && tail_ok then
        match parse_tail [] tail with
        | Some (p, q, f) =>
            Some {| scheme := sch; host := toLowerCase h; path := p;
                    query := q; fragment := f |}
        | None => None
        end
      else None
  | _ => None
  end.

Definition is_http (sch : jsstring) : bool :=
  JsString.eqb sch (str "http") || JsString.eqb sch (str "https").

Definition parse_absolute (s : jsstring) : option url :=
  match split_scheme s with
  | Some (sch, r) => if is_http sch then parse_after_scheme sch r else None
  | None => None
  end.

Definition no_control (s : jsstring) : bool :=
  forallb (fun c => N.ltb 0x20 c && N.ltb c 0x7F) s.

(** [input] read against the parsed [base]. *)
Definition parse_relative (base : url) (input : jsstring) : option url :=
  match input with
  | 0x2F%N :: 0x2F%N :: _ => parse_after_scheme (scheme base) input
  | 0x2F%N :: _ =>
      match parse_tail [] input with
      | Some (p, q, f) =>
          Some {| scheme := scheme base; host := host base; path := p;
                  query := q; fragment := f |}
      | None => None
      end
  | 0x3F%N :: _ =>
      match parse_tail [] input with
      | Some (_, q, f) =>
          Some {| scheme := scheme base; host := host base;
                  path := path base; query := q; fragment := f |}
      | None => None
      end
  | 0x23%N :: _ =>
      match parse_tail [] input with
      | Some (_, _, f) =>
          Some {| scheme := scheme base; host := host base;
                  path := path base; query := query base; fragment := f |}
      | None => None
      end
  | _ =>
      match parse_tail (removelast (path base)) input with
      | Some (p, q, f) =>
          Some {| scheme := scheme base; host := host base; path := p;
                  query := q; fragment := f |}
      | None => None
      end
  end.

Definition serialize (u : url) : jsstring :=
  scheme u ++ str "://" ++ host u
  ++ List.concat (List.map (fun seg => str "/" ++ seg) (path u))
  ++ match query u with Some q => str "?" ++ q | None => [] end
  ++ match fragment u with Some f => str "#" ++ f | None => [] end.

Definition reference_href (input base : jsstring) : completion jsstring :=
  if no_control input && no_control base then
    match parse_absolute base with
    | None => Throw TypeError
    | Some b =>
        let parsed :=
          match split_scheme input with
          | Some _ => parse_absolute input
          | None => parse_relative b input
          end in
        match parsed with
        | Some u => Return (serialize u)
        | None => Throw TypeError
        end
    end
  else Throw TypeError.

Definition reference : UrlApi := {| URL_href := reference_href |}.

End UrlReference.

(* ================================================================= *)
(** ** Definitions used to state the specification *)

(** A text written with ['] in place of the double quote, for the JSON
    payloads of the examples. *)
Definition quoted (s : string) : jsstring :=
  List.map (fun c => if N.eqb c 0x27 then 0x22%N else c) (str s).

(** *** Currency detection, as the specification words it

    A priority list of rules, each a code with the word and the sign
    that announce it; the first rule that matches wins. *)
Record currency_rule : Type := {
  rule_code : jsstring;
  rule_word : jsstring;
  rule_sign : jsstring
}.

Definition currency_rules : list currency_rule :=
  [ {| rule_code := str "EUR"; rule_word := str "EUR"; rule_sign := euro_sign |};
    {| rule_code := str "USD"; rule_word := str "USD"; rule_sign := str "$" |};
    {| rule_code := str "GBP"; rule_word := str "GBP"; rule_sign := pound_sign |} ].

(** The text holds the word of the rule in any letter case, or its sign. *)
Definition rule_matches (s : jsstring) (r : currency_rule) : bool :=
  includes (toUpperCase s) (rule_word r) || includes s (rule_sign r).

Fixpoint first_match (rules : list currency_rule) (s : jsstring)
  : option jsstring :=
  match rules with
  | [] => None
  | r :: rest =>
      if rule_matches s r then Some (rule_code r) else first_match rest s
  end.

(** Basic Latin case folding, one code unit at a time. *)
Definition ascii_upper (c : code_unit) : code_unit :=
  if is_ascii_lower c then (c - 0x20)%N else c.

(** [s] holds [word] when the case of Basic Latin letters is ignored. *)
Definition includes_ignoring_case (s word : jsstring) : bool :=
  includes (List.map ascii_upper s) word.

(** *** Price normalisation, as the specification words it *)

(** The index of the last code unit of [s] satisfying [p]. *)
Fixpoint last_position (p : code_unit -> bool) (s : jsstring) : option nat :=
  match s with
  | [] => None
  | c :: r =>
      match last_position p r with
      | Some k => Some (S k)
      | None => if p c then Some O else None
      end
  end.

(** The separator that appears last in a text holding both. *)
Definition decimal_separator (cleaned : jsstring) : code_unit :=
  match last_position is_comma cleaned, last_position is_period cleaned with
  | Some i, Some j => if Nat.ltb j i then 0x2C%N else 0x2E%N
  | _, _ => 0x2E%N
  end.

(** Every occurrence of the other separator removed, then the decimal
    separator turned into a period wherever it stands. *)
Definition spec_normalize (cleaned : jsstring) : jsstring :=
  let d := decimal_separator cleaned in
  List.map (fun c => if N.eqb c d then 0x2E%N else c)
    (filter (fun c => negb ((is_comma c || is_period c) && negb (N.eqb c d)))
       cleaned).

(** A parsed number, or absent when it is not finite. *)
Definition finite_or_null (x : number) : option number :=
  if isFinite x then Some x else None.

(** What [toNumberOrNull] keeps of a string before normalising it. *)
Definition cleaned_of (s : jsstring) : jsstring :=
  remove_all not_digit_dot_comma (trim s).

Definition count_commas (s : jsstring) : nat :=
  List.length (filter is_comma s).

(** *** Pages *)

(** [html] with the JSON-LD script elements replaced by [scripts]. *)
Definition with_scripts (html : document) (scripts : selection) : document :=
  fun sel =>
    match sel with
    | script_type t =>
        if JsString.eqb t (str "application/ld+json") then scripts
        else html sel
    | _ => html sel
    end.

(** A script element whose text [JSON.parse] accepts. *)
Definition well_formed (el : element) : bool :=
  returns (JSON_parse (text [el])).

(** [html] without its malformed JSON-LD scripts. *)
Definition without_malformed (html : document) : document :=
  with_scripts html (filter well_formed (html ld_json)).

(** The page that matches no selector. *)
Definition empty_page : document := fun _ => [].

Definition meta_tag (value : string) : element :=
  {| attribs := [(content, str value)]; text_content := str "" |}.

Definition script_tag (payload : jsstring) : element :=
  {| attribs := [(str "type", str "application/ld+json")];
     text_content := payload |}.

(** A three-letter currency code. *)
Definition is_currency_code (c : jsstring) : bool :=
  Nat.eqb (List.length c) 3 && forallb is_ascii_upper c.

(** The currency code a candidate's offer carries, if any. *)
Definition offer_currency (n : value) : value :=
  get (first_offer (get n (str "offers"))) (str "priceCurrency").


(** *** Predicates used in the proofs *)

(** A text that does not start with white space. *)
Definition clean_head (s : jsstring) : Prop :=
  match s with
  | [] => True
  | c :: _ => is_white_space c = false
  end.

(** A statement that always ends normally. *)
Definition quiet (s : stmt) : Prop := forall st, snd (s st) = Normal.

(** A statement that keeps a property of the variables, however it ends. *)
Definition preserves (P : ProductRecord -> Prop) (s : stmt) : Prop :=
  forall st, P st -> P (fst (s st)).

(** What the JSON-LD part maintains: the title is stored trimmed, and a
    currency that is set is a non-empty string. *)
Definition tidy (st : ProductRecord) : Prop :=
  trim (title st) = title st
  /\ (forall c, currency st = Some c -> truthy_string c = true).

(** The code units [toNumberOrNull] keeps: digits, period and comma. *)
Definition plain (c : code_unit) : bool :=
  is_digit c || is_period c || is_comma c.

Definition count_periods (s : jsstring) : nat :=
  List.length (filter is_period s).

(** The text [toNumberOrNull] hands to [Number], from the cleaned text:
    the value of its variable [normalized]. *)
Definition normalized_of (cleaned : jsstring) : jsstring :=
  let lastComma := lastIndexOf cleaned (str ",") in
  let lastDot := lastIndexOf cleaned (str ".") in
  if negb (Z.eqb lastComma (-1)) && negb (Z.eqb lastDot (-1))
  then
    let decSep := if Z.gtb lastComma lastDot then str "," else str "." in
    replace
      (remove_all
         (if JsString.eqb decSep (str ",") then is_period else is_comma)
         cleaned)
      decSep (str ".")
  else replace cleaned (str ",") (str ".").

(** A text of digits, periods and commas that [Number] reads: digits,
    then possibly a period and digits. *)
Definition decimal_shape (t : jsstring) : Prop :=
  exists ip fp,
    forallb is_digit ip = true /\ forallb is_digit fp = true
    /\ (t = ip \/ t = ip ++ 0x2E%N :: fp).

(** A comma turned into a period, other code units kept. *)
Definition comma_to_period (c : code_unit) : code_unit :=
  if N.eqb c 0x2C then 0x2E%N else c.

(** Parsers with fuel [f] that return a shorter rest than their input. *)
Definition consumes (f : nat) : Prop :=
  (forall s v r, parse_value f s = Some (v, r) ->
                 (List.length r < List.length s)%nat)
  /\ (forall s acc v r, elements f s acc = Some (v, r) ->
                        (List.length r < List.length s)%nat)
  /\ (forall s acc v r, members f s acc = Some (v, r) ->
                        (List.length r < List.length s)%nat).


(** Parsers for which fuel [f] is as good as any larger fuel, on inputs
    short enough. *)
Definition saturated (f : nat) : Prop :=
  (forall s f', (2 * List.length s + 1 <= f)%nat -> (f <= f')%nat ->
                parse_value f s = parse_value f' s)
  /\ (forall s acc f', (2 * List.length s + 2 <= f)%nat -> (f <= f')%nat ->
                       elements f s acc = elements f' s acc)
  /\ (forall s acc f', (2 * List.length s + 2 <= f)%nat -> (f <= f')%nat ->
                       members f s acc = members f' s acc).


(** The other separator: the one [toNumberOrNull] removes when [d] is the
    decimal separator. *)
Definition other_separator (d : code_unit) : code_unit -> bool :=
  if N.eqb d 0x2C then is_period else is_comma.

(** *** The pages and payloads of the examples *)

Definition shop_url : jsstring := str "https://shop.example/p/1".

(** A page whose only metadata is a product currency tag reading [Euro]. *)
Definition euro_page : document :=
  fun sel =>
    match sel with
    | meta_property p =>
        if JsString.eqb p (str "product:price:currency")
        then [meta_tag "Euro"] else []
    | _ => []
    end.

(** The Product block of the specification's example. *)
Definition widget_payload : jsstring :=
  quoted "{'@type':'Product','name':'Widget','image':['http://a/x.jpg','http://a/y.jpg'],'offers':{'price':'19,99','priceCurrency':'EUR'}}".

Definition widget : value :=
  VObject
    [ (str "@type", VString (str "Product"));
      (str "name", VString (str "Widget"));
      (str "image", VArray [VString (str "http://a/x.jpg");
                            VString (str "http://a/y.jpg")]);
      (str "offers", VObject [ (str "price", VString (str "19,99"));
                               (str "priceCurrency", VString (str "EUR")) ]) ].

Definition widget_page : document :=
  with_scripts empty_page [script_tag widget_payload].

(** The same block after a script whose text is not JSON. *)
Definition broken_then_widget_page : document :=
  with_scripts empty_page [script_tag (str "{oops"); script_tag widget_payload].

(** A page without structured data, with Open Graph title and image. *)
Definition shoes_page : document :=
  fun sel =>
    match sel with
    | meta_property p =>
        if JsString.eqb p (str "og:title") then [meta_tag "Cool Shoes"]
        else if JsString.eqb p (str "og:image") then [meta_tag "/img/shoe.png"]
        else []
    | _ => []
    end.

(** A JSON-LD payload with two Products: the first has a name and a
    priced offer without currency, the second an offer with price and
    currency. *)
Definition priced_then_currency_payload : jsstring :=
  quoted "[{'@type':'Product','name':'A','offers':{'price':'5'}},{'@type':'Product','offers':{'price':'6','priceCurrency':'EUR'}}]".

(** Its two candidates. *)
Definition priced_then_currency : list value :=
  [ VObject [ (str "@type", VString (str "Product"));
              (str "name", VString (str "A"));
              (str "offers", VObject [ (str "price", VString (str "5")) ]) ];
    VObject [ (str "@type", VString (str "Product"));
              (str "offers", VObject [ (str "price", VString (str "6"));
                                       (str "priceCurrency", VString (str "EUR")) ]) ] ].

(** A payload with two Products: the first sets title, image and price
    and carries no currency, the second carries one. *)
Definition complete_then_currency_payload : jsstring :=
  quoted "[{'@type':'Product','name':'A','image':'http://a/i.png','offers':{'price':'5'}},{'@type':'Product','offers':{'priceCurrency':'EUR'}}]".

Definition complete_then_currency : list value :=
  [ VObject [ (str "@type", VString (str "Product"));
              (str "name", VString (str "A"));
              (str "image", VString (str "http://a/i.png"));
              (str "offers", VObject [ (str "price", VString (str "5")) ]) ];
    VObject [ (str "@type", VString (str "Product"));
              (str "offers", VObject [ (str "priceCurrency", VString (str "EUR")) ]) ] ].

(** The candidates [parseFromHtml] scans for a script text: the Product
    nodes of the flattened payload when there are any, else all nodes. *)
Definition candidates_of (raw : jsstring) : completion (list value) :=
  json <- JSON_parse raw ;;
  products <- filter_isType (flattenJsonLd json) (str "Product") ;;
  Return (match products with
          | [] => flattenJsonLd json
          | _ :: _ => products
          end).

(** The page whose only content is one JSON-LD script. *)
Definition page_of_script (payload : jsstring) : document :=
  with_scripts empty_page [script_tag payload].

(** The Number written [5]. *)
Definition five : number := of_decimal false 5 0.

(** A page whose Open Graph image is an absolute URL in capitals. *)
Definition capitals_reference : jsstring :=
  str "HTTPS://SHOP.EXAMPLE/img/shoe.png".

Definition capitals_page : document :=
  fun sel =>
    match sel with
    | meta_property p =>
        if JsString.eqb p (str "og:image")
        then [{| attribs := [(content, capitals_reference)];
                 text_content := str "" |}]
        else []
    | _ => []
    end.

(* ================================================================= *)
(** ** Definitions for the further properties *)

(** An argument [pickFirst] passes over: missing, empty, or white space
    only. *)
Definition blank (v : option jsstring) : bool :=
  is_empty (trim (match v with Some x => x | None => str "" end)).

(** The sign bit of a Number ([NaN] has none). *)
Definition negative (x : number) : bool :=
  match x with
  | S754_zero s | S754_infinity s | S754_finite s _ _ => s
  | S754_nan => false
  end.

(** [typeof v] is not ["object"]: [undefined], a boolean, a number or a
    string, and also [null]. *)
Definition primitive (v : value) : bool :=
  match v with
  | VArray _ | VObject _ => false
  | _ => true
  end.

(** The five properties [walk] descends into, in its order. *)
Definition walked_keys : list jsstring :=
  [str "@graph"; str "graph"; str "mainEntity"; str "itemListElement";
   str "offers"].

(** [reachable v n]: the object [n] is [v] itself or lies under [v]
    through array items and the five walked properties only. *)
Inductive reachable : value -> value -> Prop :=
| reach_here (props : list (jsstring * value)) :
    reachable (VObject props) (VObject props)
| reach_item (items : list value) (x n : value) :
    In x items -> reachable x n -> reachable (VArray items) n
| reach_key (props : list (jsstring * value)) (key : jsstring) (n : value) :
    In key walked_keys ->
    reachable (get (VObject props) key) n ->
    reachable (VObject props) n.

(** [kept st0 st]: every variable that is set in [st0] has the same value
    in [st]. *)
Definition kept (st0 st : ProductRecord) : Prop :=
  (truthy_string (title st0) = true -> title st = title st0)
  /\ (truthy_string (imageUrl st0) = true -> imageUrl st = imageUrl st0)
  /\ (not_null (price st0) = true -> price st = price st0)
  /\ (truthy_nullable (currency st0) = true -> currency st = currency st0).

(** A price that is absent or finite. *)
Definition finite_price (st : ProductRecord) : Prop :=
  forall x, price st = Some x -> isFinite x = true.

(** The scan of a list of script texts, lines 105 to 133. *)
Definition scan_scripts (scripts : list jsstring) : stmt :=
  for_of (fun raw => try_ (script_body raw)) scripts.

(** *** The [/scrape] handler, lines 174 to 230 *)

(** [/^https?:\/\//i.test(url)].  Without the [u] flag a code unit
    outside Basic Latin never matches a Basic Latin letter, so ignoring
    case is folding [a]-[z]. *)
Definition http_url_test (url : jsstring) : bool :=
  let folded := List.map ascii_upper url in
  starts_with (str "HTTP://") folded || starts_with (str "HTTPS://") folded.

(** What the handler reads of the request: the headers [authOk] sees and
    the parsed JSON body ([undefined] when there is none). *)
Record scrape_request : Type := {
  headers : request;
  body : value
}.

(** What the browser steps of the [try] block come to for one request:
    the rendered page text of [page.content()], or the message of the
    error one of them threw. *)
Inductive rendering : Type :=
| Rendered (html : jsstring)
| Failed (message : jsstring).

(** What ended the [try] block in its [catch]. *)
Inductive failure : Type :=
| BrowserError (message : jsstring)
| EngineError (e : error).

(** The response: status and the fields of the JSON body, the elapsed
    time [ms] left out. *)
Inductive response : Type :=
| Unauthorized401                 (* { ok: false, error: "unauthorized" } *)
| InvalidUrl400                   (* { ok: false, error: "invalid url" } *)
| Ok200 (url html : jsstring) (parsed : ProductRecord)
                                  (* { ok: true, url, html, ...parsed } *)
| BadGateway502 (url : jsstring) (why : failure).
                                  (* { ok: false, url, error } *)

(** The handler of [POST /scrape].  [browser url] stands for launching
    the browser, loading [url] and reading the page; [load] is
    [cheerio.load], which like [res.json] is taken not to throw, as in
    [parseFromHtml]. *)
Definition scrape {U : UrlApi} (TOKEN : jsstring)
  (browser : jsstring -> rendering) (load : jsstring -> document)
  (req : scrape_request) : response :=
  if negb (authOk TOKEN (headers req)) then Unauthorized401
  else
    let url := get (body req) (str "url") in
    match url with
    | VString u =>
        if negb (truthy url) || negb (http_url_test u) then InvalidUrl400
        else
          match browser u with
          | Rendered html =>
              match parseFromHtml u (load html) with
              | Return parsed => Ok200 u html parsed
              | Throw e => BadGateway502 u (EngineError e)
              end
          | Failed message => BadGateway502 u (BrowserError message)
          end
    | _ => InvalidUrl400
    end.

(** A request with a JSON body [{ "url": u }] and an Authorization header. *)
Definition request_for (header : option jsstring) (u : jsstring)
  : scrape_request :=
  {| headers := {| authorization := header |};
     body := VObject [(str "url", VString u)] |}.

(** Two texts that are the same word when the case of Basic Latin
    letters is ignored. *)
Definition same_word (a b : jsstring) : Prop :=
  List.map ascii_upper a = List.map ascii_upper b.

(** [isType(n, t)] returned [true]. *)
Definition is_a (t : jsstring) (n : value) : bool :=
  match isType n t with
  | Return true => true
  | _ => false
  end.

(** Variables with a price and no currency, as a scan may find them. *)
Definition priced_only : ProductRecord :=
  {| title := str ""; imageUrl := str ""; price := Some five; currency := None |}.

(** A Product block that sets title, image, price and currency, and one
    for another product. *)
Definition lamp_payload : jsstring :=
  quoted "{'@type':'Product','name':'Lamp','image':'http://a/lamp.png','offers':{'price':'12.50','priceCurrency':'EUR'}}".

Definition lamp : value :=
  VObject
    [ (str "@type", VString (str "Product"));
      (str "name", VString (str "Lamp"));
      (str "image", VString (str "http://a/lamp.png"));
      (str "offers", VObject [ (str "price", VString (str "12.50"));
                               (str "priceCurrency", VString (str "EUR")) ]) ].

Definition chair_payload : jsstring :=
  quoted "{'@type':'Product','name':'Chair','image':'http://a/chair.png','offers':{'price':'80','priceCurrency':'USD'}}".

(** A text that begins with [http://] or [https://], the scheme in any
    mix of upper and lower case. *)
Definition http_prefixed (u : jsstring) : Prop :=
  exists scheme rest,
    u = scheme ++ str "://" ++ rest
    /\ (same_word scheme (str "http") \/ same_word scheme (str "https")).

(** A browser that fails on every address, and the loader of the empty
    page. *)
Definition no_browser : jsstring -> rendering :=
  fun _ => Failed (str "browserType.launch: Executable doesn't exist").

Definition blank_loader : jsstring -> document := fun _ => empty_page.

(** A value [String] throws on: an object with a property [toString] of
    its own, or an array that holds such a value among its items, at any
    depth. *)
Fixpoint unprintable (v : value) : bool :=
  match v with
  | VObject props => has_own props (str "toString")
  | VArray items => existsb unprintable items
  | _ => false
  end.

(** *** [flattenJsonLd] on a bounded call stack

    The source's [walk] calls itself once for each level of nesting, and
    the engine throws a RangeError when the call stack is exhausted.
    [stack] is the number of nested calls of [walk] there is room for. *)

(** [xs.forEach(f)] for an [f] that pushes nodes on [out]: what the calls
    push, in order; a throw ends the loop. *)
Fixpoint each {A : Type} (f : A -> completion (list value)) (xs : list A)
  : completion (list value) :=
  match xs with
  | [] => Return []
  | x :: rest =>
      pushed <- f x ;;
      later <- each f rest ;;
      Return (pushed ++ later)
  end.

Fixpoint walk_within (stack : nat) (node : value)
  : completion (list value) :=
  match stack with
  | O => Throw RangeError
  | S room =>
      if negb (truthy node) then Return []
      else
        match node with
        | VArray items => each (walk_within room) items
        | VObject _ =>
            below <- each (fun key =>
                             if truthy (get node key)
                             then walk_within room (get node key)
                             else Return [])
                          walked_keys ;;
            Return (node :: below)
        | _ => Return []
        end
  end.

Definition flattenJsonLd_within (stack : nat) (input : value)
  : completion (list value) :=
  walk_within stack input.

(** Arrays nested [depth] deep around an empty one. *)
Fixpoint nested (depth : nat) : value :=
  match depth with
  | O => VArray []
  | S d => VArray [nested d]
  end.


(** A payload with an offer under a Product in a list. *)
Definition listed_offer : value :=
  VArray [VNull;
          VObject [(str "offers",
                    VArray [VObject [(str "price", VString (str "5"))]])]].

(* ================================================================= *)
(** * Properties *)

(* ================================================================= *)
(** ** Strings: basic facts *)

(** *** [trim] *)


Lemma trimStart_clean_head (s : jsstring) : clean_head (trimStart s).
Proof.
  induction s as [|c r IH]; simpl; [exact I|].
  destruct (is_white_space c) eqn:E; [exact IH|]. simpl. exact E.
Qed.

Lemma trimStart_fixed (s : jsstring) : clean_head s -> trimStart s = s.
Proof. destruct s as [|c r]; simpl; [reflexivity|]. intros ->. reflexivity. Qed.

Lemma trimStart_suffix (s : jsstring) : exists w, s = w ++ trimStart s.
Proof.
  induction s as [|c r [w IH]]; simpl.
  - exists []. reflexivity.
  - destruct (is_white_space c).
    + exists (c :: w). simpl. congruence.
    + exists []. reflexivity.
Qed.

Lemma trimEnd_prefix (s : jsstring) : exists w, s = trimEnd s ++ w.
Proof.
  unfold trimEnd. destruct (trimStart_suffix (rev s)) as [w Hw].
  exists (rev w). rewrite <- rev_app_distr, <- Hw, rev_involutive. reflexivity.
Qed.

Lemma trimEnd_clean_head (s : jsstring) : clean_head s -> clean_head (trimEnd s).
Proof.
  intros H. destruct (trimEnd_prefix s) as [w Hw].
  destruct (trimEnd s) as [|c t]; [exact I|].
  rewrite Hw in H. exact H.
Qed.

Lemma trimEnd_fixed (s : jsstring) : clean_head (rev s) -> trimEnd s = s.
Proof.
  intros H. unfold trimEnd. rewrite (trimStart_fixed _ H).
  apply rev_involutive.
Qed.

Lemma trim_clean_head (s : jsstring) : clean_head (trim s).
Proof. apply trimEnd_clean_head, trimStart_clean_head. Qed.

Lemma trim_clean_last (s : jsstring) : clean_head (rev (trim s)).
Proof.
  unfold trim, trimEnd. rewrite rev_involutive. apply trimStart_clean_head.
Qed.

Lemma trim_fixed (s : jsstring) :
  clean_head s -> clean_head (rev s) -> trim s = s.
Proof.
  intros H1 H2. unfold trim. rewrite (trimStart_fixed _ H1).
  apply trimEnd_fixed, H2.
Qed.

Lemma trim_idempotent (s : jsstring) : trim (trim s) = trim s.
Proof. apply trim_fixed; [apply trim_clean_head | apply trim_clean_last]. Qed.

(** *** [pickFirst] *)

Lemma pickFirst_trimmed (vals : list (option jsstring)) :
  trim (pickFirst vals) = pickFirst vals.
Proof.
  induction vals as [|v rest IH]; simpl; [reflexivity|].
  destruct (is_empty (trim _)) eqn:E; simpl; [exact IH|].
  apply trim_idempotent.
Qed.

(** *** Searching *)

Lemma starts_with_app (w b : jsstring) : starts_with w (w ++ b) = true.
Proof.
  induction w as [|x w IH]; simpl; [reflexivity|].
  rewrite N.eqb_refl. exact IH.
Qed.

Lemma includes_starts_with (s w : jsstring) :
  starts_with w s = true -> includes s w = true.
Proof. intros H. destruct s; simpl; rewrite H; reflexivity. Qed.

Lemma includes_app (a w b : jsstring) : includes (a ++ w ++ b) w = true.
Proof.
  induction a as [|x a IH].
  - simpl. apply includes_starts_with, starts_with_app.
  - simpl. rewrite IH. apply orb_true_r.
Qed.

Lemma starts_with_split (w s : jsstring) :
  starts_with w s = true -> exists b, s = w ++ b.
Proof.
  revert s; induction w as [|x w IH]; intros s H.
  - exists s. reflexivity.
  - destruct s as [|y s]; simpl in H; [discriminate|].
    apply andb_prop in H as [H1 H2]. apply N.eqb_eq in H1. subst y.
    destruct (IH _ H2) as [b ->]. exists b. reflexivity.
Qed.

Lemma includes_split (s w : jsstring) :
  includes s w = true -> exists a b, s = a ++ w ++ b.
Proof.
  induction s as [|x s IH]; simpl; intros H.
  - rewrite orb_false_r in H. apply starts_with_split in H as [b Hb].
    exists [], b. exact Hb.
  - apply orb_prop in H as [H|H].
    + apply starts_with_split in H as [b Hb]. exists [], b. exact Hb.
    + destruct (IH H) as (a & b & ->). exists (x :: a), b. reflexivity.
Qed.

(** *** Case mapping *)

Lemma flat_map_units (f : code_unit -> jsstring) (g : code_unit -> code_unit)
  (w : jsstring) :
  (forall c, In c w -> f c = [g c]) -> flat_map f w = List.map g w.
Proof.
  induction w as [|c w IH]; simpl; intros H; [reflexivity|].
  rewrite (H c (or_introl eq_refl)). simpl. f_equal.
  apply IH. intros d Hd. apply H. right. exact Hd.
Qed.

(** A code unit that folds to an upper-case Basic Latin letter goes to
    that letter under [toUpperCase]. *)
Lemma upper_unit_of_fold (c : code_unit) :
  is_ascii_upper (ascii_upper c) = true -> upper_unit c = [ascii_upper c].
Proof.
  unfold upper_unit, ascii_upper.
  destruct (is_ascii_lower c) eqn:L; [reflexivity|].
  unfold is_ascii_upper. intros H. apply andb_prop in H as [H1 H2].
  apply N.leb_le in H1, H2.
  assert (assoc_unit c upper_special = None) as ->; [|reflexivity].
  unfold upper_special. simpl.
  repeat match goal with
  | |- context [N.eqb c ?k] =>
      let E := fresh in destruct (N.eqb_spec c k) as [E|E]; [lia|]
  end.
  reflexivity.
Qed.

Lemma toUpperCase_app (a b : jsstring) :
  toUpperCase (a ++ b) = toUpperCase a ++ toUpperCase b.
Proof. apply flat_map_app. Qed.

(** An occurrence of an upper-case word up to letter case is an
    occurrence of the word in the upper-cased text. *)
Lemma includes_toUpperCase (s word : jsstring) :
  forallb is_ascii_upper word = true ->
  includes_ignoring_case s word = true ->
  includes (toUpperCase s) word = true.
Proof.
  unfold includes_ignoring_case. intros Hw H.
  apply includes_split in H as (a & b & H).
  apply map_eq_app in H as (a' & r & -> & <- & H).
  apply map_eq_app in H as (w' & b' & -> & Hw' & <-).
  rewrite !toUpperCase_app.
  assert (toUpperCase w' = word) as ->; [|apply includes_app].
  unfold toUpperCase. rewrite <- Hw'. apply flat_map_units.
  intros c Hc. apply upper_unit_of_fold.
  rewrite forallb_forall in Hw. apply Hw. rewrite <- Hw'.
  apply in_map. exact Hc.
Qed.

(** A word found as it stands is found when letter case is ignored. *)
Lemma includes_exact_ignoring_case (s word : jsstring) :
  forallb is_ascii_upper word = true ->
  includes s word = true -> includes_ignoring_case s word = true.
Proof.
  intros Hw H. unfold includes_ignoring_case.
  apply includes_split in H as (a & b & ->).
  rewrite !map_app.
  assert (List.map ascii_upper word = word) as ->; [|apply includes_app].
  clear -Hw. induction word as [|c w IH]; simpl in *; [reflexivity|].
  apply andb_prop in Hw as [Hc Hw]. rewrite (IH Hw). f_equal.
  unfold ascii_upper, is_ascii_lower. unfold is_ascii_upper in Hc.
  apply andb_prop in Hc as [H1 H2]. apply N.leb_le in H1, H2.
  destruct (N.leb_spec 0x61 c); simpl; [lia|reflexivity].
Qed.

(* ================================================================= *)
(** ** C10: the authorization check without a token *)

(** C10. When [SCRAPER_TOKEN] is unset or empty, [authOk] answers [true]
    for every request: the answer does not depend on the Authorization
    header, and a request without the header, or with any header, passes
    (nothing is compared with an empty bearer token). *)
Theorem authOk_disabled_without_token
  (env : option jsstring) (req req' : request) :
  env = None \/ env = Some (str "") ->
  authOk (TOKEN_of env) req = true
  /\ authOk (TOKEN_of env) req = authOk (TOKEN_of env) req'.
Proof.
  intros [-> | ->]; split; reflexivity.
Qed.

Lemma authOk_disabled_without_token_witness :
  authOk (TOKEN_of None) {| authorization := Some (str "Bearer wrong") |} = true
  /\ authOk (TOKEN_of None) {| authorization := Some (str "Bearer wrong") |}
     = authOk (TOKEN_of None) {| authorization := None |}.
Proof.
  apply (authOk_disabled_without_token None
           {| authorization := Some (str "Bearer wrong") |}
           {| authorization := None |}).
  left. reflexivity.
Defined.

(* ================================================================= *)
(** ** C7: currency detection *)

Lemma extractCurrencyLoose_first_match (s : jsstring) :
  extractCurrencyLoose s = first_match currency_rules s.
Proof.
  unfold extractCurrencyLoose, first_match, currency_rules, rule_matches.
  simpl rule_word. simpl rule_sign. simpl rule_code.
  assert ((if is_empty s then str "" else s) = s) as ->
    by (destruct s; reflexivity).
  reflexivity.
Qed.

(** C7. [extractCurrencyLoose] returns the code of the first rule that
    matches, in the order EUR, USD, GBP, and nothing when none does; a
    rule matches on its word in any letter case or on its sign.  So a
    text holding EUR in any letter case or the Euro sign gives EUR
    whatever else it holds, in particular a text holding both a dollar
    sign and EUR, in either order. *)
Theorem extractCurrencyLoose_priority (s : jsstring) :
  extractCurrencyLoose s = first_match currency_rules s
  /\ (includes_ignoring_case s (str "EUR") = true \/ includes s euro_sign = true ->
      extractCurrencyLoose s = Some (str "EUR"))
  /\ (includes s (str "$") = true -> includes s (str "EUR") = true ->
      extractCurrencyLoose s = Some (str "EUR"))
  /\ (extractCurrencyLoose s = None <->
      forall r, In r currency_rules -> rule_matches s r = false).
Proof.
  assert (E : includes_ignoring_case s (str "EUR") = true
              \/ includes s euro_sign = true ->
              extractCurrencyLoose s = Some (str "EUR")).
  { intros H. unfold extractCurrencyLoose.
    assert ((if is_empty s then str "" else s) = s) as ->
      by (destruct s; reflexivity).
    destruct H as [H|H].
    - rewrite (includes_toUpperCase s (str "EUR") eq_refl H). reflexivity.
    - rewrite H, orb_true_r. reflexivity. }
  split; [apply extractCurrencyLoose_first_match|].
  split; [exact E|]. split.
  - intros _ H. apply E. left.
    apply includes_exact_ignoring_case; [reflexivity|exact H].
  - rewrite extractCurrencyLoose_first_match. unfold currency_rules.
    split.
    + intros H r Hr. simpl in H.
      destruct (rule_matches s _) eqn:M1 in H; [discriminate|].
      destruct (rule_matches s _) eqn:M2 in H; [discriminate|].
      destruct (rule_matches s _) eqn:M3 in H; [discriminate|].
      destruct Hr as [<-|[<-|[<-|[]]]]; assumption.
    + intros H. simpl.
      rewrite !H; simpl; auto.
Qed.

Lemma extractCurrencyLoose_priority_witness :
  extractCurrencyLoose (str "$19.99 (eur)") = Some (str "EUR")
  /\ extractCurrencyLoose (str "EUR 5 or $6") = Some (str "EUR")
  /\ extractCurrencyLoose (str "12 pounds") = None.
Proof.
  split; [|split].
  - destruct (extractCurrencyLoose_priority (str "$19.99 (eur)"))
      as (_ & H & _ & _).
    apply H. left. reflexivity.
  - destruct (extractCurrencyLoose_priority (str "EUR 5 or $6"))
      as (_ & _ & H & _).
    apply H; reflexivity.
  - destruct (extractCurrencyLoose_priority (str "12 pounds"))
      as (_ & _ & _ & H).
    apply H. intros r [<-|[<-|[<-|[]]]]; reflexivity.
Defined.

(* ================================================================= *)
(** ** [flattenJsonLd] through property access *)

Lemma walk_falsy (v : value) : truthy v = false -> walk v = [].
Proof.
  intros H. destruct v; simpl in *; try discriminate; rewrite ?H; reflexivity.
Qed.

Lemma walk_object (props : list (jsstring * value)) :
  let node := VObject props in
  walk node
  = node
      :: walk (get node (str "@graph"))
      ++ walk (get node (str "graph"))
      ++ walk (get node (str "mainEntity"))
      ++ walk (get node (str "itemListElement"))
      ++ walk (get node (str "offers")).
Proof.
  assert (F : forall key,
    (fix find (ps : list (jsstring * value)) : list value :=
       match ps with
       | [] => []
       | (k, v) :: rest =>
           if JsString.eqb k key
           then (if truthy v then walk v else [])
           else find rest
       end) props
    = walk (get (VObject props) key)).
  { intros key. unfold get. induction props as [|[k v] rest IH]; [reflexivity|].
    cbn [own_property]. destruct (JsString.eqb k key); [|exact IH].
    destruct (truthy v) eqn:T; [reflexivity|].
    symmetry. apply walk_falsy, T. }
  intros node. subst node.
  rewrite <- (F (str "@graph")), <- (F (str "graph")),
    <- (F (str "mainEntity")), <- (F (str "itemListElement")),
    <- (F (str "offers")).
  reflexivity.
Qed.

(* ================================================================= *)
(** ** Statements: how they end and what they preserve *)


Lemma try_quiet_of_no_break (s : stmt) :
  (forall st, snd (s st) <> Broke) -> quiet (try_ s).
Proof.
  intros H st. unfold try_. specialize (H st).
  destruct (s st) as [st' [| |e]]; simpl in *; congruence.
Qed.

Lemma for_of_no_break {A : Type} (body : A -> stmt) (xs : list A) st :
  snd (for_of body xs st) <> Broke.
Proof.
  revert st; induction xs as [|x xs IH]; intros st; simpl; [discriminate|].
  destruct (body x st) as [st' [| |e]]; simpl; [apply IH|discriminate..].
Qed.

Lemma for_of_quiet {A : Type} (body : A -> stmt) (xs : list A) :
  (forall x, quiet (body x)) -> quiet (for_of body xs).
Proof.
  intros H. induction xs as [|x xs IH]; intros st; simpl; [reflexivity|].
  specialize (H x st). destruct (body x st) as [st' sg]. simpl in H.
  subst sg. apply IH.
Qed.

Lemma script_body_no_break (raw : jsstring) st :
  snd (script_body raw st) <> Broke.
Proof.
  unfold script_body, eval.
  destruct (JSON_parse raw); [|discriminate].
  destruct (filter_isType _ _); [|discriminate].
  apply for_of_no_break.
Qed.

Lemma jsonld_pass_normal (html : document) : snd (jsonld_pass html) = Normal.
Proof.
  unfold jsonld_pass. apply for_of_quiet. intros raw.
  apply try_quiet_of_no_break. intros st. apply script_body_no_break.
Qed.

(** A property of the variables kept by every statement of a list is
    kept by the list, however it ends. *)
Section Preservation.

Variable P : ProductRecord -> Prop.


Lemma preserves_skip : preserves P skip.
Proof. intros st H. exact H. Qed.

Lemma preserves_break : preserves P break.
Proof. intros st H. exact H. Qed.

Lemma preserves_seq (s1 s2 : stmt) :
  preserves P s1 -> preserves P s2 -> preserves P (s1 ;;; s2).
Proof.
  intros H1 H2 st H. unfold seq. specialize (H1 st H).
  destruct (s1 st) as [st' [| |e]]; simpl in *; auto.
Qed.

Lemma preserves_when (cond : ProductRecord -> bool) (s : stmt) :
  preserves P s -> preserves P (when cond s).
Proof.
  intros Hs st H. unfold when. destruct (cond st); [apply Hs, H|exact H].
Qed.

Lemma preserves_when_cond (cond : ProductRecord -> bool) (s : stmt) :
  (forall st, cond st = true -> P st -> P (fst (s st))) ->
  preserves P (when cond s).
Proof.
  intros Hs st H. unfold when. destruct (cond st) eqn:E; [apply Hs; auto|exact H].
Qed.

Lemma preserves_eval {A : Type} (c : completion A) (k : A -> stmt) :
  (forall a, c = Return a -> preserves P (k a)) -> preserves P (eval c k).
Proof.
  intros Hk st H. unfold eval. destruct c as [a|e]; [|exact H].
  apply (Hk a eq_refl), H.
Qed.

Lemma preserves_try (s : stmt) : preserves P s -> preserves P (try_ s).
Proof.
  intros Hs st H. unfold try_. specialize (Hs st H).
  destruct (s st) as [st' [| |e]]; exact Hs.
Qed.

Lemma preserves_for_of {A : Type} (body : A -> stmt) (xs : list A) :
  (forall x, preserves P (body x)) -> preserves P (for_of body xs).
Proof.
  intros Hb. induction xs as [|x xs IH]; intros st H; simpl; [exact H|].
  specialize (Hb x st H).
  destruct (body x st) as [st' [| |e]]; simpl in *; auto.
Qed.

End Preservation.


Lemma tidy_no_product : tidy no_product.
Proof. split; [reflexivity|]. intros c H. discriminate. Qed.

Lemma candidate_body_tidy (n : value) : preserves tidy (candidate_body n).
Proof.
  unfold candidate_body. repeat apply preserves_seq.
  - apply preserves_when, preserves_eval. intros s _ st [H1 H2].
    split; [apply trim_idempotent|exact H2].
  - apply preserves_when, preserves_seq.
    + destruct (get n (str "image")); intros st H; exact H.
    + destruct (get n (str "image")); try (intros st H; exact H).
      destruct (first_item items); intros st H; exact H.
  - apply preserves_when, preserves_eval. intros p _.
    apply preserves_seq.
    + intros st H. exact H.
    + apply preserves_eval. intros cur _.
      apply preserves_when_cond. intros st Hc [H1 H2].
      apply andb_prop in Hc as [_ Hc].
      split; [exact H1|]. simpl. intros c [= ->]. exact Hc.
  - apply preserves_when, preserves_break.
Qed.

Lemma script_body_tidy (raw : jsstring) : preserves tidy (script_body raw).
Proof.
  unfold script_body. apply preserves_eval. intros json _.
  apply preserves_eval. intros products _.
  apply preserves_for_of, candidate_body_tidy.
Qed.

Lemma jsonld_pass_tidy (html : document) : tidy (fst (jsonld_pass html)).
Proof.
  unfold jsonld_pass. apply preserves_for_of; [|apply tidy_no_product].
  intros raw. apply preserves_try, script_body_tidy.
Qed.

(* ================================================================= *)
(** ** The price of a string never throws *)

Lemma toNumberOrNull_string (s : jsstring) :
  exists p, toNumberOrNull (VString s) = Return p.
Proof.
  unfold toNumberOrNull. simpl nullish. cbv iota. simpl ToString.
  unfold bind.
  destruct (is_empty (trim s)); [eexists; reflexivity|].
  destruct (is_empty _); eexists; reflexivity.
Qed.

Lemma merge_returns (U : UrlApi) (url : jsstring) (st : ProductRecord)
  (ogTitle ogImage metaPrice metaCurrency : jsstring) :
  exists r, merge url st ogTitle ogImage metaPrice metaCurrency = Return r.
Proof.
  unfold merge. destruct (not_null (price st)).
  - eexists. reflexivity.
  - destruct (toNumberOrNull_string metaPrice) as [p ->].
    eexists. reflexivity.
Qed.

Lemma parseFromHtml_merge (U : UrlApi) (url : jsstring) (html : document) :
  parseFromHtml url html =
  merge url (fst (jsonld_pass html)) (ogTitle_of html) (ogImage_of html)
        (metaPrice_of html) (metaCurrency_of html).
Proof.
  unfold parseFromHtml. pose proof (jsonld_pass_normal html) as H.
  destruct (jsonld_pass html) as [st sg]. simpl in *. subst sg. reflexivity.
Qed.

(* ================================================================= *)
(** ** The fields of the returned record *)

Lemma or_else_some (c : jsstring) (b : option jsstring) :
  truthy_string c = true -> or_else (Some c) b = Some c.
Proof. intros H. unfold or_else. simpl. rewrite H. reflexivity. Qed.

Lemma merge_fields (U : UrlApi) (url : jsstring) (st : ProductRecord)
  (ogTitle ogImage metaPrice metaCurrency : jsstring) :
  tidy st -> trim ogTitle = ogTitle -> trim metaCurrency = metaCurrency ->
  exists r,
    merge url st ogTitle ogImage metaPrice metaCurrency = Return r
    /\ title r = (if is_empty (title st) then ogTitle else title st)
    /\ match price st with
       | Some p => price r = Some p
       | None => toNumberOrNull (VString metaPrice) = Return (price r)
       end
    /\ currency r =
       match currency st with
       | Some c => Some c
       | None =>
           if is_empty metaCurrency then extractCurrencyLoose metaPrice
           else Some (trim metaCurrency)
       end.
Proof.
  intros [Ht Hc] Hog Hmc. unfold merge.
  assert (Hcur :
    or_else
      (or_else (currency st)
         (if truthy_string metaCurrency then Some (trim metaCurrency) else None))
      (extractCurrencyLoose (if truthy_string metaPrice then metaPrice else str ""))
    = match currency st with
      | Some c => Some c
      | None =>
          if is_empty metaCurrency then extractCurrencyLoose metaPrice
          else Some (trim metaCurrency)
      end).
  { assert ((if truthy_string metaPrice then metaPrice else str "") = metaPrice)
      as -> by (destruct metaPrice; reflexivity).
    destruct (currency st) as [c|] eqn:E.
    - rewrite (or_else_some c _ (Hc c eq_refl)).
      apply or_else_some, Hc. reflexivity.
    - unfold or_else at 2. simpl truthy_nullable. cbv iota.
      unfold truthy_string at 1. rewrite Hmc.
      destruct metaCurrency as [|x m]; simpl negb; cbv iota.
      + unfold or_else. reflexivity.
      + apply or_else_some. reflexivity. }
  destruct (price st) as [p|] eqn:Ep; simpl not_null; cbv iota.
  - eexists. split; [reflexivity|]. simpl.
    split; [|split; [reflexivity|exact Hcur]].
    rewrite Ht, Hog. destruct (is_empty (title st)) eqn:E; simpl.
    + destruct ogTitle; reflexivity.
    + reflexivity.
  - destruct (toNumberOrNull_string metaPrice) as [p Hp]. rewrite Hp.
    eexists. split; [reflexivity|]. simpl.
    split; [|split; [reflexivity|exact Hcur]].
    rewrite Ht, Hog. destruct (is_empty (title st)) eqn:E; simpl.
    + destruct ogTitle; reflexivity.
    + reflexivity.
Qed.

Lemma parseFromHtml_fields (U : UrlApi) (url : jsstring) (html : document) :
  exists r,
    parseFromHtml url html = Return r
    /\ title r = (if is_empty (title (fst (jsonld_pass html)))
                  then ogTitle_of html else title (fst (jsonld_pass html)))
    /\ match price (fst (jsonld_pass html)) with
       | Some p => price r = Some p
       | None => toNumberOrNull (VString (metaPrice_of html)) = Return (price r)
       end
    /\ currency r =
       match currency (fst (jsonld_pass html)) with
       | Some c => Some c
       | None =>
           if is_empty (metaCurrency_of html)
           then extractCurrencyLoose (metaPrice_of html)
           else Some (trim (metaCurrency_of html))
       end.
Proof.
  rewrite parseFromHtml_merge.
  apply merge_fields.
  - apply jsonld_pass_tidy.
  - apply pickFirst_trimmed.
  - apply pickFirst_trimmed.
Qed.

(* ================================================================= *)
(** ** C5: no error escapes *)

Lemma try_script_body_malformed (raw : jsstring) st :
  returns (JSON_parse raw) = false -> try_ (script_body raw) st = (st, Normal).
Proof.
  unfold try_, script_body, eval. destruct (JSON_parse raw); [discriminate|].
  reflexivity.
Qed.

Lemma scan_skips_malformed (els : selection) st :
  for_of (fun raw => try_ (script_body raw))
         (List.map (fun el => text [el]) (filter well_formed els)) st
  = for_of (fun raw => try_ (script_body raw))
           (List.map (fun el => text [el]) els) st.
Proof.
  revert st; induction els as [|el els IH]; intros st; [reflexivity|].
  simpl filter. unfold well_formed at 1.
  destruct (returns (JSON_parse (text [el]))) eqn:E.
  - simpl. destruct (try_ _ st) as [st' [| |e]]; [apply IH|reflexivity..].
  - rewrite IH. simpl.
    rewrite (try_script_body_malformed _ st E). reflexivity.
Qed.

Lemma jsonld_pass_without_malformed (html : document) :
  jsonld_pass (without_malformed html) = jsonld_pass html.
Proof.
  unfold jsonld_pass, scripts_of. apply scan_skips_malformed.
Qed.

(** *** What a script that parses contributes

    A variable that is set is kept by every later statement, candidate
    and script. *)

Lemma kept_refl (st : ProductRecord) : kept st st.
Proof. repeat split. Qed.

Lemma title_statement_kept (st0 : ProductRecord) (n : value) :
  preserves (kept st0) (title_statement n).
Proof.
  unfold title_statement. apply preserves_when_cond.
  intros st Hc (K1 & K2 & K3 & K4). apply andb_prop in Hc as [Hc _].
  unfold eval, assign. destruct (ToString _) as [s|e]; simpl;
    [|repeat split; assumption].
  repeat split; try assumption. simpl. intros H.
  rewrite <- (K1 H) in H. rewrite H in Hc. discriminate.
Qed.

Lemma image_statement_kept (st0 : ProductRecord) (n : value) :
  preserves (kept st0) (image_statement n).
Proof.
  unfold image_statement. apply preserves_when_cond.
  intros st Hc (K1 & K2 & K3 & K4).
  assert (G : forall s, kept st0 (set_imageUrl s st)).
  { intros s. repeat split; try assumption. simpl. intros H.
    rewrite <- (K2 H) in H. rewrite H in Hc. discriminate. }
  unfold seq, assign, skip.
  destruct (get n (str "image")); simpl;
    try (repeat split; assumption); try apply G.
  destruct (first_item items); simpl;
    try (repeat split; assumption); apply G.
Qed.

Lemma offer_statement_kept (st0 : ProductRecord) (n : value) :
  preserves (kept st0) (offer_statement n).
Proof.
  unfold offer_statement. apply preserves_when_cond.
  intros st Hc (K1 & K2 & K3 & K4). apply andb_prop in Hc as [Hc _].
  assert (Hp : not_null (price st0) = true -> False).
  { intros H. unfold is_null in Hc. rewrite <- (K3 H) in H.
    rewrite H in Hc. discriminate. }
  unfold eval, seq, assign, when.
  destruct (toNumberOrNull _) as [p|e]; simpl; [|repeat split; assumption].
  destruct (if truthy _ then _ else _) as [cur|e]; simpl.
  - destruct (negb (truthy_nullable (currency st)) && truthy_nullable cur)
      eqn:G; simpl.
    + repeat split; simpl; try assumption.
      * intros H. destruct (Hp H).
      * intros H. apply andb_prop in G as [G _].
        rewrite <- (K4 H) in H. rewrite H in G. discriminate.
    + repeat split; simpl; try assumption. intros H. destruct (Hp H).
  - repeat split; simpl; try assumption. intros H. destruct (Hp H).
Qed.

Lemma candidate_body_kept (st0 : ProductRecord) (n : value) :
  preserves (kept st0) (candidate_body n).
Proof.
  unfold candidate_body. repeat apply preserves_seq.
  - apply title_statement_kept.
  - apply image_statement_kept.
  - apply offer_statement_kept.
  - apply preserves_when, preserves_break.
Qed.

Lemma script_body_preserves (P : ProductRecord -> Prop) (raw : jsstring) :
  (forall n, preserves P (candidate_body n)) -> preserves P (script_body raw).
Proof.
  intros H. unfold script_body. apply preserves_eval. intros json _.
  apply preserves_eval. intros products _. apply preserves_for_of, H.
Qed.

Lemma scan_scripts_preserves (P : ProductRecord -> Prop)
  (scripts : list jsstring) :
  (forall n, preserves P (candidate_body n)) ->
  preserves P (scan_scripts scripts).
Proof.
  intros H. unfold scan_scripts. apply preserves_for_of. intros raw.
  apply preserves_try, script_body_preserves, H.
Qed.

(** Scripts that are not JSON, at the head of the list, leave the
    variables as they were. *)
Lemma scan_malformed_prefix (bad : selection) (texts : list jsstring)
  (st : ProductRecord) :
  (forall el, In el bad -> well_formed el = false) ->
  scan_scripts (List.map (fun el => text [el]) bad ++ texts) st
  = scan_scripts texts st.
Proof.
  unfold scan_scripts. induction bad as [|el bad IH]; intros H; [reflexivity|].
  cbn [List.map app for_of].
  rewrite (try_script_body_malformed (text [el]) st).
  - apply IH. intros el' Hin. apply H. right. exact Hin.
  - apply (H el). left. reflexivity.
Qed.

(** A script that parses is read: its candidates are scanned. *)
Lemma try_script_body_read (raw : jsstring) (cands : list value)
  (st : ProductRecord) :
  candidates_of raw = Return cands ->
  try_ (script_body raw) st = (fst (for_of candidate_body cands st), Normal).
Proof.
  intros H. pose proof (script_body_no_break raw st) as B. revert H B.
  unfold try_, script_body, candidates_of, eval, bind.
  destruct (JSON_parse raw) as [json|e]; [|discriminate].
  destruct (filter_isType _ _) as [products|e]; [|discriminate].
  intros [= <-].
  destruct (for_of candidate_body _ st) as [st' [| |e]]; simpl; intros B;
    [reflexivity|congruence|reflexivity].
Qed.

Lemma jsonld_pass_after_malformed (html : document) (bad : selection)
  (good : element) (rest : selection) (cands : list value) :
  html ld_json = bad ++ good :: rest ->
  (forall el, In el bad -> well_formed el = false) ->
  candidates_of (text [good]) = Return cands ->
  jsonld_pass html
  = scan_scripts (List.map (fun el => text [el]) rest)
                 (fst (for_of candidate_body cands no_product)).
Proof.
  intros E Hbad Hc. unfold jsonld_pass, scripts_of. rewrite E, map_app.
  fold (scan_scripts (List.map (fun el => text [el]) bad
                      ++ List.map (fun el => text [el]) (good :: rest))
                     no_product).
  rewrite (scan_malformed_prefix bad _ no_product Hbad).
  unfold scan_scripts. cbn [List.map for_of].
  rewrite (try_script_body_read _ _ no_product Hc). reflexivity.
Qed.

(** The first candidate with a name gives the title, whatever follows. *)
Lemma first_candidate_title (n : value) (cands : list value) (nm : jsstring) :
  get n (str "name") = VString nm -> is_empty (trim nm) = false ->
  kept (set_title (trim nm) no_product)
       (fst (for_of candidate_body (n :: cands) no_product)).
Proof.
  intros Hn Ht.
  assert (T : title_statement n no_product
              = (set_title (trim nm) no_product, Normal)).
  { unfold title_statement, when, eval, assign. rewrite Hn.
    destruct nm as [|c nm]; [discriminate Ht|]. reflexivity. }
  cbn [for_of]. unfold candidate_body, seq at 1. rewrite T.
  set (s1 := set_title (trim nm) no_product).
  assert (K : preserves (kept s1)
                (image_statement n ;;; offer_statement n ;;; break_statement)).
  { repeat apply preserves_seq.
    - apply image_statement_kept.
    - apply offer_statement_kept.
    - apply preserves_when, preserves_break. }
  specialize (K s1 (kept_refl s1)).
  destruct ((image_statement n ;;; offer_statement n ;;; break_statement) s1)
    as [st' [| |e]]; simpl in K |- *; try exact K.
  apply preserves_for_of; [|exact K]. intros m. apply candidate_body_kept.
Qed.

Lemma jsonld_pass_all_malformed (html : document) :
  (forall el, In el (html ld_json) -> well_formed el = false) ->
  jsonld_pass html = (no_product, Normal).
Proof.
  intros H. unfold jsonld_pass, scripts_of.
  rewrite <- (app_nil_r (List.map _ (html ld_json))).
  apply (scan_malformed_prefix (html ld_json) [] no_product H).
Qed.

(** C5. For every page and base URL [parseFromHtml] returns a record and
    throws nothing.  A script whose text is not JSON is skipped: the
    result is the one of the page without its malformed scripts, and a
    script that parses, once its candidates are computed, is read
    whatever malformed scripts stand before it: the scan goes on from
    what its candidates set, and when its first candidate has a name
    that name, trimmed, is the title of the record.  Missing fields degrade: when no script parses the record is
    made of the meta tags alone, and a page that offers nothing gives
    the record of empty and absent fields. *)
Theorem parseFromHtml_never_throws (U : UrlApi) (url : jsstring)
  (html : document) :
  (exists r, parseFromHtml url html = Return r)
  /\ parseFromHtml url html = parseFromHtml url (without_malformed html)
  /\ (forall bad good rest cands,
        html ld_json = bad ++ good :: rest ->
        (forall el, In el bad -> well_formed el = false) ->
        candidates_of (text [good]) = Return cands ->
        parseFromHtml url html
        = merge url
            (fst (scan_scripts (List.map (fun el => text [el]) rest)
                    (fst (for_of candidate_body cands no_product))))
            (ogTitle_of html) (ogImage_of html)
            (metaPrice_of html) (metaCurrency_of html))
  /\ (forall bad good rest n cands nm,
        html ld_json = bad ++ good :: rest ->
        (forall el, In el bad -> well_formed el = false) ->
        candidates_of (text [good]) = Return (n :: cands) ->
        get n (str "name") = VString nm ->
        is_empty (trim nm) = false ->
        exists r, parseFromHtml url html = Return r /\ title r = trim nm)
  /\ ((forall el, In el (html ld_json) -> well_formed el = false) ->
      parseFromHtml url html
      = merge url no_product (ogTitle_of html) (ogImage_of html)
              (metaPrice_of html) (metaCurrency_of html))
  /\ parseFromHtml url empty_page = Return no_product.
Proof.
  split; [|split; [|split; [|split; [|split]]]].
  - rewrite parseFromHtml_merge. apply merge_returns.
  - rewrite !parseFromHtml_merge, jsonld_pass_without_malformed.
    reflexivity.
  - intros bad good rest cands E Hbad Hc.
    rewrite parseFromHtml_merge,
      (jsonld_pass_after_malformed html bad good rest cands E Hbad Hc).
    reflexivity.
  - intros bad good rest n cands nm E Hbad Hc Hn Ht.
    destruct (parseFromHtml_fields U url html) as (r & Hr & Htitle & _).
    exists r. split; [exact Hr|]. rewrite Htitle.
    rewrite (jsonld_pass_after_malformed html bad good rest _ E Hbad Hc).
    assert (K : kept (set_title (trim nm) no_product)
                  (fst (scan_scripts (List.map (fun el => text [el]) rest)
                          (fst (for_of candidate_body (n :: cands) no_product))))).
    { apply scan_scripts_preserves; [intros m; apply candidate_body_kept|].
      apply (first_candidate_title n cands nm Hn Ht). }
    destruct K as (K & _). cbn [set_title title] in K.
    unfold truthy_string in K. rewrite Ht in K. rewrite (K eq_refl), Ht.
    reflexivity.
  - intros H. rewrite parseFromHtml_merge, (jsonld_pass_all_malformed html H).
    reflexivity.
  - reflexivity.
Qed.

Lemma parseFromHtml_never_throws_witness :
  exists r,
    parseFromHtml (U := UrlReference.reference) shop_url broken_then_widget_page
    = Return r
    /\ title r = str "Widget".
Proof.
  destruct (parseFromHtml_never_throws UrlReference.reference shop_url
              broken_then_widget_page) as (_ & _ & _ & H & _).
  apply (H [script_tag (str "{oops")] (script_tag widget_payload) []
           widget [] (str "Widget")).
  - reflexivity.
  - intros el [E|[]]. subst el. vm_compute. reflexivity.
  - vm_compute. reflexivity.
  - reflexivity.
  - reflexivity.
Defined.

(* ================================================================= *)
(** ** C6: the merge step *)

(** C6. In the record [parseFromHtml] returns, the title is the
    structured title when it is not empty and else the heuristic title;
    the price is the structured price when there is one and else what
    [toNumberOrNull] makes of the heuristic price string; the currency is
    the structured currency when there is one, else the trimmed heuristic
    currency string when it is not empty, else what
    [extractCurrencyLoose] finds in the heuristic price string. *)
Theorem merge_precedence (U : UrlApi) (url : jsstring) (html : document) :
  let st := fst (jsonld_pass html) in
  exists r,
    parseFromHtml url html = Return r
    /\ title r = (if is_empty (title st) then ogTitle_of html else title st)
    /\ match price st with
       | Some p => price r = Some p
       | None => toNumberOrNull (VString (metaPrice_of html)) = Return (price r)
       end
    /\ currency r =
       match currency st with
       | Some c => Some c
       | None =>
           if is_empty (metaCurrency_of html)
           then extractCurrencyLoose (metaPrice_of html)
           else Some (trim (metaCurrency_of html))
       end.
Proof. intros st. apply parseFromHtml_fields. Qed.

(* ================================================================= *)
(** ** C4: the shape of the currency field *)

Lemma extractCurrencyLoose_three_codes (s c : jsstring) :
  extractCurrencyLoose s = Some c ->
  c = str "EUR" \/ c = str "USD" \/ c = str "GBP".
Proof.
  unfold extractCurrencyLoose.
  repeat match goal with
  | |- context [if ?b then _ else _] => destruct b
  end; intros H; inversion H; auto.
Qed.

(** C4, as the code has it. The currency of a returned record is absent
    or a non-empty string, taken from the first source that has one: the
    currency text of the structured data as it stands, else the trimmed
    currency text of the meta tags when it is not empty, else what
    [extractCurrencyLoose] finds in the price text of the meta tags.
    Only the last source is one of the codes EUR, USD and GBP by
    construction; the first two are passed on unchecked. *)
Theorem currency_field_shape (U : UrlApi) (url : jsstring) (html : document) :
  exists r,
    parseFromHtml url html = Return r
    /\ currency r =
       match currency (fst (jsonld_pass html)) with
       | Some c => Some c
       | None =>
           if is_empty (metaCurrency_of html)
           then extractCurrencyLoose (metaPrice_of html)
           else Some (metaCurrency_of html)
       end
    /\ trim (metaCurrency_of html) = metaCurrency_of html
    /\ (forall c, currency r = Some c -> is_empty c = false)
    /\ (forall c, currency (fst (jsonld_pass html)) = None ->
                  is_empty (metaCurrency_of html) = true ->
                  currency r = Some c ->
                  c = str "EUR" \/ c = str "USD" \/ c = str "GBP").
Proof.
  destruct (parseFromHtml_fields U url html) as (r & Hr & _ & _ & Hc).
  assert (T : trim (metaCurrency_of html) = metaCurrency_of html)
    by apply pickFirst_trimmed.
  rewrite T in Hc.
  exists r. split; [exact Hr|]. split; [exact Hc|]. split; [exact T|].
  pose proof (jsonld_pass_tidy html) as [_ Ht].
  split.
  - intros c. rewrite Hc.
    destruct (currency (fst (jsonld_pass html))) as [c0|] eqn:E.
    + intros [= <-]. specialize (Ht c0 eq_refl).
      unfold truthy_string in Ht. destruct (is_empty c0); [discriminate|].
      reflexivity.
    + destruct (is_empty (metaCurrency_of html)) eqn:Em.
      * intros Ex. apply extractCurrencyLoose_three_codes in Ex.
        destruct Ex as [ -> | [ -> | -> ] ]; reflexivity.
      * intros [= <-]. exact Em.
  - intros c E Em. rewrite Hc, E, Em.
    apply extractCurrencyLoose_three_codes.
Qed.

Lemma currency_field_shape_witness :
  exists r,
    parseFromHtml (U := UrlReference.reference) shop_url euro_page = Return r
    /\ currency r = Some (str "Euro").
Proof.
  destruct (currency_field_shape UrlReference.reference shop_url euro_page)
    as (r & Hr & Hc & _).
  exists r. split; [exact Hr|]. rewrite Hc. reflexivity.
Defined.

(** C4, as the specification words it, fails: a meta currency tag that
    reads [Euro] is returned as the currency, and is no three-letter
    code. *)
Lemma currency_not_always_a_code :
  parseFromHtml (U := UrlReference.reference) shop_url euro_page
  = Return {| title := str ""; imageUrl := str "";
              price := None; currency := Some (str "Euro") |}
  /\ is_currency_code (str "Euro") = false.
Proof. split; reflexivity. Qed.

(* ================================================================= *)
(** ** C3: the Product block of the specification *)

Lemma pickFirst_head (a : jsstring) (rest : list (option jsstring)) :
  trim a = a -> is_empty a = false -> pickFirst (Some a :: rest) = a.
Proof. intros Ht He. simpl. rewrite Ht, He. reflexivity. Qed.

Lemma absUrl_resolved (U : UrlApi) (base maybe out : jsstring) :
  is_empty maybe = false -> URL_href maybe base = Return out ->
  absUrl base maybe = out.
Proof. intros He H. unfold absUrl. rewrite He, H. reflexivity. Qed.

Lemma script_body_widget (raw : jsstring) :
  JSON_parse raw = Return widget ->
  try_ (script_body raw) no_product
  = ({| title := str "Widget"; imageUrl := str "http://a/x.jpg";
        price := Some (of_decimal false 1999 (-2));
        currency := Some (str "EUR") |}, Normal).
Proof.
  intros H. unfold try_, script_body, eval. rewrite H.
  vm_compute. reflexivity.
Qed.

(** C3. A page whose one JSON-LD script reads as the Product named
    Widget, with the two images and the offer of price ["19,99"] in EUR,
    gives exactly the title [Widget], the first image, the price 19.99
    and the currency EUR, whatever else the page holds, on a base URL
    against which the (absolute) image URL resolves to itself. *)
Theorem widget_record (U : UrlApi) (url : jsstring) (html : document)
  (raw : jsstring) :
  scripts_of html = [raw] ->
  JSON_parse raw = Return widget ->
  URL_href (str "http://a/x.jpg") url = Return (str "http://a/x.jpg") ->
  parseFromHtml url html
  = Return {| title := str "Widget";
              imageUrl := str "http://a/x.jpg";
              price := Some (of_decimal false 1999 (-2));
              currency := Some (str "EUR") |}.
Proof.
  intros Hs Hp Hu. rewrite parseFromHtml_merge.
  unfold jsonld_pass. rewrite Hs. simpl for_of.
  rewrite (script_body_widget raw Hp). simpl fst.
  unfold merge. simpl title. simpl imageUrl. simpl price. simpl currency.
  rewrite !pickFirst_head by reflexivity.
  rewrite (absUrl_resolved U url (str "http://a/x.jpg") _ eq_refl Hu).
  simpl not_null. cbv iota. unfold bind.
  rewrite or_else_some by reflexivity.
  rewrite or_else_some by reflexivity.
  reflexivity.
Qed.

Lemma widget_record_witness :
  parseFromHtml (U := UrlReference.reference) shop_url widget_page
  = Return {| title := str "Widget";
              imageUrl := str "http://a/x.jpg";
              price := Some (of_decimal false 1999 (-2));
              currency := Some (str "EUR") |}.
Proof.
  apply (widget_record UrlReference.reference shop_url widget_page
           widget_payload).
  - reflexivity.
  - vm_compute. reflexivity.
  - vm_compute. reflexivity.
Defined.

(* ================================================================= *)
(** ** C8: the Open Graph fallback and URL resolution *)

Lemma absUrl_cases (U : UrlApi) (base maybe : jsstring) :
  (maybe = [] -> absUrl base maybe = str "")
  /\ (forall e, URL_href maybe base = Throw e -> absUrl base maybe = str "")
  /\ (forall out, maybe <> [] -> URL_href maybe base = Return out ->
      absUrl base maybe = out).
Proof.
  unfold absUrl. split; [|split].
  - intros ->. reflexivity.
  - intros e H. rewrite H. destruct (is_empty maybe); reflexivity.
  - intros out Hne H. rewrite H.
    destruct maybe; [congruence|reflexivity].
Qed.

Lemma jsonld_pass_no_scripts (html : document) :
  html ld_json = [] -> jsonld_pass html = (no_product, Normal).
Proof. intros H. unfold jsonld_pass, scripts_of. rewrite H. reflexivity. Qed.

(** C8, as the code has it. On a page without JSON-LD scripts whose
    first Open Graph title tag reads [Cool Shoes] and whose first Open
    Graph image tag reads [/img/shoe.png], with the base URL
    [https://shop.example/p/1] against which the URL parser resolves that
    path to [https://shop.example/img/shoe.png], the record has that
    title and that image URL.  In general the image URL of a record is
    [absUrl] of the base URL and the chosen reference, and [absUrl] is
    the empty string for an empty reference and for one the URL parser
    rejects, and otherwise exactly the serialisation the URL parser
    returns for the reference against the base (so an absolute reference
    comes back in the parser's normal form). *)
Theorem og_fallback_and_resolution (U : UrlApi) (url : jsstring)
  (html : document) (maybe : jsstring) :
  (html ld_json = [] ->
   attr (html (meta_property (str "og:title"))) content
     = Some (str "Cool Shoes") ->
   attr (html (meta_property (str "og:image"))) content
     = Some (str "/img/shoe.png") ->
   URL_href (str "/img/shoe.png") shop_url
     = Return (str "https://shop.example/img/shoe.png") ->
   exists r,
     parseFromHtml shop_url html = Return r
     /\ title r = str "Cool Shoes"
     /\ imageUrl r = str "https://shop.example/img/shoe.png")
  /\ (exists r,
        parseFromHtml url html = Return r
        /\ imageUrl r
           = absUrl url (pickFirst [Some (imageUrl (fst (jsonld_pass html)));
                                    Some (ogImage_of html)]))
  /\ (maybe = [] -> absUrl url maybe = str "")
  /\ (forall e, URL_href maybe url = Throw e -> absUrl url maybe = str "")
  /\ (forall out, maybe <> [] -> URL_href maybe url = Return out ->
      absUrl url maybe = out).
Proof.
  split; [|split; [|apply absUrl_cases]].
  - intros Hs Ht Hi Hu. rewrite parseFromHtml_merge.
    rewrite (jsonld_pass_no_scripts html Hs). simpl fst.
    destruct (merge_returns U shop_url no_product (ogTitle_of html)
                (ogImage_of html) (metaPrice_of html) (metaCurrency_of html))
      as [r Hr].
    exists r. split; [exact Hr|].
    unfold merge in Hr.
    destruct (toNumberOrNull_string (metaPrice_of html)) as [p Hp].
    simpl not_null in Hr. cbv iota in Hr. rewrite Hp in Hr.
    unfold bind in Hr. injection Hr as <-. simpl title. simpl imageUrl.
    assert (Et : ogTitle_of html = str "Cool Shoes").
    { unfold ogTitle_of. rewrite Ht. apply pickFirst_head; reflexivity. }
    assert (Ei : ogImage_of html = str "/img/shoe.png").
    { unfold ogImage_of. rewrite Hi. apply pickFirst_head; reflexivity. }
    rewrite Et, Ei. split; [reflexivity|].
    apply absUrl_resolved; [reflexivity|exact Hu].
  - rewrite parseFromHtml_merge.
    destruct (merge_returns U url (fst (jsonld_pass html)) (ogTitle_of html)
                (ogImage_of html) (metaPrice_of html) (metaCurrency_of html))
      as [r Hr].
    exists r. split; [exact Hr|].
    unfold merge in Hr.
    destruct (not_null (price (fst (jsonld_pass html)))).
    + injection Hr as <-. reflexivity.
    + destruct (toNumberOrNull_string (metaPrice_of html)) as [p Hp].
      rewrite Hp in Hr. unfold bind in Hr. injection Hr as <-. reflexivity.
Qed.

Lemma og_fallback_and_resolution_witness :
  exists r,
    parseFromHtml (U := UrlReference.reference) shop_url shoes_page = Return r
    /\ title r = str "Cool Shoes"
    /\ imageUrl r = str "https://shop.example/img/shoe.png".
Proof.
  destruct (og_fallback_and_resolution UrlReference.reference shop_url
              shoes_page (str "/img/shoe.png")) as [H _].
  apply H; vm_compute; reflexivity.
Defined.

(** C8, as the specification words it, fails for an absolute reference
    that is not in the URL parser's normal form: scheme and host come
    back in lower case. *)
Lemma absolute_reference_is_normalised :
  (exists r,
     parseFromHtml (U := UrlReference.reference) shop_url capitals_page
       = Return r
     /\ imageUrl r = str "https://shop.example/img/shoe.png")
  /\ ogImage_of capitals_page = capitals_reference
  /\ str "https://shop.example/img/shoe.png" <> capitals_reference.
Proof.
  split; [|split].
  - eexists. split; vm_compute; reflexivity.
  - vm_compute. reflexivity.
  - vm_compute. discriminate.
Qed.

(* ================================================================= *)
(** ** C1: when the scan stops, and when a currency is taken *)

(** The title and image statements leave price and currency alone and
    do not break. *)
Lemma title_statement_spec (n : value) (st : ProductRecord) :
  price (fst (title_statement n st)) = price st
  /\ currency (fst (title_statement n st)) = currency st
  /\ snd (title_statement n st) <> Broke.
Proof.
  unfold title_statement, when, eval, assign.
  destruct (_ && _); [|repeat split; discriminate].
  destruct (ToString _); repeat split; discriminate.
Qed.

Lemma image_statement_spec (n : value) (st : ProductRecord) :
  price (fst (image_statement n st)) = price st
  /\ currency (fst (image_statement n st)) = currency st
  /\ snd (image_statement n st) = Normal.
Proof.
  unfold image_statement, when, seq, assign, skip.
  destruct (negb _); [|repeat split].
  destruct (get n (str "image")); try (repeat split; fail).
  destruct (first_item items); repeat split.
Qed.

(** The offer statement: skipped once a price is set; it never replaces
    a currency; and on a candidate reached without price nor currency,
    whose offer carries a non-empty currency text, it takes that text
    unless a conversion throws. *)
Lemma offer_statement_spec (n : value) (st : ProductRecord) :
  snd (offer_statement n st) <> Broke
  /\ (not_null (price st) = true -> offer_statement n st = (st, Normal))
  /\ (truthy_nullable (currency st) = true ->
      currency (fst (offer_statement n st)) = currency st)
  /\ (forall c,
        snd (offer_statement n st) = Normal ->
        price st = None ->
        truthy (first_offer (get n (str "offers"))) = true ->
        truthy_nullable (currency st) = false ->
        offer_currency n = VString c -> c <> [] ->
        currency (fst (offer_statement n st)) = Some c).
Proof.
  unfold offer_statement, offer_currency, when, eval, seq, assign.
  split; [|split; [|split]].
  - destruct (_ && _); [|discriminate].
    destruct (toNumberOrNull _); [|discriminate]. simpl.
    destruct (if truthy _ then _ else _); [|discriminate].
    destruct (_ && _); discriminate.
  - intros H. unfold is_null. rewrite H. reflexivity.
  - intros H. destruct (_ && _); [|reflexivity].
    destruct (toNumberOrNull _); [|reflexivity]. simpl.
    destruct (if truthy _ then _ else _); [|reflexivity].
    rewrite H. reflexivity.
  - intros c Hn Hp Ho Hc Hcur Hne.
    unfold is_null in *. rewrite Hp, Ho in *. simpl in *.
    destruct (toNumberOrNull _); [|discriminate]. simpl in *.
    rewrite Hcur in *. simpl in *.
    destruct c as [|x c]; [congruence|]. simpl in *.
    rewrite Hc. reflexivity.
Qed.

Lemma break_statement_spec (st : ProductRecord) :
  break_statement st = (st, if complete st then Broke else Normal).
Proof. unfold break_statement, when, break. destruct (complete st); reflexivity. Qed.

(** One round of the loop: the round breaks exactly when the three
    fields are set after it, and the loop then ends; it goes on to the
    next candidate when they are not; a throw ends the loop. *)
Lemma for_of_round (n : value) (rest : list value) (st : ProductRecord) :
  match candidate_body n st with
  | (st', Broke) =>
      complete st' = true
      /\ for_of candidate_body (n :: rest) st = (st', Normal)
  | (st', Normal) =>
      complete st' = false
      /\ for_of candidate_body (n :: rest) st = for_of candidate_body rest st'
  | (st', Thrown e) =>
      for_of candidate_body (n :: rest) st = (st', Thrown e)
  end.
Proof.
  simpl for_of. unfold candidate_body, seq.
  pose proof (title_statement_spec n st) as (_ & _ & T).
  destruct (title_statement n st) as [s1 [| |e]]; simpl in T;
    [|congruence|reflexivity].
  pose proof (image_statement_spec n s1) as (_ & _ & I).
  destruct (image_statement n s1) as [s2 sg]; simpl in I; subst sg.
  pose proof (offer_statement_spec n s2) as (O & _).
  destruct (offer_statement n s2) as [s3 [| |e]]; simpl in O;
    [|congruence|reflexivity].
  rewrite break_statement_spec.
  destruct (complete s3) eqn:E; split; auto.
Qed.

Lemma candidate_body_currency (n : value) (st : ProductRecord) :
  (not_null (price st) = true ->
   currency (fst (candidate_body n st)) = currency st)
  /\ (truthy_nullable (currency st) = true ->
      currency (fst (candidate_body n st)) = currency st)
  /\ (forall c,
        (forall e, snd (candidate_body n st) <> Thrown e) ->
        price st = None ->
        truthy (first_offer (get n (str "offers"))) = true ->
        truthy_nullable (currency st) = false ->
        offer_currency n = VString c -> c <> [] ->
        currency (fst (candidate_body n st)) = Some c).
Proof.
  unfold candidate_body, seq.
  pose proof (title_statement_spec n st) as (Tp & Tc & T).
  destruct (title_statement n st) as [s1 [| |e]]; simpl in Tp, Tc, T;
    [|congruence|].
  2:{ simpl. repeat split; auto. intros c H. exfalso. apply (H e). reflexivity. }
  pose proof (image_statement_spec n s1) as (Ip & Ic & I).
  destruct (image_statement n s1) as [s2 sg]; simpl in Ip, Ic, I; subst sg.
  assert (P2 : price s2 = price st) by congruence.
  assert (C2 : currency s2 = currency st) by congruence.
  clear Tp Tc Ip Ic T.
  pose proof (offer_statement_spec n s2) as (O & Op & Oc & Oset).
  rewrite P2, C2 in *.
  destruct (offer_statement n s2) as [s3 [| |e]] eqn:EO; simpl in *;
    [|congruence|].
  - rewrite break_statement_spec. simpl.
    split; [|split].
    + intros H. specialize (Op H). injection Op as ->. exact C2.
    + intros H. rewrite (Oc H). reflexivity.
    + intros c _ Hp Ho Hc Hcur Hne. apply Oset; auto.
  - split; [|split].
    + intros H. specialize (Op H). discriminate.
    + intros H. apply Oc, H.
    + intros c H. exfalso. apply (H e). reflexivity.
Qed.

Lemma candidate_body_price_kept (n : value) (st : ProductRecord) :
  not_null (price st) = true -> price (fst (candidate_body n st)) = price st.
Proof.
  intros H. unfold candidate_body, seq.
  pose proof (title_statement_spec n st) as (Tp & _ & T).
  destruct (title_statement n st) as [s1 [| |e]]; simpl in Tp, T;
    [|congruence|exact Tp].
  pose proof (image_statement_spec n s1) as (Ip & _ & I).
  destruct (image_statement n s1) as [s2 sg]; simpl in Ip, I; subst sg.
  assert (P2 : price s2 = price st) by congruence.
  pose proof (offer_statement_spec n s2) as (_ & Op & _).
  rewrite P2 in Op. rewrite (Op H). rewrite break_statement_spec. exact P2.
Qed.

(** Once the price is set, no later candidate changes price or currency. *)
Lemma for_of_price_set (cands : list value) (st : ProductRecord) :
  not_null (price st) = true ->
  price (fst (for_of candidate_body cands st)) = price st
  /\ currency (fst (for_of candidate_body cands st)) = currency st.
Proof.
  revert st; induction cands as [|n rest IH]; intros st H; [split; reflexivity|].
  pose proof (candidate_body_price_kept n st H) as Hp.
  pose proof (candidate_body_currency n st) as (Hc & _).
  specialize (Hc H). simpl for_of.
  destruct (candidate_body n st) as [st' [| |e]]; simpl in Hp, Hc;
    try (split; assumption).
  assert (H' : not_null (price st') = true) by (rewrite Hp; exact H).
  destruct (IH st' H') as [IHp IHc]. split; congruence.
Qed.

(** C1, as the code has it. The scan of the candidates stops early as
    soon as title, image and price are all set after a candidate (or a
    conversion throws), whether or not a currency is set: there is no
    further pass for the currency.  A candidate changes the currency
    only when it is reached with no price and no currency set; then, if
    its offer carries a non-empty currency text and nothing throws, that
    text becomes the currency.  Once an earlier candidate has set the
    price, the currency of a later offer is not taken, however many
    candidates follow. *)
Theorem scan_stop_and_currency (n : value) (rest : list value)
  (st : ProductRecord) :
  match candidate_body n st with
  | (st', Broke) =>
      complete st' = true
      /\ for_of candidate_body (n :: rest) st = (st', Normal)
  | (st', Normal) =>
      complete st' = false
      /\ for_of candidate_body (n :: rest) st = for_of candidate_body rest st'
  | (st', Thrown e) =>
      for_of candidate_body (n :: rest) st = (st', Thrown e)
  end
  /\ (not_null (price st) = true ->
      currency (fst (for_of candidate_body (n :: rest) st)) = currency st)
  /\ (truthy_nullable (currency st) = true ->
      currency (fst (candidate_body n st)) = currency st)
  /\ (forall c,
        (forall e, snd (candidate_body n st) <> Thrown e) ->
        price st = None ->
        truthy (first_offer (get n (str "offers"))) = true ->
        truthy_nullable (currency st) = false ->
        offer_currency n = VString c -> c <> [] ->
        currency (fst (candidate_body n st)) = Some c).
Proof.
  split; [apply for_of_round|].
  split; [intros H; apply for_of_price_set, H|].
  apply candidate_body_currency.
Qed.

Lemma scan_stop_and_currency_witness :
  currency
    (fst (candidate_body
            (VObject [ (str "offers",
                        VObject [ (str "price", VString (str "6"));
                                  (str "priceCurrency", VString (str "EUR")) ]) ])
            no_product))
  = Some (str "EUR")
  /\ currency
       (fst (for_of candidate_body
               [ VObject [ (str "offers",
                            VObject [ (str "price", VString (str "6"));
                                      (str "priceCurrency", VString (str "EUR")) ]) ] ]
               (set_price (Some five) no_product)))
     = None.
Proof.
  split.
  - destruct (scan_stop_and_currency
                (VObject [ (str "offers",
                            VObject [ (str "price", VString (str "6"));
                                      (str "priceCurrency", VString (str "EUR")) ]) ])
                [] no_product) as (_ & _ & _ & H).
    apply H; try reflexivity; vm_compute; discriminate.
  - destruct (scan_stop_and_currency
                (VObject [ (str "offers",
                            VObject [ (str "price", VString (str "6"));
                                      (str "priceCurrency", VString (str "EUR")) ]) ])
                [] (set_price (Some five) no_product)) as (_ & H & _ & _).
    rewrite H; reflexivity.
Defined.

(** The loop of [script_body] runs over [candidates_of]. *)
Lemma script_body_candidates (raw : jsstring) :
  script_body raw = eval (candidates_of raw) (for_of candidate_body).
Proof.
  unfold script_body, candidates_of, eval, bind.
  destruct (JSON_parse raw); [|reflexivity].
  destruct (filter_isType _ _); reflexivity.
Qed.

(** C1, as the specification words it, fails.  First payload: the
    first Product sets the price from an offer without currency, the
    second offers a currency while none is set, and it is not taken.
    Second payload: the first Product completes title, image and price,
    the scan stops there and never reads the currency of the second. *)
Lemma later_offer_currency_not_applied :
  (candidates_of priced_then_currency_payload = Return priced_then_currency
   /\ List.map offer_currency priced_then_currency
      = [VUndefined; VString (str "EUR")]
   /\ for_of candidate_body priced_then_currency no_product
      = ({| title := str "A"; imageUrl := str "";
            price := Some five; currency := None |}, Normal)
   /\ parseFromHtml (U := UrlReference.reference) shop_url
        (page_of_script priced_then_currency_payload)
      = Return {| title := str "A"; imageUrl := str "";
                  price := Some five; currency := None |})
  /\ (candidates_of complete_then_currency_payload
        = Return complete_then_currency
      /\ List.map offer_currency complete_then_currency
         = [VUndefined; VString (str "EUR")]
      /\ for_of candidate_body complete_then_currency no_product
         = ({| title := str "A"; imageUrl := str "http://a/i.png";
               price := Some five; currency := None |}, Normal)
      /\ parseFromHtml (U := UrlReference.reference) shop_url
           (page_of_script complete_then_currency_payload)
         = Return {| title := str "A"; imageUrl := str "http://a/i.png";
                     price := Some five; currency := None |}).
Proof. repeat split; vm_compute; reflexivity. Qed.

(* ================================================================= *)
(** ** Texts of digits, periods and commas *)

Lemma plain_cases (c : code_unit) :
  plain c = true ->
  In c [0x2C; 0x2E; 0x30; 0x31; 0x32; 0x33; 0x34; 0x35; 0x36; 0x37;
        0x38; 0x39]%N.
Proof.
  unfold plain, is_digit, is_period, is_comma. intros H.
  apply orb_prop in H as [H|H]; [apply orb_prop in H as [H|H]|].
  - apply andb_prop in H as [H1 H2]. apply N.leb_le in H1, H2.
    simpl. lia.
  - apply N.eqb_eq in H. subst. simpl. auto.
  - apply N.eqb_eq in H. subst. simpl. auto.
Qed.

(** Settle a goal that computes once the plain code unit of [H] is known. *)
Ltac by_plain_cases H :=
  apply plain_cases in H; simpl in H;
  repeat (destruct H as [<-|H]; [reflexivity|]); destruct H.

Lemma plain_not_white_space (c : code_unit) :
  plain c = true -> is_white_space c = false.
Proof. intros H. by_plain_cases H. Qed.

Lemma plain_cleaned (s : jsstring) :
  forallb plain (remove_all not_digit_dot_comma s) = true.
Proof.
  unfold remove_all. apply forallb_forall. intros c Hc.
  apply filter_In in Hc as [_ Hc]. unfold not_digit_dot_comma in Hc.
  rewrite negb_involutive in Hc. exact Hc.
Qed.

Lemma trim_plain (t : jsstring) : forallb plain t = true -> trim t = t.
Proof.
  intros H. apply trim_fixed.
  - destruct t as [|c t]; [exact I|]. simpl in *.
    apply andb_prop in H as [H _]. apply plain_not_white_space, H.
  - destruct (rev t) as [|c r] eqn:E; [exact I|]. simpl.
    apply plain_not_white_space.
    rewrite forallb_forall in H. apply H. apply in_rev. rewrite E.
    left. reflexivity.
Qed.

(** *** Positions of the separators *)

Lemma lastIndexOf_from_char (d : code_unit) (p : code_unit -> bool)
  (s : jsstring) (i f : Z) :
  (forall c, p c = N.eqb d c) ->
  lastIndexOf_from s [d] i f
  = match last_position p s with
    | Some k => (i + Z.of_nat k)%Z
    | None => f
    end.
Proof.
  intros Hp. revert i f. induction s as [|y r IH]; intros i f.
  - reflexivity.
  - simpl. rewrite IH. rewrite andb_true_r, <- Hp.
    destruct (last_position p r) as [k|]; [lia|].
    destruct (p y); [lia|reflexivity].
Qed.

Lemma lastIndexOf_comma (s : jsstring) :
  lastIndexOf s (str ",")
  = match last_position is_comma s with
    | Some k => Z.of_nat k
    | None => (-1)%Z
    end.
Proof.
  unfold lastIndexOf. rewrite (lastIndexOf_from_char 0x2C%N is_comma).
  - destruct (last_position is_comma s); reflexivity.
  - intros c. apply N.eqb_sym.
Qed.

Lemma lastIndexOf_period (s : jsstring) :
  lastIndexOf s (str ".")
  = match last_position is_period s with
    | Some k => Z.of_nat k
    | None => (-1)%Z
    end.
Proof.
  unfold lastIndexOf. rewrite (lastIndexOf_from_char 0x2E%N is_period).
  - destruct (last_position is_period s); reflexivity.
  - intros c. apply N.eqb_sym.
Qed.

Lemma last_position_none (p : code_unit -> bool) (s : jsstring) :
  last_position p s = None <-> existsb p s = false.
Proof.
  induction s as [|c r IH]; simpl; [tauto|].
  destruct (last_position p r) as [k|].
  - split; [discriminate|]. intros H. apply orb_false_elim in H as [_ H].
    apply IH in H. discriminate.
  - destruct (p c); simpl; [split; discriminate|]. tauto.
Qed.

Lemma last_position_some (p : code_unit -> bool) (s : jsstring) :
  existsb p s = true -> exists k, last_position p s = Some k.
Proof.
  intros H. destruct (last_position p s) as [k|] eqn:E; [eauto|].
  apply last_position_none in E. congruence.
Qed.

(** *** Replacing one code unit *)

Lemma split_first (p : code_unit -> bool) (s : jsstring) :
  existsb p s = true ->
  exists a c b, s = a ++ c :: b /\ p c = true /\ existsb p a = false.
Proof.
  induction s as [|x s IH]; simpl; [discriminate|].
  destruct (p x) eqn:E; simpl.
  - intros _. exists [], x, s. auto.
  - intros H. destruct (IH H) as (a & c & b & -> & Hc & Ha).
    exists (x :: a), c, b. simpl. rewrite E. auto.
Qed.

Lemma replace_first_char (x y : code_unit) (a b : jsstring) :
  existsb (N.eqb x) a = false ->
  replace (a ++ x :: b) [x] [y] = a ++ y :: b.
Proof.
  induction a as [|c a IH]; simpl; intros H.
  - rewrite N.eqb_refl. reflexivity.
  - apply orb_false_elim in H as [H1 H2]. rewrite H1. simpl.
    rewrite (IH H2). reflexivity.
Qed.

Lemma replace_same (x : code_unit) (s : jsstring) : replace s [x] [x] = s.
Proof.
  induction s as [|c s IH]; simpl; [reflexivity|].
  destruct (N.eqb_spec x c) as [->|_]; simpl; [reflexivity|].
  rewrite IH. reflexivity.
Qed.

(** *** [Number] on such texts *)

Lemma span_spec (p : code_unit -> bool) (s : jsstring) :
  s = fst (span p s) ++ snd (span p s)
  /\ forallb p (fst (span p s)) = true
  /\ match snd (span p s) with
     | [] => True
     | c :: _ => p c = false
     end.
Proof.
  induction s as [|c r (IH1 & IH2 & IH3)]; simpl; [auto|].
  destruct (p c) eqn:E.
  - destruct (span p r) as [a b]. simpl in *.
    rewrite E. repeat split; auto. congruence.
  - simpl. auto.
Qed.


Lemma exponent_part_plain (c : code_unit) (r : jsstring) :
  plain c = true -> exponent_part (c :: r) = None.
Proof. intros H. by_plain_cases H. Qed.

Lemma unsigned_decimal_shape (t : jsstring) :
  forallb plain t = true -> unsigned_decimal t <> None -> decimal_shape t.
Proof.
  intros Hp. unfold unsigned_decimal.
  destruct (span_spec is_digit t) as (E1 & D1 & R1).
  destruct (span is_digit t) as [ip r]. simpl in E1, D1, R1.
  assert (Hr : forallb plain r = true).
  { rewrite E1, forallb_app in Hp. apply andb_prop in Hp as [_ Hp]. exact Hp. }
  destruct r as [|c r1].
  - intros _. exists ip, []. rewrite app_nil_r in E1. auto.
  - simpl in Hr. apply andb_prop in Hr as [Hc Hr1].
    assert (C : c = 0x2E%N \/ c = 0x2C%N).
    { apply plain_cases in Hc. simpl in Hc.
      destruct Hc as [<-|[<-|Hc]]; auto.
      repeat (destruct Hc as [<-|Hc]; [discriminate|]). destruct Hc. }
    destruct C as [-> | ->].
    + destruct (span_spec is_digit r1) as (E2 & D2 & R2).
      destruct (span is_digit r1) as [fp r']. simpl in E2, D2, R2.
      destruct (is_empty ip && is_empty fp); [congruence|].
      destruct r' as [|d r2].
      * intros _. exists ip, fp. rewrite app_nil_r in E2. subst r1. auto.
      * rewrite exponent_part_plain; [congruence|].
        rewrite E2, forallb_app in Hr1. apply andb_prop in Hr1 as [_ Hr1].
        simpl in Hr1. apply andb_prop in Hr1 as [Hd _]. exact Hd.
    + simpl. rewrite andb_true_r.
      destruct (is_empty ip); congruence.
Qed.

Lemma Number_of_string_plain (t : jsstring) :
  forallb plain t = true -> t <> [] ->
  Number_of_string t
  = match unsigned_decimal t with
    | Some (m, e) => of_decimal false m e
    | None => NaN
    end.
Proof.
  intros Hp Hne. unfold Number_of_string. rewrite (trim_plain t Hp).
  destruct t as [|c t]; [congruence|]. simpl in Hp.
  apply andb_prop in Hp as [Hc Ht].
  assert (I : JsString.eqb (c :: t) (str "Infinity") = false).
  { by_plain_cases Hc. }
  assert (S : str_unsigned_decimal false (c :: t)
              = match unsigned_decimal (c :: t) with
                | Some (m, e) => of_decimal false m e
                | None => NaN
                end).
  { unfold str_unsigned_decimal. rewrite I. reflexivity. }
  rewrite <- S. clear S I.
  apply plain_cases in Hc. simpl in Hc.
  destruct Hc as [<-|[<-|[<-|Hc]]]; try reflexivity.
  - destruct t as [|x ds]; [reflexivity|]. simpl in Ht.
    apply andb_prop in Ht as [Hx _]. by_plain_cases Hx.
  - repeat (destruct Hc as [<-|Hc]; [reflexivity|]). destruct Hc.
Qed.

Lemma Number_of_string_shape (t : jsstring) :
  forallb plain t = true -> t <> [] ->
  Number_of_string t <> NaN -> decimal_shape t.
Proof.
  intros Hp Hne H. rewrite (Number_of_string_plain t Hp Hne) in H.
  apply (unsigned_decimal_shape t Hp).
  destruct (unsigned_decimal t); congruence.
Qed.

Lemma digits_no_comma (ds : jsstring) :
  forallb is_digit ds = true -> existsb is_comma ds = false.
Proof.
  induction ds as [|c ds IH]; simpl; [reflexivity|]. intros H.
  apply andb_prop in H as [Hc Hd]. rewrite (IH Hd), orb_false_r.
  unfold is_digit in Hc. unfold is_comma.
  apply andb_prop in Hc as [H1 _]. apply N.leb_le in H1.
  apply N.eqb_neq. lia.
Qed.

Lemma digits_no_period (ds : jsstring) :
  forallb is_digit ds = true -> filter is_period ds = [].
Proof.
  induction ds as [|c ds IH]; simpl; [reflexivity|]. intros H.
  apply andb_prop in H as [Hc Hd]. rewrite (IH Hd).
  unfold is_digit in Hc. unfold is_period.
  apply andb_prop in Hc as [H1 _]. apply N.leb_le in H1.
  destruct (N.eqb_spec c 0x2E); [lia|reflexivity].
Qed.

Lemma decimal_shape_no_comma (t : jsstring) :
  decimal_shape t -> existsb is_comma t = false.
Proof.
  intros (ip & fp & Hi & Hf & [-> | ->]).
  - apply digits_no_comma, Hi.
  - rewrite existsb_app. simpl.
    rewrite (digits_no_comma ip Hi), (digits_no_comma fp Hf). reflexivity.
Qed.

Lemma decimal_shape_one_period (t : jsstring) :
  decimal_shape t -> (count_periods t <= 1)%nat.
Proof.
  unfold count_periods.
  intros (ip & fp & Hi & Hf & [-> | ->]).
  - rewrite (digits_no_period ip Hi). simpl. lia.
  - rewrite filter_app. simpl.
    rewrite (digits_no_period ip Hi), (digits_no_period fp Hf). simpl. lia.
Qed.

(** A comma left in the text, or a second period, makes it no number. *)
Lemma Number_of_string_comma (t : jsstring) :
  forallb plain t = true -> existsb is_comma t = true ->
  Number_of_string t = NaN.
Proof.
  intros Hp Hc. destruct (Number_of_string t) eqn:E; try reflexivity;
    exfalso;
    (assert (Hne : t <> []) by (intros ->; discriminate));
    (assert (N : Number_of_string t <> NaN) by (rewrite E; discriminate));
    pose proof (decimal_shape_no_comma t (Number_of_string_shape t Hp Hne N));
    congruence.
Qed.

Lemma Number_of_string_periods (t : jsstring) :
  forallb plain t = true -> (2 <= count_periods t)%nat ->
  Number_of_string t = NaN.
Proof.
  intros Hp Hc. destruct (Number_of_string t) eqn:E; try reflexivity;
    exfalso;
    (assert (Hne : t <> []) by (intros ->; unfold count_periods in Hc; simpl in Hc; lia));
    (assert (N : Number_of_string t <> NaN) by (rewrite E; discriminate));
    pose proof (decimal_shape_one_period t (Number_of_string_shape t Hp Hne N));
    lia.
Qed.

(* ================================================================= *)
(** ** C2 and C9: the price of a string *)

Lemma toNumberOrNull_of_string (s : jsstring) :
  toNumberOrNull (VString s)
  = Return (if is_empty (trim s) then None
            else if is_empty (cleaned_of s) then None
            else finite_or_null (Number_of_string (normalized_of (cleaned_of s)))).
Proof.
  unfold toNumberOrNull, cleaned_of, normalized_of, finite_or_null.
  simpl nullish. cbv iota. simpl ToString. unfold bind.
  destruct (is_empty (trim s)); [reflexivity|].
  destruct (is_empty _); reflexivity.
Qed.

Lemma existsb_false_filter {A : Type} (p : A -> bool) (s : list A) :
  existsb p s = false -> filter p s = [].
Proof.
  induction s as [|c s IH]; simpl; [reflexivity|]. intros H.
  apply orb_false_elim in H as [-> H]. apply IH, H.
Qed.

Lemma filter_nonempty_existsb {A : Type} (p : A -> bool) (s : list A) :
  (1 <= List.length (filter p s))%nat -> existsb p s = true.
Proof.
  intros H. destruct (existsb p s) eqn:E; [reflexivity|].
  rewrite (existsb_false_filter p s E) in H. simpl in H. lia.
Qed.

Lemma existsb_filter_nonempty {A : Type} (p : A -> bool) (s : list A) :
  existsb p s = true -> (1 <= List.length (filter p s))%nat.
Proof.
  induction s as [|c s IH]; simpl; [discriminate|].
  destruct (p c); simpl; [lia|exact IH].
Qed.

Lemma cleaned_nonempty (s : jsstring) :
  cleaned_of s <> [] -> is_empty (trim s) = false /\ is_empty (cleaned_of s) = false.
Proof.
  unfold cleaned_of. intros H. split.
  - destruct (trim s); [exfalso; apply H; reflexivity|reflexivity].
  - destruct (remove_all _ _); [congruence|reflexivity].
Qed.

Lemma plain_cleaned_of (s : jsstring) : forallb plain (cleaned_of s) = true.
Proof. apply plain_cleaned. Qed.

Lemma is_comma_eq (c : code_unit) : is_comma c = true -> c = 0x2C%N.
Proof. apply N.eqb_eq. Qed.

Lemma existsb_comma_sym (a : jsstring) :
  existsb (N.eqb 0x2C) a = existsb is_comma a.
Proof.
  induction a as [|c a IH]; cbn [existsb]; [reflexivity|].
  rewrite IH. unfold is_comma. rewrite (N.eqb_sym 0x2C c). reflexivity.
Qed.

(** The first comma of a text, replaced by the code. *)
Lemma replace_first_comma (u : jsstring) :
  existsb is_comma u = true ->
  exists a b,
    u = a ++ 0x2C%N :: b
    /\ existsb is_comma a = false
    /\ replace u (str ",") (str ".") = a ++ 0x2E%N :: b.
Proof.
  intros H. destruct (split_first is_comma u H) as (a & c & b & -> & Hc & Ha).
  apply is_comma_eq in Hc. subst c. exists a, b.
  repeat split; [exact Ha|].
  apply (replace_first_char 0x2C%N 0x2E%N). rewrite existsb_comma_sym. exact Ha.
Qed.

Lemma forallb_plain_app (a b : jsstring) :
  forallb plain (a ++ b) = true ->
  forallb plain a = true /\ forallb plain b = true.
Proof. rewrite forallb_app. apply andb_prop. Qed.

(** C9. A string whose kept code units (digits, commas, periods) hold
    two or more commas and no period has no price: only the first comma
    is turned into a period, the text handed to [Number] still holds a
    comma, [Number] answers [NaN], and the result is absent. *)
Theorem several_commas_no_price (s : jsstring) :
  (2 <= count_commas (cleaned_of s))%nat ->
  existsb is_period (cleaned_of s) = false ->
  toNumberOrNull (VString s) = Return None
  /\ normalized_of (cleaned_of s) = replace (cleaned_of s) (str ",") (str ".")
  /\ existsb is_comma (normalized_of (cleaned_of s)) = true
  /\ Number_of_string (normalized_of (cleaned_of s)) = NaN.
Proof.
  intros Hc Hp. pose proof (plain_cleaned_of s) as Hplain.
  set (c := cleaned_of s) in *.
  assert (Hex : existsb is_comma c = true).
  { apply filter_nonempty_existsb. unfold count_commas in Hc. lia. }
  assert (Hn : normalized_of c = replace c (str ",") (str ".")).
  { unfold normalized_of. rewrite lastIndexOf_period.
    apply last_position_none in Hp. rewrite Hp.
    rewrite andb_false_r. reflexivity. }
  destruct (replace_first_comma c Hex) as (a & b & Ec & Ha & Er).
  assert (Hb : existsb is_comma b = true).
  { apply filter_nonempty_existsb. unfold count_commas in Hc.
    rewrite Ec, filter_app in Hc.
    rewrite existsb_false_filter in Hc by exact Ha.
    simpl in Hc. lia. }
  assert (Hcomma : existsb is_comma (normalized_of c) = true).
  { rewrite Hn, Er, existsb_app. simpl. rewrite Hb.
    rewrite !orb_true_r. reflexivity. }
  assert (Hpl : forallb plain (normalized_of c) = true).
  { rewrite Hn, Er. rewrite Ec in Hplain.
    apply forallb_plain_app in Hplain as [H1 H2]. simpl in H2.
    rewrite forallb_app. simpl. rewrite H1, H2. reflexivity. }
  assert (HNaN : Number_of_string (normalized_of c) = NaN)
    by (apply Number_of_string_comma; assumption).
  split; [|auto].
  assert (Hne : c <> []) by (intros E; rewrite E in Hex; discriminate).
  destruct (cleaned_nonempty s Hne) as [E1 E2].
  rewrite toNumberOrNull_of_string, E1, E2. fold c.
  rewrite HNaN. reflexivity.
Qed.

Lemma several_commas_no_price_witness :
  toNumberOrNull (VString (str "1,234,567")) = Return None
  /\ normalized_of (str "1,234,567") = str "1.234,567".
Proof.
  destruct (several_commas_no_price (str "1,234,567")) as (H1 & _).
  - vm_compute. lia.
  - reflexivity.
  - split; [exact H1|reflexivity].
Defined.

(** *** The decimal separator *)


Lemma comma_to_period_fixed (b : jsstring) :
  existsb is_comma b = false -> List.map comma_to_period b = b.
Proof.
  induction b as [|c b IH]; cbn [existsb List.map]; [reflexivity|]. intros H.
  apply orb_false_elim in H as [Hc Hb]. rewrite (IH Hb).
  unfold comma_to_period. unfold is_comma in Hc. rewrite Hc. reflexivity.
Qed.

Lemma comma_to_period_plain (b : jsstring) :
  forallb plain b = true -> forallb plain (List.map comma_to_period b) = true.
Proof.
  induction b as [|c b IH]; cbn [forallb List.map]; [reflexivity|]. intros H.
  apply andb_prop in H as [Hc Hb]. rewrite (IH Hb), andb_true_r.
  unfold comma_to_period. destruct (N.eqb c 0x2C); [reflexivity|exact Hc].
Qed.

Lemma comma_to_period_counts (b : jsstring) :
  existsb is_comma b = true ->
  (1 <= count_periods (List.map comma_to_period b))%nat.
Proof.
  intros H. unfold count_periods. apply existsb_filter_nonempty.
  apply existsb_exists. apply existsb_exists in H as (c & Hin & Hc).
  exists (comma_to_period c). split; [apply in_map, Hin|].
  apply is_comma_eq in Hc. subst c. reflexivity.
Qed.

(** With the comma as decimal separator, turning the first comma into a
    period (the code) and turning every comma into a period (the
    specification) give the same price. *)
Lemma first_or_every_comma (u : jsstring) :
  forallb plain u = true -> existsb is_comma u = true ->
  finite_or_null (Number_of_string (replace u (str ",") (str ".")))
  = finite_or_null (Number_of_string (List.map comma_to_period u)).
Proof.
  intros Hp Hc.
  destruct (replace_first_comma u Hc) as (a & b & -> & Ha & ->).
  rewrite map_app. cbn [List.map]. rewrite (comma_to_period_fixed a Ha).
  change (comma_to_period 0x2C) with 0x2E%N.
  apply forallb_plain_app in Hp as [Hpa Hpb]. simpl in Hpb.
  destruct (existsb is_comma b) eqn:Eb.
  - rewrite (Number_of_string_comma (a ++ 0x2E%N :: b)).
    + rewrite (Number_of_string_periods (a ++ 0x2E%N :: List.map comma_to_period b));
        [reflexivity| |].
      * rewrite forallb_app. cbn [forallb].
        rewrite Hpa, (comma_to_period_plain b Hpb). reflexivity.
      * pose proof (comma_to_period_counts b Eb) as Hn.
        unfold count_periods in *. rewrite filter_app, length_app.
        cbn [filter]. change (is_period 0x2E) with true.
        cbn [List.length]. lia.
    + rewrite forallb_app. cbn [forallb]. rewrite Hpa, Hpb. reflexivity.
    + rewrite existsb_app. cbn [existsb]. rewrite Eb, !orb_true_r. reflexivity.
  - rewrite (comma_to_period_fixed b Eb). reflexivity.
Qed.

Lemma spec_normalize_comma (c : jsstring) :
  decimal_separator c = 0x2C%N ->
  spec_normalize c = List.map comma_to_period (remove_all is_period c).
Proof.
  intros H. unfold spec_normalize, remove_all. rewrite H.
  f_equal. apply filter_ext. intros x.
  unfold is_comma, is_period.
  destruct (N.eqb_spec x 0x2C) as [->|_]; [reflexivity|]. simpl.
  rewrite andb_true_r. reflexivity.
Qed.

Lemma spec_normalize_period (c : jsstring) :
  decimal_separator c = 0x2E%N ->
  spec_normalize c = remove_all is_comma c.
Proof.
  intros H. unfold spec_normalize, remove_all. rewrite H.
  rewrite (filter_ext _ (fun x => negb (is_comma x))).
  - induction (filter _ c) as [|x l IH]; cbn [List.map]; [reflexivity|].
    rewrite IH. destruct (N.eqb_spec x 0x2E) as [->|_]; reflexivity.
  - intros x. unfold is_comma, is_period.
    destruct (N.eqb_spec x 0x2E) as [->|_]; [reflexivity|]. simpl.
    rewrite orb_false_r, andb_true_r. reflexivity.
Qed.

Lemma remove_all_plain (p : code_unit -> bool) (c : jsstring) :
  forallb plain c = true -> forallb plain (remove_all p c) = true.
Proof.
  intros H. unfold remove_all. apply forallb_forall. intros x Hx.
  apply filter_In in Hx as [Hx _]. rewrite forallb_forall in H. apply H, Hx.
Qed.

Lemma remove_periods_keeps_commas (c : jsstring) :
  existsb is_comma c = true -> existsb is_comma (remove_all is_period c) = true.
Proof.
  intros H. apply existsb_exists in H as (x & Hin & Hx).
  apply existsb_exists. exists x. split; [|exact Hx].
  unfold remove_all. apply filter_In. split; [exact Hin|].
  apply is_comma_eq in Hx. subst x. reflexivity.
Qed.

(** With both separators present, the code and the specification's
    normalisation give the same price. *)
Lemma both_separators (c : jsstring) :
  forallb plain c = true ->
  existsb is_comma c = true -> existsb is_period c = true ->
  finite_or_null (Number_of_string (normalized_of c))
  = finite_or_null (Number_of_string (spec_normalize c)).
Proof.
  intros Hp Hc Hd.
  destruct (last_position_some is_comma c Hc) as [i Hi].
  destruct (last_position_some is_period c Hd) as [j Hj].
  unfold normalized_of. rewrite lastIndexOf_comma, lastIndexOf_period, Hi, Hj.
  assert ((Z.of_nat i =? -1)%Z = false) as -> by (apply Z.eqb_neq; lia).
  assert ((Z.of_nat j =? -1)%Z = false) as -> by (apply Z.eqb_neq; lia).
  cbn [negb andb].
  assert (Hsep : decimal_separator c = if Nat.ltb j i then 0x2C%N else 0x2E%N).
  { unfold decimal_separator. rewrite Hi, Hj. reflexivity. }
  assert (Hgt : (Z.of_nat i >? Z.of_nat j)%Z = Nat.ltb j i).
  { destruct (Nat.ltb_spec j i); lia. }
  rewrite Hgt. destruct (Nat.ltb j i).
  - change (JsString.eqb (str ",") (str ",")) with true. cbv iota.
    rewrite (spec_normalize_comma c Hsep).
    apply first_or_every_comma.
    + apply remove_all_plain, Hp.
    + apply remove_periods_keeps_commas, Hc.
  - change (JsString.eqb (str ".") (str ",")) with false. cbv iota.
    rewrite (spec_normalize_period c Hsep).
    change (str ".") with [0x2E%N]. rewrite replace_same. reflexivity.
Qed.

(** With both separators present, the text handed to [Number]: the
    other separator dropped, then the first occurrence of the decimal
    separator replaced by a period. *)
Lemma normalized_of_both (c : jsstring) :
  existsb is_comma c = true -> existsb is_period c = true ->
  normalized_of c
  = replace (remove_all (other_separator (decimal_separator c)) c)
            [decimal_separator c] (str ".").
Proof.
  intros Hc Hd.
  destruct (last_position_some is_comma c Hc) as [i Hi].
  destruct (last_position_some is_period c Hd) as [j Hj].
  unfold normalized_of, decimal_separator, other_separator.
  rewrite lastIndexOf_comma, lastIndexOf_period, Hi, Hj.
  assert ((Z.of_nat i =? -1)%Z = false) as -> by (apply Z.eqb_neq; lia).
  assert ((Z.of_nat j =? -1)%Z = false) as -> by (apply Z.eqb_neq; lia).
  cbn [negb andb].
  assert ((Z.of_nat i >? Z.of_nat j)%Z = Nat.ltb j i) as ->
    by (destruct (Nat.ltb_spec j i); lia).
  destruct (Nat.ltb j i); reflexivity.
Qed.

(** C2. The five examples of the specification, and the rule for a text
    holding both separators: the separator standing last is the decimal
    separator, every occurrence of the other one is dropped, the decimal
    separator becomes a period, and the price is the Number read from the
    result when it is finite.  The code turns the first occurrence of the
    decimal separator into a period; turning every occurrence gives the
    same price.  1234.56 and 19.99 are the Numbers nearest to those
    decimals. *)
Theorem toNumberOrNull_separators :
  toNumberOrNull (VString (str "1.234,56"))
    = Return (Some (of_decimal false 123456 (-2)))
  /\ toNumberOrNull (VString (str "1,234.56"))
     = Return (Some (of_decimal false 123456 (-2)))
  /\ toNumberOrNull (VString (str "19,99"))
     = Return (Some (of_decimal false 1999 (-2)))
  /\ toNumberOrNull (VString (str "")) = Return None
  /\ toNumberOrNull (VString (str "abc")) = Return None
  /\ forall s : jsstring,
       existsb is_comma (cleaned_of s) = true ->
       existsb is_period (cleaned_of s) = true ->
       toNumberOrNull (VString s)
       = Return (finite_or_null
                   (Number_of_string (spec_normalize (cleaned_of s))))
       /\ toNumberOrNull (VString s)
          = Return (finite_or_null
                      (Number_of_string
                         (replace
                            (remove_all
                               (other_separator
                                  (decimal_separator (cleaned_of s)))
                               (cleaned_of s))
                            [decimal_separator (cleaned_of s)] (str ".")))).
Proof.
  do 5 (split; [vm_compute; reflexivity|]).
  intros s Hc Hd. rewrite toNumberOrNull_of_string.
  assert (Hne : cleaned_of s <> []) by (intros E; rewrite E in Hc; discriminate).
  destruct (cleaned_nonempty s Hne) as [E1 E2]. rewrite E1, E2.
  split; f_equal.
  - apply both_separators; [apply plain_cleaned_of|assumption..].
  - rewrite (normalized_of_both _ Hc Hd). reflexivity.
Qed.

Lemma toNumberOrNull_separators_witness :
  toNumberOrNull (VString (str "EUR 1.234,56"))
  = Return (Some (of_decimal false 123456 (-2)))
  /\ toNumberOrNull (VString (str "1.2,3,4")) = Return None.
Proof.
  destruct toNumberOrNull_separators as (_ & _ & _ & _ & _ & H).
  split.
  - destruct (H (str "EUR 1.234,56")) as [H1 _];
      [reflexivity|reflexivity|]. rewrite H1. vm_compute. reflexivity.
  - destruct (H (str "1.2,3,4")) as [H1 _];
      [reflexivity|reflexivity|]. rewrite H1. vm_compute. reflexivity.
Defined.

(* ================================================================= *)
(** ** [JSON.parse]: the fuel is enough *)

(** *** Every parser consumes input *)

Lemma skip_ws_length (s : jsstring) :
  (List.length (skip_ws s) <= List.length s)%nat.
Proof.
  induction s as [|c r IH]; simpl; [lia|].
  destruct (is_json_ws c); simpl; lia.
Qed.

Lemma cons_to_some (c : code_unit) (o : option (jsstring * jsstring))
  (t r : jsstring) :
  cons_to c o = Some (t, r) -> exists t', o = Some (t', r).
Proof.
  destruct o as [[t' r']|]; simpl; [|discriminate].
  intros [= <- <-]. eauto.
Qed.

Lemma string_body_length (n : nat) (s t r : jsstring) :
  (List.length s <= n)%nat ->
  string_body s = Some (t, r) -> (List.length r < List.length s)%nat.
Proof.
  revert s t r. induction n as [|n IH]; intros s t r Hn H.
  - destruct s; [discriminate|simpl in Hn; lia].
  - destruct s as [|c s]; [discriminate|]. simpl in Hn. simpl in H.
    destruct (N.eqb c 0x22); [injection H as <- <-; simpl; lia|].
    destruct (N.eqb c 0x5C).
    + destruct s as [|e r1]; [discriminate|].
      destruct (N.eqb e 0x75).
      * destruct r1 as [|a [|b [|c' [|d r']]]]; try discriminate.
        destruct (hex4 a b c' d); [|discriminate].
        apply cons_to_some in H as [t' H].
        apply IH in H; simpl in *; lia.
      * destruct (simple_escape e); [|discriminate].
        apply cons_to_some in H as [t' H].
        apply IH in H; simpl in *; lia.
    + destruct (N.ltb c 0x20); [discriminate|].
      apply cons_to_some in H as [t' H].
      apply IH in H; simpl in *; lia.
Qed.

Lemma span_length (p : code_unit -> bool) (s : jsstring) :
  List.length s
  = (List.length (fst (span p s)) + List.length (snd (span p s)))%nat.
Proof.
  induction s as [|c r IH]; simpl; [reflexivity|].
  destruct (p c); [|reflexivity].
  destruct (span p r) as [a b]. simpl in *. lia.
Qed.

Lemma take_unit_length (c : code_unit) (s : jsstring) :
  (List.length (snd (take_unit c s)) <= List.length s)%nat.
Proof.
  destruct s as [|x r]; simpl; [lia|].
  destruct (N.eqb x c); simpl; lia.
Qed.

Lemma fraction_length (s fp r : jsstring) :
  fraction s = Some (fp, r) -> (List.length r <= List.length s)%nat.
Proof.
  unfold fraction. pose proof (take_unit_length 0x2E s) as H.
  destruct (take_unit 0x2E s) as [[|] s']; simpl in H.
  - pose proof (span_length is_digit s') as L.
    destruct (span is_digit s') as [a b]. simpl in L.
    destruct (is_empty a); [discriminate|]. intros [= <- <-]. lia.
  - intros [= <- <-]. lia.
Qed.

Lemma exponent_length (s r : jsstring) (e : Z) :
  exponent s = Some (e, r) -> (List.length r <= List.length s)%nat.
Proof.
  unfold exponent. destruct s as [|c s]; [intros [= <- <-]; lia|].
  destruct (_ || _); [|intros [= <- <-]; lia].
  pose proof (take_unit_length 0x2D s) as H1.
  pose proof (take_unit_length 0x2B s) as H2.
  destruct (take_unit 0x2D s) as [[|] r0]; simpl in H1.
  - pose proof (span_length is_digit r0) as L.
    destruct (span is_digit r0) as [a b]. simpl in L.
    destruct (is_empty a); [discriminate|]. intros [= <- <-]. simpl. lia.
  - destruct (take_unit 0x2B s) as [m r1]; simpl in H2.
    pose proof (span_length is_digit r1) as L.
    destruct (span is_digit r1) as [a b]. simpl in L.
    destruct (is_empty a); [discriminate|]. intros [= <- <-]. simpl. lia.
Qed.

Lemma number_literal_length (s r : jsstring) (x : number) :
  number_literal s = Some (x, r) -> (List.length r < List.length s)%nat.
Proof.
  unfold number_literal. pose proof (take_unit_length 0x2D s) as H1.
  destruct (take_unit 0x2D s) as [neg s1]; simpl in H1.
  pose proof (span_length is_digit s1) as L.
  destruct (span is_digit s1) as [ip s2]. simpl in L.
  destruct ip as [|d ip]; [discriminate|]. simpl is_empty. cbv iota.
  rewrite orb_false_l. destruct (leading_zero _); [discriminate|].
  destruct (fraction s2) as [[fp s3]|] eqn:F; [|discriminate].
  apply fraction_length in F.
  destruct (exponent s3) as [[e s4]|] eqn:E; [|discriminate].
  apply exponent_length in E. intros [= <- <-]. simpl in L. lia.
Qed.

Lemma strip_prefix_length (p s r : jsstring) :
  strip_prefix p s = Some r ->
  (List.length r + List.length p = List.length s)%nat.
Proof.
  unfold strip_prefix. destruct (starts_with p s) eqn:E; [|discriminate].
  intros [= <-]. apply starts_with_split in E as [b ->].
  rewrite skipn_app, skipn_all, Nat.sub_diag. simpl. rewrite length_app. lia.
Qed.

Lemma literal_length (s r : jsstring) (v : value) :
  literal s = Some (v, r) -> (List.length r < List.length s)%nat.
Proof.
  unfold literal.
  destruct (strip_prefix (str "true") s) eqn:E1.
  { intros [= <- <-]. apply strip_prefix_length in E1. simpl in E1. lia. }
  destruct (strip_prefix (str "false") s) eqn:E2.
  { intros [= <- <-]. apply strip_prefix_length in E2. simpl in E2. lia. }
  destruct (strip_prefix (str "null") s) eqn:E3.
  { intros [= <- <-]. apply strip_prefix_length in E3. simpl in E3. lia. }
  destruct (number_literal s) as [[x r']|] eqn:E4; [|discriminate].
  intros [= <- <-]. apply number_literal_length in E4. exact E4.
Qed.

Lemma parsers_consume (f : nat) : consumes f.
Proof.
  induction f as [|f (IHv & IHe & IHm)].
  - repeat split; intros; discriminate.
  - repeat split.
    + intros s v r H. simpl in H. destruct s as [|c s]; [discriminate|].
      pose proof (skip_ws_length s) as W.
      destruct (N.eqb c 0x7B).
      { destruct (strip_prefix _ _) eqn:E.
        - injection H as <- <-. apply strip_prefix_length in E.
          simpl in *. lia.
        - apply IHm in H. simpl. lia. }
      destruct (N.eqb c 0x5B).
      { destruct (strip_prefix _ _) eqn:E.
        - injection H as <- <-. apply strip_prefix_length in E.
          simpl in *. lia.
        - apply IHe in H. simpl. lia. }
      destruct (N.eqb c 0x22).
      { destruct (string_body s) as [[t r']|] eqn:E; [|discriminate].
        injection H as <- <-.
        apply (string_body_length (List.length s)) in E; simpl; lia. }
      apply literal_length in H. exact H.
    + intros s acc v r H. simpl in H.
      destruct (parse_value f s) as [[v1 r1]|] eqn:E; [|discriminate].
      apply IHv in E. pose proof (skip_ws_length r1) as W.
      destruct (skip_ws r1) as [|c r'] eqn:Er; [discriminate|].
      simpl in W.
      destruct (N.eqb c 0x2C).
      { apply IHe in H. pose proof (skip_ws_length r'). lia. }
      destruct (N.eqb c 0x5D); [|discriminate].
      injection H as <- <-. lia.
    + intros s acc v r H. simpl in H.
      destruct s as [|q s]; [discriminate|].
      destruct (N.eqb q 0x22); [|discriminate].
      destruct (string_body s) as [[key r1]|] eqn:E; [|discriminate].
      apply (string_body_length (List.length s)) in E; [|lia].
      pose proof (skip_ws_length r1) as W1.
      destruct (skip_ws r1) as [|colon r2]; [discriminate|]. simpl in W1.
      destruct (N.eqb colon 0x3A); [|discriminate].
      pose proof (skip_ws_length r2) as W2.
      destruct (parse_value f (skip_ws r2)) as [[v3 r3]|] eqn:E3; [|discriminate].
      apply IHv in E3. pose proof (skip_ws_length r3) as W3.
      destruct (skip_ws r3) as [|c r4]; [discriminate|]. simpl in W3.
      destruct (N.eqb c 0x2C).
      { apply IHm in H. pose proof (skip_ws_length r4). simpl. lia. }
      destruct (N.eqb c 0x7D); [|discriminate].
      injection H as <- <-. simpl. lia.
Qed.

(** *** The fuel is never used up *)

Lemma parsers_saturated (f : nat) : saturated f.
Proof.
  induction f as [|f (IHv & IHe & IHm)].
  - repeat split; intros; lia.
  - repeat split.
    + intros s [|f'] Hs Hf; [lia|]. simpl.
      destruct s as [|c s]; [reflexivity|]. simpl in Hs.
      pose proof (skip_ws_length s) as W.
      destruct (N.eqb c 0x7B).
      { destruct (strip_prefix _ _); [reflexivity|]. apply IHm; lia. }
      destruct (N.eqb c 0x5B).
      { destruct (strip_prefix _ _); [reflexivity|]. apply IHe; lia. }
      reflexivity.
    + intros s acc [|f'] Hs Hf; [lia|]. simpl.
      rewrite (IHv s f') by lia.
      destruct (parse_value f' s) as [[v1 r1]|] eqn:E; [|reflexivity].
      apply (proj1 (parsers_consume f')) in E.
      pose proof (skip_ws_length r1) as W.
      destruct (skip_ws r1) as [|c r']; [reflexivity|]. simpl in W.
      destruct (N.eqb c 0x2C); [|reflexivity].
      pose proof (skip_ws_length r'). apply IHe; lia.
    + intros s acc [|f'] Hs Hf; [lia|]. simpl.
      destruct s as [|q s]; [reflexivity|]. simpl in Hs.
      destruct (N.eqb q 0x22); [|reflexivity].
      destruct (string_body s) as [[key r1]|] eqn:E; [|reflexivity].
      apply (string_body_length (List.length s)) in E; [|lia].
      pose proof (skip_ws_length r1) as W1.
      destruct (skip_ws r1) as [|colon r2]; [reflexivity|]. simpl in W1.
      destruct (N.eqb colon 0x3A); [|reflexivity].
      pose proof (skip_ws_length r2) as W2.
      rewrite (IHv (skip_ws r2) f') by lia.
      destruct (parse_value f' (skip_ws r2)) as [[v3 r3]|] eqn:E3; [|reflexivity].
      apply (proj1 (parsers_consume f')) in E3.
      pose proof (skip_ws_length r3) as W3.
      destruct (skip_ws r3) as [|c r4]; [reflexivity|]. simpl in W3.
      destruct (N.eqb c 0x2C); [|reflexivity].
      pose proof (skip_ws_length r4). apply IHm; lia.
Qed.

(** More fuel than [JSON_parse] gives changes nothing: the parser never
    stops for want of fuel. *)
Lemma parse_value_fuel (text : jsstring) (extra : nat) :
  parse_value (fuel_for text + extra) (skip_ws text)
  = parse_value (fuel_for text) (skip_ws text).
Proof.
  symmetry. apply (proj1 (parsers_saturated (fuel_for text))).
  - unfold fuel_for. pose proof (skip_ws_length text). lia.
  - lia.
Qed.

(* ================================================================= *)
(** ** The runtime model on sample inputs *)

Example Number_of_string_samples :
  List.map (fun s => Number_toString (Number_of_string (str s)))
    ["19.99"; " 12 "; "1."; ".5"; "1e3"; "0x1F"; "-0"; ""; "."; "1,5";
     "1.2.3"; "Infinity"; "1e400"; "12px"]%string
  = List.map str
      ["19.99"; "12"; "1"; "0.5"; "1000"; "31"; "0"; "0"; "NaN"; "NaN";
       "NaN"; "Infinity"; "Infinity"; "NaN"]%string.
Proof. vm_compute. reflexivity. Qed.

Example Number_toString_samples :
  List.map (fun s => Number_toString (Number_of_string (str s)))
    ["1e21"; "123456789012345680000"; "0.000001"; "0.0000001"; "5e-324";
     "1.7976931348623157e308"; "0.30000000000000004"; "9007199254740993";
     "100"; "1e23"; "4.35"]%string
  = List.map str
      ["1e+21"; "123456789012345680000"; "0.000001"; "1e-7"; "5e-324";
       "1.7976931348623157e+308"; "0.30000000000000004"; "9007199254740992";
       "100"; "1e+23"; "4.35"]%string.
Proof. vm_compute. reflexivity. Qed.

(** 19.99 and 1234.56 as binary64: mantissa and binary exponent. *)
Example of_decimal_samples :
  of_decimal false 1999 (-2) = S754_finite false 5626684784446013 (-48)
  /\ of_decimal false 123456 (-2) = S754_finite false 5429652300748554 (-42)
  /\ of_decimal false 1 400 = S754_infinity false
  /\ of_decimal false 1 (-400) = S754_zero false.
Proof. repeat split; vm_compute; reflexivity. Qed.

Example ToString_samples :
  List.map (fun t => match JSON_parse (quoted t) with
                     | Return v => ToString v
                     | Throw e => Throw e
                     end)
    ["[1,[2,null],'a']"; "{'a':1}"; "{'toString':1}"; "true"; "12.50";
     "[]"; "[{'toString':null}]"]%string
  = [ Return (str "1,2,,a"); Return (str "[object Object]"); Throw TypeError;
      Return (str "true"); Return (str "12.5"); Return (str "");
      Throw TypeError ].
Proof. vm_compute. reflexivity. Qed.

Example JSON_parse_samples :
  List.map (fun t => returns (JSON_parse (quoted t)))
    ["{}"; " [1, 2.5e1 , true,null, [] , {} ] "; "[1,]"; "01"; "-0"; "";
     "tru"; "1 2"; "{'a':1,'a':2}"; "{'a':1,}"; "'abc"; "1."; "not json"]%string
  = [true; true; false; false; true; false;
     false; false; true; false; false; false; false]
  /\ JSON_parse (quoted "{'a':1,'b':[true,'x'],'a':null}")
     = Return (VObject [ (str "a", VNull);
                         (str "b", VArray [VBool true; VString (str "x")]) ]).
Proof. split; vm_compute; reflexivity. Qed.

(** The nodes [flattenJsonLd] lists, by the name each one carries. *)
Example flattenJsonLd_sample :
  match JSON_parse (quoted
    "{'name':'root','offers':[{'name':'o1'},{'name':'o2','graph':[[{'name':'g'}]],'other':{'name':'hidden'}}],'@graph':{'name':'x'},'mainEntity':'text'}")
  with
  | Return json => List.map (fun n => get n (str "name")) (flattenJsonLd json)
  | Throw _ => []
  end
  = List.map (fun s => VString (str s)) ["root"; "x"; "o1"; "o2"; "g"]%string.
Proof. vm_compute. reflexivity. Qed.

Example reference_href_samples :
  List.map (fun r => UrlReference.reference_href (str r) shop_url)
    ["/img/shoe.png"; "http://a/x.jpg"; "http://a"; "x.png"; "../x.png";
     "//cdn.example/x.png"; "/a/b/../c/./d"; "/a b"]%string
  = [ Return (str "https://shop.example/img/shoe.png");
      Return (str "http://a/x.jpg");
      Return (str "http://a/");
      Return (str "https://shop.example/p/x.png");
      Return (str "https://shop.example/x.png");
      Return (str "https://cdn.example/x.png");
      Return (str "https://shop.example/a/c/d");
      Throw TypeError ].
Proof. vm_compute. reflexivity. Qed.

(** A script that is not JSON, one whose name cannot be converted, and a
    graph whose Product has a range of prices. *)
Example parseFromHtml_sample :
  parseFromHtml (U := UrlReference.reference) shop_url
    (with_scripts empty_page
       [ script_tag (str "not json");
         script_tag (quoted "{'name':{'toString':1}}");
         script_tag (quoted
           "{'@graph':[{'@type':['Thing','product'],'name':'  G  ','offers':{'lowPrice':'1.234,56','priceCurrency':'EURO'}}]}") ])
  = Return {| title := str "G"; imageUrl := str "";
              price := Some (of_decimal false 123456 (-2));
              currency := Some (str "EURO") |}.
Proof. vm_compute. reflexivity. Qed.


(* ================================================================= *)
(** * Further properties of the code *)

(** ** [pickFirst] *)

Lemma pickFirst_cons (v : option jsstring) (rest : list (option jsstring)) :
  pickFirst (v :: rest)
  = if blank v then pickFirst rest
    else trim (match v with Some x => x | None => str "" end).
Proof. unfold blank. simpl. destruct (is_empty (trim _)); reflexivity. Qed.

Lemma pickFirst_blank_prefix (pre rest : list (option jsstring)) :
  forallb blank pre = true -> pickFirst (pre ++ rest) = pickFirst rest.
Proof.
  induction pre as [|v pre IH]; [reflexivity|]. cbn [forallb app]. intros H.
  apply andb_prop in H as [Hv Hp]. rewrite pickFirst_cons, Hv. apply IH, Hp.
Qed.

(** X1. [pickFirst] returns the trimmed text of the first argument that
    is not blank (missing, empty or white space only), whatever follows
    it, and the empty string exactly when every argument is blank. *)
Theorem pickFirst_first_nonblank (vals : list (option jsstring)) :
  (pickFirst vals = str "" <-> forallb blank vals = true)
  /\ (forall pre x post,
        vals = pre ++ Some x :: post ->
        forallb blank pre = true -> blank (Some x) = false ->
        pickFirst vals = trim x).
Proof.
  split.
  - induction vals as [|v rest IH]; [split; reflexivity|].
    rewrite pickFirst_cons. cbn [forallb].
    destruct (blank v) eqn:B; simpl; [exact IH|].
    unfold blank in B. split; [|discriminate].
    intros H. rewrite H in B. discriminate.
  - intros pre x post -> Hpre Hx.
    rewrite (pickFirst_blank_prefix pre _ Hpre), pickFirst_cons, Hx.
    reflexivity.
Qed.

Lemma pickFirst_first_nonblank_witness :
  pickFirst [None; Some (str "  "); Some (str " Cool Shoes "); Some (str "x")]
  = str "Cool Shoes".
Proof.
  destruct (pickFirst_first_nonblank
              [None; Some (str "  "); Some (str " Cool Shoes "); Some (str "x")])
    as [_ H].
  rewrite (H [None; Some (str "  ")] (str " Cool Shoes ") [Some (str "x")]);
    reflexivity.
Defined.

(** X2. Calls of [pickFirst] nest: picking among the results of two
    calls is picking in the two argument lists put end to end, which is
    the first list's pick unless that is empty. *)
Theorem pickFirst_nested (xs ys : list (option jsstring)) :
  pickFirst [Some (pickFirst xs); Some (pickFirst ys)] = pickFirst (xs ++ ys)
  /\ pickFirst (xs ++ ys)
     = (if is_empty (pickFirst xs) then pickFirst ys else pickFirst xs).
Proof.
  assert (A : pickFirst (xs ++ ys)
              = if is_empty (pickFirst xs) then pickFirst ys else pickFirst xs).
  { induction xs as [|v xs IH]; [reflexivity|].
    cbn [app]. rewrite !pickFirst_cons. destruct (blank v) eqn:B; [exact IH|].
    unfold blank in B. rewrite B. reflexivity. }
  split; [|exact A]. rewrite A.
  cbn [pickFirst]. rewrite !pickFirst_trimmed.
  destruct (is_empty (pickFirst xs)); cbn [negb]; [|reflexivity].
  destruct (pickFirst ys); reflexivity.
Qed.

(* ================================================================= *)
(** ** [authOk] with a token *)

Lemma jsstring_eqb_eq (a b : jsstring) : JsString.eqb a b = true <-> a = b.
Proof.
  revert b; induction a as [|x a IH]; intros [|y b]; simpl; split;
    try congruence; try reflexivity.
  - intros H. apply andb_prop in H as [H1 H2].
    apply N.eqb_eq in H1. apply IH in H2. congruence.
  - intros [= -> ->]. rewrite N.eqb_refl. simpl. apply IH. reflexivity.
Qed.

(** X3. With a non-empty token a request passes exactly when its
    Authorization header is the text [Bearer ] followed by the token,
    code unit for code unit: a missing header, another letter case or
    surrounding white space is refused. *)
Theorem authOk_exact_bearer (TOKEN : jsstring) (req : request) :
  TOKEN <> str "" ->
  (authOk TOKEN req = true
   <-> authorization req = Some (str "Bearer " ++ TOKEN)).
Proof.
  intros Hne. unfold authOk.
  destruct TOKEN as [|c t]; [exfalso; apply Hne; reflexivity|]. cbn [is_empty].
  destruct (authorization req) as [[|a h]|]; cbn [is_empty].
  - split; [|discriminate]. intros H. apply jsstring_eqb_eq in H. discriminate.
  - rewrite jsstring_eqb_eq. split; [intros ->; reflexivity|].
    intros H. injection H as -> ->. reflexivity.
  - split; [|discriminate]. intros H. apply jsstring_eqb_eq in H. discriminate.
Qed.

Lemma authOk_exact_bearer_witness :
  authOk (str "s3cret") {| authorization := Some (str "Bearer s3cret") |} = true
  /\ authOk (str "s3cret") {| authorization := Some (str "bearer s3cret") |} = false
  /\ authOk (str "s3cret") {| authorization := None |} = false.
Proof.
  split; [|split].
  - apply (authOk_exact_bearer (str "s3cret")
             {| authorization := Some (str "Bearer s3cret") |}).
    + discriminate.
    + reflexivity.
  - destruct (authOk (str "s3cret") {| authorization := Some (str "bearer s3cret") |})
      eqn:E; [|reflexivity].
    apply (authOk_exact_bearer (str "s3cret")) in E; [discriminate E|discriminate].
  - destruct (authOk (str "s3cret") {| authorization := None |})
      eqn:E; [|reflexivity].
    apply (authOk_exact_bearer (str "s3cret")) in E; [discriminate E|discriminate].
Defined.


(* ================================================================= *)
(** ** [toNumberOrNull] *)

(** Induction on a value through the items of an array and the
    properties of an object. *)
Lemma value_induction (P : value -> Prop) :
  P VUndefined -> P VNull -> (forall b, P (VBool b)) ->
  (forall x, P (VNumber x)) -> (forall s, P (VString s)) ->
  (forall items, Forall P items -> P (VArray items)) ->
  (forall props, Forall (fun kv => P (snd kv)) props -> P (VObject props)) ->
  forall v, P v.
Proof.
  intros Hu Hn Hb Hx Hs Ha Ho.
  fix IH 1. intros [| |b|x|s|items|props].
  - exact Hu.
  - exact Hn.
  - apply Hb.
  - apply Hx.
  - apply Hs.
  - apply Ha. induction items as [|i items IHi]; constructor.
    + apply IH.
    + exact IHi.
  - apply Ho. induction props as [|[k v] props IHp]; constructor.
    + apply IH.
    + exact IHp.
Qed.

Lemma finite_or_null_finite (x p : number) :
  finite_or_null x = Some p -> isFinite p = true.
Proof.
  unfold finite_or_null. destruct (isFinite x) eqn:E; [|discriminate].
  intros [= <-]. exact E.
Qed.

Lemma toNumberOrNull_some_finite (v : value) (p : number) :
  toNumberOrNull v = Return (Some p) -> isFinite p = true.
Proof.
  unfold toNumberOrNull. destruct (nullish v); [discriminate|].
  assert (G : forall s0 : jsstring,
    (let s := trim s0 in
     if is_empty s then Return None
     else
       let cleaned := remove_all not_digit_dot_comma s in
       if is_empty cleaned then Return None
       else Return (finite_or_null (Number_of_string (normalized_of cleaned))))
    = Return (Some p) -> isFinite p = true).
  { intros s0. cbv zeta. destruct (is_empty (trim s0)); [discriminate|].
    destruct (is_empty _); [discriminate|].
    intros [= H]. apply (finite_or_null_finite _ _ H). }
  destruct v; try (destruct (ToString _) as [s0|e]; [exact (G s0)|discriminate]).
  destruct (isFinite x) eqn:E; [|discriminate]. intros [= <-]. exact E.
Qed.

(** X4. A price returned by [toNumberOrNull] is a finite Number, for
    every input: a JSON number too large for binary64, and a text that
    reads as one, give no price rather than [Infinity]. *)
Theorem toNumberOrNull_finite (v : value) (p : number) :
  toNumberOrNull v = Return (Some p) -> isFinite p = true.
Proof. apply toNumberOrNull_some_finite. Qed.

Lemma toNumberOrNull_finite_witness :
  isFinite (of_decimal false 1999 (-2)) = true
  /\ toNumberOrNull (VString (str "1e400")) = Return (Some (of_decimal false 1400 0))
  /\ toNumberOrNull (VNumber (of_decimal false 1 400)) = Return None.
Proof.
  split; [|split; vm_compute; reflexivity].
  apply (toNumberOrNull_finite (VString (str "19,99"))).
  vm_compute. reflexivity.
Defined.

Lemma remove_all_plain_fixed (t : jsstring) :
  forallb plain t = true -> remove_all not_digit_dot_comma t = t.
Proof.
  unfold remove_all. induction t as [|c t IH]; [reflexivity|].
  cbn [forallb filter]. intros H. apply andb_prop in H as [Hc Ht].
  unfold not_digit_dot_comma at 1. fold (plain c). rewrite Hc. cbn [negb].
  rewrite (IH Ht). reflexivity.
Qed.

Lemma cleaned_of_plain (t : jsstring) :
  forallb plain t = true -> cleaned_of t = t.
Proof.
  intros H. unfold cleaned_of. rewrite (trim_plain t H).
  apply remove_all_plain_fixed, H.
Qed.

Lemma cleaned_of_idempotent (s : jsstring) :
  cleaned_of (cleaned_of s) = cleaned_of s.
Proof. apply cleaned_of_plain, plain_cleaned_of. Qed.

Lemma toNumberOrNull_plain (t : jsstring) :
  forallb plain t = true ->
  toNumberOrNull (VString t)
  = Return (if is_empty t then None
            else finite_or_null (Number_of_string (normalized_of t))).
Proof.
  intros H. rewrite toNumberOrNull_of_string, (cleaned_of_plain t H),
    (trim_plain t H).
  destruct (is_empty t); reflexivity.
Qed.

(** The sign of a rounded Number is the sign asked for. *)
Lemma binary_round_aux_sign (sx : bool) (mx ex : Z) (lx : location) :
  negative (binary_round_aux prec emax sx mx ex lx) = sx
  \/ binary_round_aux prec emax sx mx ex lx = S754_nan.
Proof.
  unfold binary_round_aux.
  destruct (shr_fexp prec emax mx ex lx) as [m1 e1].
  destruct (shr_fexp prec emax _ e1 loc_Exact) as [m2 e2].
  destruct (shr_m m2); [left; reflexivity| |right; reflexivity].
  destruct (Z.leb e2 _); left; reflexivity.
Qed.

Lemma of_decimal_not_negative (m : N) (e : Z) :
  negative (of_decimal false m e) = false.
Proof.
  unfold of_decimal. destruct m as [|p]; [reflexivity|].
  destruct (Z.leb 0 e).
  - unfold binary_round. destruct (shl_align _ _ _) as [mz ez].
    destruct (binary_round_aux_sign false (Zpos mz) ez loc_Exact) as [H|H];
      rewrite H; reflexivity.
  - unfold SFdiv. destruct (SFdiv_core_binary _ _ _ _ _ _) as [[mz ez] lz].
    destruct (binary_round_aux_sign (xorb false false) mz ez lz) as [H|H];
      rewrite H; reflexivity.
Qed.

Lemma Number_of_string_plain_not_negative (t : jsstring) :
  forallb plain t = true -> negative (Number_of_string t) = false.
Proof.
  intros H. destruct t as [|c t]; [reflexivity|].
  rewrite (Number_of_string_plain (c :: t) H) by discriminate.
  destruct (unsigned_decimal (c :: t)) as [[m e]|]; [|reflexivity].
  apply of_decimal_not_negative.
Qed.

Lemma replace_absent (x y : N) (t : jsstring) :
  existsb (N.eqb x) t = false -> replace t [x] [y] = t.
Proof.
  induction t as [|c t IH]; [reflexivity|]. cbn [existsb].
  intros H. apply orb_false_elim in H as [Hc Ht].
  cbn [replace starts_with]. rewrite Hc. cbn [andb]. f_equal. apply IH, Ht.
Qed.

Lemma replace_no_comma (t : jsstring) :
  existsb is_comma t = false -> replace t (str ",") (str ".") = t.
Proof.
  intros H. apply (replace_absent 0x2C%N 0x2E%N).
  rewrite existsb_comma_sym. exact H.
Qed.

Lemma replace_keeps_plain (t : jsstring) :
  forallb plain t = true ->
  forallb plain (replace t (str ",") (str ".")) = true.
Proof.
  intros H. destruct (existsb is_comma t) eqn:E.
  - destruct (replace_first_comma t E) as (a & b & -> & _ & ->).
    apply forallb_plain_app in H as [Ha Hb]. simpl in Hb.
    rewrite forallb_app. cbn [forallb]. rewrite Ha, Hb. reflexivity.
  - rewrite (replace_no_comma t E). exact H.
Qed.

Lemma normalized_of_plain (t : jsstring) :
  forallb plain t = true -> forallb plain (normalized_of t) = true.
Proof.
  intros H. unfold normalized_of.
  destruct (_ && _).
  - destruct (Z.gtb _ _).
    + change (JsString.eqb (str ",") (str ",")) with true. cbv iota.
      apply replace_keeps_plain, remove_all_plain, H.
    + change (JsString.eqb (str ".") (str ",")) with false. cbv iota.
      change (str ".") with [0x2E%N]. rewrite replace_same.
      apply remove_all_plain, H.
  - apply replace_keeps_plain, H.
Qed.

(** X5. For a string, [toNumberOrNull] looks only at its digits,
    periods and commas: the result is that of the string with every
    other code unit removed.  So a minus sign, an exponent letter or a
    currency word has no effect, and the price is never negative. *)
Theorem toNumberOrNull_sees_digits_only (s : jsstring) :
  toNumberOrNull (VString s) = toNumberOrNull (VString (cleaned_of s))
  /\ (forall p, toNumberOrNull (VString s) = Return (Some p) ->
                negative p = false).
Proof.
  split.
  - rewrite (toNumberOrNull_plain (cleaned_of s) (plain_cleaned_of s)).
    rewrite toNumberOrNull_of_string.
    destruct (is_empty (trim s)) eqn:E; [|reflexivity].
    unfold cleaned_of. destruct (trim s); [reflexivity|discriminate].
  - intros p. rewrite toNumberOrNull_of_string.
    destruct (is_empty (trim s)); [discriminate|].
    destruct (is_empty (cleaned_of s)); [discriminate|].
    unfold finite_or_null. destruct (isFinite _); [|discriminate].
    intros [= <-]. apply Number_of_string_plain_not_negative.
    apply normalized_of_plain, plain_cleaned_of.
Qed.

Lemma toNumberOrNull_sees_digits_only_witness :
  toNumberOrNull (VString (str "-5")) = Return (Some five)
  /\ negative five = false.
Proof.
  destruct (toNumberOrNull_sees_digits_only (str "-5")) as [H1 H2].
  split; [rewrite H1; vm_compute; reflexivity|].
  apply H2. vm_compute. reflexivity.
Defined.

Lemma ToString_unprintable (v : value) :
  (unprintable v = true -> ToString v = Throw TypeError)
  /\ (unprintable v = false -> exists s, ToString v = Return s).
Proof.
  induction v as [| |b|x|s|items IH|props IH] using value_induction;
    try (split; [discriminate|intros _; eexists; reflexivity]).
  - split; [discriminate|]. intros _. destruct b; eexists; reflexivity.
  - cbn [unprintable ToString].
    induction items as [|x rest IHr]; [split; [discriminate|eexists; reflexivity]|].
    inversion IH as [|? ? [Hx1 Hx2] Hrest]; subst.
    specialize (IHr Hrest). destruct IHr as [R1 R2].
    cbn [existsb]. destruct (unprintable x) eqn:Ux; cbn [orb].
    + split; [|discriminate]. intros _.
      assert (nullish x = false) as -> by (destruct x; try discriminate; reflexivity).
      rewrite (Hx1 eq_refl). reflexivity.
    + assert (Sx : exists s, (if nullish x then Return [] else ToString x)
                             = Return s).
      { destruct (nullish x); [eexists; reflexivity|apply Hx2; reflexivity]. }
      destruct Sx as [s Sx]. rewrite Sx. cbn [bind].
      destruct rest as [|y rest']; [split; [discriminate|eexists; reflexivity]|].
      split.
      * intros H. rewrite (R1 H). reflexivity.
      * intros H. destruct (R2 H) as [t ->]. eexists. reflexivity.
  - cbn [unprintable ToString]. destruct (has_own props (str "toString"));
      split; try discriminate; intros _; [reflexivity|eexists; reflexivity].
Qed.

Lemma toNumberOrNull_by_text (v : value) :
  nullish v = false -> (forall x, v <> VNumber x) ->
  toNumberOrNull v = (s <- ToString v ;; toNumberOrNull (VString s)).
Proof.
  intros Hn Hx. unfold toNumberOrNull. rewrite Hn. cbn [nullish ToString].
  destruct v as [| |b|x|s|items|props]; try discriminate Hn;
    try reflexivity.
  all: try (exfalso; apply (Hx x); reflexivity).
  all: try (destruct b; reflexivity).
  all: destruct (ToString _); reflexivity.
Qed.

(** X6. [toNumberOrNull] throws exactly when [String] does: on an object
    with a property [toString] of its own, and on an array that holds
    such an object among its items at any depth; what it throws is a
    TypeError.  On every other value it returns: a primitive value never
    throws, an object without [toString] of its own gives no price, and
    an array gives the price of its joined text, so an array of one
    string gives the price of that string. *)
Theorem toNumberOrNull_throws_only_on_objects (v : value) :
  (primitive v = true -> exists p, toNumberOrNull v = Return p)
  /\ (unprintable v = true -> toNumberOrNull v = Throw TypeError)
  /\ (unprintable v = false -> exists p, toNumberOrNull v = Return p)
  /\ (forall props,
        v = VObject props -> has_own props (str "toString") = false ->
        toNumberOrNull v = Return None)
  /\ (forall items,
        v = VArray items ->
        toNumberOrNull v = (s <- ToString v ;; toNumberOrNull (VString s)))
  /\ (forall s, v = VArray [VString s] ->
                toNumberOrNull v = toNumberOrNull (VString s)).
Proof.
  assert (R : unprintable v = false -> exists p, toNumberOrNull v = Return p).
  { intros H. destruct (ToString_unprintable v) as [_ S].
    destruct (S H) as [s Hs].
    destruct (nullish v) eqn:N.
    - unfold toNumberOrNull. rewrite N. eexists. reflexivity.
    - destruct v; try (rewrite toNumberOrNull_by_text;
                       [rewrite Hs; apply toNumberOrNull_string|exact N
                       |discriminate]).
      eexists. reflexivity. }
  split; [|split; [|split; [|split; [|split]]]].
  - intros H. apply R. destruct v; try discriminate; reflexivity.
  - intros H. destruct (ToString_unprintable v) as [S _].
    rewrite toNumberOrNull_by_text.
    + rewrite (S H). reflexivity.
    + destruct v; try discriminate; reflexivity.
    + intros x ->. discriminate.
  - exact R.
  - intros props -> H. unfold toNumberOrNull. cbn [nullish ToString].
    rewrite H. vm_compute. reflexivity.
  - intros items ->. apply toNumberOrNull_by_text; [reflexivity|discriminate].
  - intros s ->. rewrite toNumberOrNull_by_text; [|reflexivity|discriminate].
    reflexivity.
Qed.

Lemma toNumberOrNull_throws_only_on_objects_witness :
  (exists p, toNumberOrNull (VBool true) = Return p)
  /\ toNumberOrNull (VArray [VObject [(str "toString", VNull)]]) = Throw TypeError
  /\ toNumberOrNull (VObject [(str "amount", VString (str "5"))]) = Return None
  /\ toNumberOrNull (VArray [VString (str "19,99")])
     = Return (Some (of_decimal false 1999 (-2))).
Proof.
  split; [|split; [|split]].
  - apply (toNumberOrNull_throws_only_on_objects (VBool true)). reflexivity.
  - apply (toNumberOrNull_throws_only_on_objects
             (VArray [VObject [(str "toString", VNull)]])). reflexivity.
  - destruct (toNumberOrNull_throws_only_on_objects
                (VObject [(str "amount", VString (str "5"))]))
      as (_ & _ & _ & H & _).
    apply (H _ eq_refl). reflexivity.
  - destruct (toNumberOrNull_throws_only_on_objects
                (VArray [VString (str "19,99")]))
      as (_ & _ & _ & _ & _ & H).
    rewrite (H _ eq_refl). vm_compute. reflexivity.
Defined.

Lemma digits_plain (ds : jsstring) :
  forallb is_digit ds = true -> forallb plain ds = true.
Proof.
  intros H. apply forallb_forall. intros c Hc.
  rewrite forallb_forall in H. unfold plain. rewrite (H c Hc). reflexivity.
Qed.

Lemma digits_no_period_in (ds : jsstring) :
  forallb is_digit ds = true -> existsb is_period ds = false.
Proof.
  intros H. destruct (existsb is_period ds) eqn:E; [|reflexivity].
  apply existsb_filter_nonempty in E.
  rewrite (digits_no_period ds H) in E. simpl in E. lia.
Qed.

(** X7. A lone comma counts as the decimal point, never as a thousands
    mark: for runs of digits [a] and [b], the text [a,b] gives the same
    price as [a.b], the Number read from [a.b]. *)
Theorem toNumberOrNull_lone_comma (a b : jsstring) :
  forallb is_digit a = true -> forallb is_digit b = true ->
  toNumberOrNull (VString (a ++ str "," ++ b))
  = toNumberOrNull (VString (a ++ str "." ++ b))
  /\ toNumberOrNull (VString (a ++ str "," ++ b))
     = Return (finite_or_null (Number_of_string (a ++ str "." ++ b))).
Proof.
  intros Ha Hb.
  pose proof (digits_plain a Ha) as Pa. pose proof (digits_plain b Hb) as Pb.
  assert (P1 : forallb plain (a ++ str "," ++ b) = true).
  { rewrite forallb_app. cbn [app str List.map list_ascii_of_string forallb].
    rewrite Pa, Pb. reflexivity. }
  assert (P2 : forallb plain (a ++ str "." ++ b) = true).
  { rewrite forallb_app. cbn [app str List.map list_ascii_of_string forallb].
    rewrite Pa, Pb. reflexivity. }
  assert (N1 : normalized_of (a ++ str "," ++ b) = a ++ str "." ++ b).
  { unfold normalized_of. rewrite lastIndexOf_period.
    assert (D : existsb is_period (a ++ str "," ++ b) = false).
    { rewrite existsb_app. cbn [app str List.map list_ascii_of_string existsb].
      rewrite (digits_no_period_in a Ha), (digits_no_period_in b Hb).
      reflexivity. }
    apply last_position_none in D. rewrite D, andb_false_r.
    apply (replace_first_char 0x2C%N 0x2E%N).
    rewrite existsb_comma_sym. apply digits_no_comma, Ha. }
  assert (N2 : normalized_of (a ++ str "." ++ b) = a ++ str "." ++ b).
  { unfold normalized_of. rewrite lastIndexOf_comma.
    assert (C : existsb is_comma (a ++ str "." ++ b) = false).
    { rewrite existsb_app. cbn [app str List.map list_ascii_of_string existsb].
      rewrite (digits_no_comma a Ha), (digits_no_comma b Hb). reflexivity. }
    pose proof C as C'. apply last_position_none in C'. rewrite C'.
    cbn [negb andb Z.eqb]. apply replace_no_comma, C. }
  rewrite (toNumberOrNull_plain _ P1), (toNumberOrNull_plain _ P2), N1, N2.
  assert (E1 : is_empty (a ++ str "," ++ b) = false) by (destruct a; reflexivity).
  assert (E2 : is_empty (a ++ str "." ++ b) = false) by (destruct a; reflexivity).
  rewrite E1, E2. split; reflexivity.
Qed.

Lemma toNumberOrNull_lone_comma_witness :
  toNumberOrNull (VString (str "1,234"))
  = Return (Some (of_decimal false 1234 (-3))).
Proof.
  destruct (toNumberOrNull_lone_comma (str "1") (str "234")) as [_ H];
    [reflexivity|reflexivity|].
  change (str "1" ++ str "," ++ str "234") with (str "1,234") in H.
  rewrite H. vm_compute. reflexivity.
Defined.

(* ================================================================= *)
(** ** [extractCurrencyLoose] *)

Lemma includes_embedded (a s b w : jsstring) :
  includes s w = true -> includes (a ++ s ++ b) w = true.
Proof.
  intros H. apply includes_split in H as (a' & b' & ->).
  replace (a ++ (a' ++ w ++ b') ++ b) with ((a ++ a') ++ w ++ (b' ++ b))
    by (rewrite <- !app_assoc; reflexivity).
  apply includes_app.
Qed.

Lemma rule_matches_embedded (a s b : jsstring) (r : currency_rule) :
  rule_matches s r = true -> rule_matches (a ++ s ++ b) r = true.
Proof.
  unfold rule_matches. intros H. apply orb_prop in H as [H|H].
  - rewrite !toUpperCase_app, (includes_embedded _ _ _ _ H). reflexivity.
  - rewrite (includes_embedded _ _ _ _ H). apply orb_true_r.
Qed.

(** X8. The result of [extractCurrencyLoose] is absent or one of the
    three codes EUR, USD and GBP.  Detection survives surrounding text:
    a text in which a code is found still gives a code when other text is
    put before and after it, and gives EUR again when it gave EUR. *)
Theorem extractCurrencyLoose_embedded (a s b : jsstring) :
  (forall c, extractCurrencyLoose s = Some c ->
             c = str "EUR" \/ c = str "USD" \/ c = str "GBP")
  /\ (extractCurrencyLoose s = Some (str "EUR") ->
      extractCurrencyLoose (a ++ s ++ b) = Some (str "EUR"))
  /\ (extractCurrencyLoose s <> None ->
      extractCurrencyLoose (a ++ s ++ b) <> None).
Proof.
  rewrite !extractCurrencyLoose_first_match. unfold currency_rules, first_match.
  cbn [rule_code].
  set (eur := {| rule_code := str "EUR"; rule_word := str "EUR";
                 rule_sign := euro_sign |}).
  set (usd := {| rule_code := str "USD"; rule_word := str "USD";
                 rule_sign := str "$" |}).
  set (gbp := {| rule_code := str "GBP"; rule_word := str "GBP";
                 rule_sign := pound_sign |}).
  pose proof (rule_matches_embedded a s b eur) as Me.
  pose proof (rule_matches_embedded a s b usd) as Mu.
  pose proof (rule_matches_embedded a s b gbp) as Mg.
  destruct (rule_matches s eur) eqn:E1.
  { rewrite (Me eq_refl). split; [|split].
    - intros c [= <-]. auto.
    - reflexivity.
    - discriminate. }
  destruct (rule_matches s usd) eqn:E2.
  { rewrite (Mu eq_refl). split; [|split].
    - intros c [= <-]. auto.
    - intros H. cbv in H. discriminate H.
    - intros _. destruct (rule_matches (a ++ s ++ b) eur); discriminate. }
  destruct (rule_matches s gbp) eqn:E3.
  { rewrite (Mg eq_refl). split; [|split].
    - intros c [= <-]. auto.
    - intros H. cbv in H. discriminate H.
    - intros _. destruct (rule_matches (a ++ s ++ b) eur); [discriminate|].
      destruct (rule_matches (a ++ s ++ b) usd); discriminate. }
  split; [|split].
  - discriminate.
  - discriminate.
  - intros H. exfalso. apply H. reflexivity.
Qed.

Lemma extractCurrencyLoose_embedded_witness :
  extractCurrencyLoose (str "from " ++ str "19 eur" ++ str " or $20")
  = Some (str "EUR").
Proof.
  destruct (extractCurrencyLoose_embedded (str "from ") (str "19 eur")
              (str " or $20")) as (_ & H & _).
  apply H. reflexivity.
Defined.


(* ================================================================= *)
(** ** [flattenJsonLd] *)

Lemma get_in_props (props : list (jsstring * value)) (key : jsstring) :
  get (VObject props) key = VUndefined
  \/ exists k, In (k, get (VObject props) key) props.
Proof.
  unfold get. induction props as [|[k v] rest IH]; [left; reflexivity|].
  cbn [own_property]. destruct (JsString.eqb k key).
  - right. exists k. left. reflexivity.
  - destruct IH as [IH|[k' IH]]; [left; exact IH|].
    right. exists k'. right. exact IH.
Qed.

Lemma walk_array (items : list value) :
  walk (VArray items) = flat_map walk items.
Proof. reflexivity. Qed.

Lemma walk_sound (v : value) : forall n, In n (walk v) -> reachable v n.
Proof.
  induction v as [| | | | |items IH|props IH] using value_induction;
    intros n Hn; try (simpl in Hn; destruct Hn; fail).
  - simpl in Hn. destruct b; destruct Hn.
  - simpl in Hn. destruct (number_truthy x); destruct Hn.
  - simpl in Hn. destruct (negb (is_empty s)); destruct Hn.
  - rewrite walk_array in Hn. apply in_flat_map in Hn as (x & Hx & Hn).
    rewrite Forall_forall in IH. apply (reach_item items x n Hx).
    apply (IH x Hx n Hn).
  - rewrite walk_object in Hn. cbv zeta in Hn.
    destruct Hn as [<-|Hn]; [apply reach_here|].
    assert (K : forall key, In key walked_keys ->
                In n (walk (get (VObject props) key)) ->
                reachable (VObject props) n).
    { intros key Hk Hin. apply (reach_key props key n Hk).
      destruct (get_in_props props key) as [E|[k E]].
      - rewrite E in Hin. destruct Hin.
      - rewrite Forall_forall in IH. apply (IH _ E n Hin). }
    rewrite !in_app_iff in Hn.
    destruct Hn as [Hn|[Hn|[Hn|[Hn|Hn]]]];
      (eapply K; [|exact Hn]); simpl; tauto.
Qed.

Lemma walk_complete (v n : value) : reachable v n -> In n (walk v).
Proof.
  induction 1 as [props|items x n Hx _ IH|props key n Hk _ IH].
  - rewrite walk_object. left. reflexivity.
  - rewrite walk_array. apply in_flat_map. exists x. split; assumption.
  - rewrite walk_object. cbv zeta. right.
    simpl in Hk. rewrite !in_app_iff.
    destruct Hk as [<-|[<-|[<-|[<-|[<-|[]]]]]]; tauto.
Qed.

Lemma reachable_object (v n : value) :
  reachable v n -> exists props, n = VObject props.
Proof. induction 1; eauto. Qed.

Lemma each_cases {A : Type} (f : A -> completion (list value))
  (g : A -> list value) (xs : list A) :
  (forall x, In x xs -> f x = Return (g x) \/ f x = Throw RangeError) ->
  each f xs = Return (flat_map g xs) \/ each f xs = Throw RangeError.
Proof.
  induction xs as [|x rest IH]; intros H; [left; reflexivity|].
  cbn [each flat_map].
  destruct (H x (or_introl eq_refl)) as [-> | ->]; [|right; reflexivity].
  destruct IH as [-> | ->]; [intros y Hy; apply H; right; exact Hy| |];
    [left|right]; reflexivity.
Qed.

Lemma each_returns {A : Type} (f : A -> completion (list value))
  (g : A -> list value) (xs : list A) :
  (forall x, In x xs -> f x = Return (g x)) ->
  each f xs = Return (flat_map g xs).
Proof.
  induction xs as [|x rest IH]; intros H; [reflexivity|].
  cbn [each flat_map]. rewrite (H x (or_introl eq_refl)), IH; [reflexivity|].
  intros y Hy. apply H. right. exact Hy.
Qed.

Lemma walk_keys (props : list (jsstring * value)) :
  walk (VObject props)
  = VObject props
      :: flat_map (fun key => walk (get (VObject props) key)) walked_keys.
Proof.
  rewrite walk_object. cbv zeta. cbn [flat_map walked_keys].
  rewrite app_nil_r. reflexivity.
Qed.

Lemma walk_primitive (v : value) : primitive v = true -> walk v = [].
Proof.
  destruct v; try discriminate; intros _; try reflexivity.
  - destruct b; reflexivity.
  - simpl. destruct (number_truthy x); reflexivity.
  - simpl. destruct (negb (is_empty s)); reflexivity.
Qed.

(** On a bounded stack [walk] gives what it gives on an unbounded one, or
    overflows. *)
Lemma walk_within_cases (stack : nat) :
  forall v, walk_within stack v = Return (walk v)
            \/ walk_within stack v = Throw RangeError.
Proof.
  induction stack as [|room IH]; intros v; [right; reflexivity|].
  cbn [walk_within]. destruct (truthy v) eqn:T; cbn [negb].
  2:{ left. rewrite (walk_falsy v T). reflexivity. }
  destruct v as [| |b|x|s|items|props];
    try (left; rewrite walk_primitive; reflexivity).
  - rewrite walk_array. apply each_cases. intros x _. apply IH.
  - rewrite walk_keys.
    destruct (each_cases
                (fun key => if truthy (get (VObject props) key)
                            then walk_within room (get (VObject props) key)
                            else Return [])
                (fun key => walk (get (VObject props) key)) walked_keys)
      as [-> | ->]; [|left; reflexivity|right; reflexivity].
    intros key _. destruct (truthy (get (VObject props) key)) eqn:Tk.
    + apply IH.
    + left. rewrite (walk_falsy _ Tk). reflexivity.
Qed.

Lemma each_more {A : Type} (f f' : A -> completion (list value))
  (xs : list A) (l : list value) :
  (forall x a, In x xs -> f x = Return a -> f' x = Return a) ->
  each f xs = Return l -> each f' xs = Return l.
Proof.
  revert l. induction xs as [|x rest IH]; intros l H; [auto|].
  cbn [each]. unfold bind.
  destruct (f x) as [a|e] eqn:Fx; [|discriminate].
  destruct (each f rest) as [b|e] eqn:Fr; [|discriminate].
  intros [= <-]. rewrite (H x a (or_introl eq_refl) Fx).
  rewrite (IH b); [reflexivity| |reflexivity].
  intros y c Hy. apply H. right. exact Hy.
Qed.

Lemma walk_within_S (room : nat) (node : value) :
  walk_within (S room) node
  = if negb (truthy node) then Return []
    else
      match node with
      | VArray items => each (walk_within room) items
      | VObject _ =>
          below <- each (fun key =>
                           if truthy (get node key)
                           then walk_within room (get node key)
                           else Return [])
                        walked_keys ;;
          Return (node :: below)
      | _ => Return []
      end.
Proof. reflexivity. Qed.

Lemma walk_within_step (stack : nat) :
  forall v l, walk_within stack v = Return l ->
              walk_within (S stack) v = Return l.
Proof.
  induction stack as [|room IH]; intros v l; [discriminate|].
  rewrite (walk_within_S (S room)), (walk_within_S room).
  destruct (negb (truthy v)); [auto|].
  destruct v as [| |b|x|s|items|props]; auto.
  - apply each_more. intros x a _. apply IH.
  - unfold bind.
    destruct (each _ walked_keys) as [below|e] eqn:B; [|discriminate].
    intros [= <-].
    assert (B' : each (fun key =>
                         if truthy (get (VObject props) key)
                         then walk_within (S room) (get (VObject props) key)
                         else Return [])
                      walked_keys
                 = Return below).
    { revert B. apply each_more. intros key a _.
      destruct (truthy _); [apply IH|auto]. }
    rewrite B'. reflexivity.
Qed.

Lemma walk_within_more (stack stack' : nat) (v : value) (l : list value) :
  stack <= stack' -> walk_within stack v = Return l ->
  walk_within stack' v = Return l.
Proof.
  induction 1 as [|m _ IH]; [auto|].
  intros H. apply walk_within_step, IH, H.
Qed.

(** A stack deep enough for every value of a list. *)
Lemma enough_for_all {A : Type} (val : A -> value) (xs : list A) :
  Forall (fun x => exists s, walk_within s (val x) = Return (walk (val x))) xs ->
  exists s, forall x, In x xs ->
                      walk_within s (val x) = Return (walk (val x)).
Proof.
  induction 1 as [|x rest [s Hs] _ [s' IH]].
  - exists 0. intros x [].
  - exists (Nat.max s s'). intros y [<-|Hy].
    + apply (walk_within_more s); [lia|exact Hs].
    + apply (walk_within_more s'); [lia|apply IH, Hy].
Qed.

Lemma walk_within_enough (v : value) :
  exists s, walk_within s v = Return (walk v).
Proof.
  induction v as [| |b|x|s|items IH|props IH] using value_induction;
    try (exists 1; cbn [walk_within];
         match goal with
         | |- (if ?c then _ else _) = _ => destruct c eqn:T
         end; rewrite walk_primitive; reflexivity).
  - destruct (enough_for_all (fun x => x) items IH) as [s Hs].
    exists (S s). cbn [walk_within truthy negb]. rewrite walk_array.
    apply each_returns, Hs.
  - destruct (enough_for_all snd props IH) as [s Hs].
    exists (S s). cbn [walk_within truthy negb]. rewrite walk_keys.
    rewrite (each_returns _ (fun key => walk (get (VObject props) key)));
      [reflexivity|].
    intros key _. destruct (truthy (get (VObject props) key)) eqn:T.
    + destruct (get_in_props props key) as [E|[k E]].
      * rewrite E in T. discriminate.
      * apply (Hs _ E).
    + rewrite (walk_falsy _ T). reflexivity.
Qed.

Lemma walk_within_nested (stack : nat) :
  walk_within stack (nested stack) = Throw RangeError.
Proof.
  induction stack as [|room IH]; [reflexivity|].
  cbn [walk_within nested truthy negb each]. rewrite IH. reflexivity.
Qed.

(** X9. Whenever [flattenJsonLd] returns, it lists exactly the objects
    that are the input or lie under it through array items and the
    properties [@graph], [graph], [mainEntity], [itemListElement] and
    [offers]: nothing under another property, and never an array, a
    string, a number, a boolean or [null].  It returns as soon as the
    call stack has room for the nesting of the input, with the list of
    the unbounded walk; on a stack too small for the nesting it throws a
    RangeError and nothing else, and for every stack there is a payload
    nested too deep for it. *)
Theorem flattenJsonLd_reachable (input : value) :
  (exists enough, forall stack,
      enough <= stack ->
      flattenJsonLd_within stack input = Return (flattenJsonLd input))
  /\ (forall stack nodes,
        flattenJsonLd_within stack input = Return nodes ->
        nodes = flattenJsonLd input
        /\ forall n, (In n nodes <-> reachable input n)
                     /\ (In n nodes -> exists props, n = VObject props))
  /\ (forall stack e,
        flattenJsonLd_within stack input = Throw e -> e = RangeError)
  /\ (forall stack,
        flattenJsonLd_within stack (nested stack) = Throw RangeError).
Proof.
  unfold flattenJsonLd_within, flattenJsonLd.
  split; [|split; [|split]].
  - destruct (walk_within_enough input) as [s Hs]. exists s.
    intros stack H. apply (walk_within_more s); assumption.
  - intros stack nodes H.
    assert (E : nodes = walk input).
    { destruct (walk_within_cases stack input) as [R|R]; congruence. }
    subst nodes. split; [reflexivity|]. intros n. split.
    + split; [apply walk_sound|apply walk_complete].
    + intros Hn. apply (reachable_object input n), walk_sound, Hn.
  - intros stack e H.
    destruct (walk_within_cases stack input) as [R|R]; congruence.
  - apply walk_within_nested.
Qed.

Lemma flattenJsonLd_reachable_witness :
  flattenJsonLd_within 4 listed_offer
  = Return [VObject [(str "offers",
                      VArray [VObject [(str "price", VString (str "5"))]])];
            VObject [(str "price", VString (str "5"))]]
  /\ reachable listed_offer (VObject [(str "price", VString (str "5"))])
  /\ flattenJsonLd_within 3 listed_offer = Throw RangeError.
Proof.
  split; [reflexivity|]. split; [|reflexivity].
  destruct (flattenJsonLd_reachable listed_offer) as (_ & H & _).
  destruct (H 4 _ eq_refl) as [_ R].
  apply (R (VObject [(str "price", VString (str "5"))])).
  right. left. reflexivity.
Defined.


(* ================================================================= *)
(** ** [isType] and the choice of candidates *)







Lemma filter_isType_spec (nodes : list value) (t : jsstring)
  (kept : list value) :
  filter_isType nodes t = Return kept ->
  kept = filter (is_a t) nodes
  /\ (forall n, In n nodes -> exists b, isType n t = Return b).
Proof.
  revert kept. induction nodes as [|n rest IH]; intros kept H.
  - injection H as <-. split; [reflexivity|]. intros n [].
  - cbn [filter_isType] in H. unfold bind in H.
    destruct (isType n t) as [b|e] eqn:E; [|discriminate].
    destruct (filter_isType rest t) as [k|e]; [|discriminate].
    destruct (IH k eq_refl) as [-> Hall]. injection H as <-.
    split.
    + cbn [filter].
      assert (is_a t n = b) as ->
        by (unfold is_a; rewrite E; destruct b; reflexivity).
      reflexivity.
    + intros m [<-|Hm]; [eauto|apply Hall, Hm].
Qed.

(** X11. The candidates of a script are objects lying in its parsed
    payload as [flattenJsonLd] lists them, and they are either exactly
    the listed nodes that are a Product, in their order, or, when no
    listed node is a Product, all the listed nodes. *)
Theorem candidates_are_products_or_all (raw : jsstring) (cs : list value) :
  candidates_of raw = Return cs ->
  exists json,
    JSON_parse raw = Return json
    /\ (forall n, In n cs -> reachable json n)
    /\ ((cs <> [] /\ cs = filter (is_a (str "Product")) (flattenJsonLd json))
        \/ (cs = flattenJsonLd json
            /\ forall n, In n cs -> isType n (str "Product") = Return false)).
Proof.
  unfold candidates_of, bind.
  destruct (JSON_parse raw) as [json|e]; [|discriminate].
  destruct (filter_isType (flattenJsonLd json) (str "Product")) as [products|e]
    eqn:F; [|discriminate].
  intros [= <-]. exists json. split; [reflexivity|].
  destruct (filter_isType_spec _ _ _ F) as [Hk Hall].
  destruct products as [|p ps].
  - split; [intros n Hn; apply walk_sound, Hn|]. right.
    split; [reflexivity|]. intros n Hn.
    destruct (Hall n Hn) as [[|] Hb]; [|exact Hb].
    exfalso. assert (In n (filter (is_a (str "Product")) (flattenJsonLd json))).
    { apply filter_In. split; [exact Hn|]. unfold is_a. rewrite Hb. reflexivity. }
    rewrite <- Hk in H. destruct H.
  - split.
    + intros n Hn. apply walk_sound. rewrite Hk in Hn.
      apply filter_In in Hn as [Hn _]. exact Hn.
    + left. split; [discriminate|exact Hk].
Qed.

Lemma candidates_are_products_or_all_witness :
  exists json,
    JSON_parse lamp_payload = Return json
    /\ (forall n, In n [lamp] -> reachable json n)
    /\ (([lamp] <> []
         /\ [lamp] = filter (is_a (str "Product")) (flattenJsonLd json))
        \/ ([lamp] = flattenJsonLd json
            /\ forall n, In n [lamp] ->
                         isType n (str "Product") = Return false)).
Proof.
  apply (candidates_are_products_or_all lamp_payload).
  vm_compute. reflexivity.
Defined.


(* ================================================================= *)
(** ** The scan of the JSON-LD scripts *)

Lemma candidate_body_priced (st0 : ProductRecord) (n : value) :
  not_null (price st0) = true ->
  preserves (fun st => price st = price st0 /\ currency st = currency st0)
            (candidate_body n).
Proof.
  intros H st [Hp Hc].
  assert (H' : not_null (price st) = true) by (rewrite Hp; exact H).
  pose proof (candidate_body_price_kept n st H') as P1.
  pose proof (candidate_body_currency n st) as (C1 & _).
  specialize (C1 H'). split; congruence.
Qed.

(** X12. Through the whole scan of the scripts of a page the first value
    wins: a title, image, price or currency that is set is never
    replaced by a later candidate or a later script; and once a price is
    set no currency is taken any more, also from a later script. *)
Theorem scan_first_value_wins (scripts : list jsstring) (st : ProductRecord) :
  kept st (fst (scan_scripts scripts st))
  /\ (not_null (price st) = true ->
      currency (fst (scan_scripts scripts st)) = currency st).
Proof.
  split.
  - apply scan_scripts_preserves; [|apply kept_refl].
    intros n. apply candidate_body_kept.
  - intros H.
    apply (scan_scripts_preserves
             (fun s => price s = price st /\ currency s = currency st));
      [|split; reflexivity].
    intros n. apply candidate_body_priced, H.
Qed.

Lemma scan_first_value_wins_witness :
  price (fst (scan_scripts [lamp_payload] priced_only)) = Some five
  /\ currency (fst (scan_scripts [lamp_payload] priced_only)) = None.
Proof.
  destruct (scan_first_value_wins [lamp_payload] priced_only)
    as ((_ & _ & Hp & _) & Hc).
  split; [apply Hp|apply Hc]; reflexivity.
Defined.

(* ================================================================= *)
(** ** The record [parseFromHtml] returns *)

Lemma candidate_body_finite (n : value) :
  preserves finite_price (candidate_body n).
Proof.
  unfold candidate_body. repeat apply preserves_seq.
  - apply preserves_when, preserves_eval. intros s _ st H. exact H.
  - apply preserves_when, preserves_seq.
    + destruct (get n (str "image")); intros st H; exact H.
    + destruct (get n (str "image")); try (intros st H; exact H).
      destruct (first_item items); intros st H; exact H.
  - apply preserves_when, preserves_eval. intros p Hp.
    apply preserves_seq.
    + intros st _ x Hx. simpl in Hx. subst p.
      apply (toNumberOrNull_some_finite _ _ Hp).
    + apply preserves_eval. intros cur _.
      apply preserves_when. intros st H. exact H.
  - apply preserves_when, preserves_break.
Qed.

Lemma jsonld_pass_finite (html : document) :
  finite_price (fst (jsonld_pass html)).
Proof.
  apply (scan_scripts_preserves finite_price (scripts_of html)).
  - apply candidate_body_finite.
  - intros x H. discriminate.
Qed.

(** X13. Whatever the page, the record [parseFromHtml] returns has a
    title without white space at either end and a price that is absent
    or a finite Number, whether the price came from the structured data
    or from the meta tags. *)
Theorem parseFromHtml_record_shape (U : UrlApi) (url : jsstring)
  (html : document) (r : ProductRecord) :
  parseFromHtml url html = Return r ->
  trim (title r) = title r /\ finite_price r.
Proof.
  rewrite parseFromHtml_merge. unfold merge, bind.
  pose proof (jsonld_pass_finite html) as F.
  set (st := fst (jsonld_pass html)) in *.
  assert (T : forall a b : jsstring,
            trim (pickFirst [Some a; Some b]) = pickFirst [Some a; Some b])
    by (intros a b; apply pickFirst_trimmed).
  destruct (price st) as [p|] eqn:E; cbn [not_null].
  - intros [= <-]. cbn [title]. split; [apply T|].
    intros x Hx. cbn [price] in Hx. apply F. rewrite E. exact Hx.
  - destruct (toNumberOrNull (VString (metaPrice_of html))) as [q|e] eqn:Q;
      [|discriminate].
    intros [= <-]. cbn [title]. split; [apply T|].
    intros x Hx. cbn [price] in Hx. subst q.
    apply (toNumberOrNull_some_finite _ _ Q).
Qed.

Lemma parseFromHtml_record_shape_witness :
  exists r,
    @parseFromHtml UrlReference.reference shop_url (page_of_script lamp_payload)
    = Return r
    /\ trim (title r) = title r /\ finite_price r.
Proof.
  eexists. split; [vm_compute; reflexivity|].
  apply (parseFromHtml_record_shape UrlReference.reference shop_url
           (page_of_script lamp_payload)).
  vm_compute. reflexivity.
Defined.

(* ================================================================= *)
(** ** Scripts after a complete record *)

Lemma candidate_body_complete (n : value) (st : ProductRecord) :
  complete st = true -> candidate_body n st = (st, Broke).
Proof.
  intros H. pose proof H as H0. unfold complete in H.
  apply andb_prop in H as [H Hp]. apply andb_prop in H as [Ht Hi].
  unfold candidate_body, seq.
  assert (title_statement n st = (st, Normal)) as ->.
  { unfold title_statement, when. rewrite Ht. reflexivity. }
  assert (image_statement n st = (st, Normal)) as ->.
  { unfold image_statement, when. rewrite Hi. reflexivity. }
  destruct (offer_statement_spec n st) as (_ & O & _). rewrite (O Hp).
  rewrite break_statement_spec, H0. reflexivity.
Qed.

Lemma try_script_body_complete (raw : jsstring) (st : ProductRecord) :
  complete st = true -> try_ (script_body raw) st = (st, Normal).
Proof.
  intros H. unfold try_, script_body, eval.
  destruct (JSON_parse raw) as [json|e]; [|reflexivity].
  destruct (filter_isType _ _) as [products|e]; [|reflexivity].
  assert (G : forall cands, for_of candidate_body cands st = (st, Normal)).
  { intros [|n rest]; [reflexivity|]. simpl.
    rewrite (candidate_body_complete n st H). reflexivity. }
  rewrite G. reflexivity.
Qed.

Lemma scan_scripts_complete (scripts : list jsstring) (st : ProductRecord) :
  complete st = true -> scan_scripts scripts st = (st, Normal).
Proof.
  intros H. unfold scan_scripts.
  induction scripts as [|raw rest IH]; [reflexivity|].
  cbn [for_of]. rewrite (try_script_body_complete raw st H). exact IH.
Qed.

Lemma try_script_body_quiet (raw : jsstring) : quiet (try_ (script_body raw)).
Proof.
  apply try_quiet_of_no_break. intros st. apply script_body_no_break.
Qed.

Lemma scan_scripts_app (xs ys : list jsstring) (st : ProductRecord) :
  scan_scripts (xs ++ ys) st = scan_scripts ys (fst (scan_scripts xs st)).
Proof.
  unfold scan_scripts. revert st.
  induction xs as [|raw xs IH]; intros st; [reflexivity|].
  cbn [app for_of]. pose proof (try_script_body_quiet raw st) as Q.
  destruct (try_ (script_body raw) st) as [st' sg]. simpl in Q. subst sg.
  apply IH.
Qed.

(** X14. The scripts of a page are scanned one after the other, each
    from the variables the one before left, and no script stops the
    scan; but once title, image and price are all set, the scripts that
    follow change nothing, so the result is that of the scripts up to
    there. *)
Theorem scan_scripts_complete_prefix (xs ys : list jsstring)
  (st : ProductRecord) :
  scan_scripts (xs ++ ys) st = scan_scripts ys (fst (scan_scripts xs st))
  /\ (complete (fst (scan_scripts xs st)) = true ->
      scan_scripts (xs ++ ys) st = scan_scripts xs st).
Proof.
  split; [apply scan_scripts_app|].
  intros H. rewrite scan_scripts_app, (scan_scripts_complete ys _ H).
  pose proof (for_of_quiet (fun raw => try_ (script_body raw)) xs
                try_script_body_quiet st) as Q.
  unfold scan_scripts in *.
  destruct (for_of _ xs st) as [st' sg]. simpl in *. subst sg. reflexivity.
Qed.

Lemma scan_scripts_complete_prefix_witness :
  scan_scripts ([lamp_payload] ++ [chair_payload]) no_product
  = scan_scripts [lamp_payload] no_product.
Proof.
  apply (scan_scripts_complete_prefix [lamp_payload] [chair_payload] no_product).
  vm_compute. reflexivity.
Defined.


(* ================================================================= *)
(** ** The [/scrape] handler *)

Lemma ascii_upper_not_letter (c k : N) :
  ascii_upper c = k -> is_ascii_upper k = false -> c = k.
Proof.
  unfold ascii_upper. destruct (is_ascii_lower c) eqn:L; [|auto].
  intros <- H. exfalso. unfold is_ascii_lower in L.
  apply andb_prop in L as [L1 L2]. apply N.leb_le in L1, L2.
  apply andb_false_iff in H as [H|H]; apply N.leb_gt in H; lia.
Qed.

Lemma colon_slashes_fold (s : jsstring) :
  List.map ascii_upper s = str "://" -> s = str "://".
Proof.
  destruct s as [|a [|b [|c [|d s]]]]; try discriminate.
  intros H. injection H as Ha Hb Hc.
  apply ascii_upper_not_letter in Ha, Hb, Hc; try reflexivity.
  subst. reflexivity.
Qed.

Lemma folded_prefix (word u b : jsstring) :
  List.map ascii_upper u = List.map ascii_upper word ++ str "://" ++ b ->
  exists rest, u = firstn (List.length word) u ++ str "://" ++ rest
               /\ same_word (firstn (List.length word) u) word.
Proof.
  intros H. apply map_eq_app in H as (u1 & u2 & -> & H1 & H2).
  apply map_eq_app in H2 as (u3 & u4 & -> & H3 & _).
  apply colon_slashes_fold in H3. subst u3.
  assert (L : List.length u1 = List.length word).
  { apply (f_equal (@List.length _)) in H1. rewrite !length_map in H1. exact H1. }
  rewrite <- L, firstn_app, Nat.sub_diag, firstn_all, firstn_O, app_nil_r.
  exists u4. split; [reflexivity|exact H1].
Qed.

Lemma http_url_test_spec (u : jsstring) :
  http_url_test u = true <-> http_prefixed u.
Proof.
  unfold http_url_test, http_prefixed. cbv zeta. split.
  - intros H. apply orb_prop in H as [H|H];
      apply starts_with_split in H as [b H].
    + destruct (folded_prefix (str "http") u b H) as (rest & E & W).
      exists (firstn 4 u), rest. split; [exact E|left; exact W].
    + destruct (folded_prefix (str "https") u b H) as (rest & E & W).
      exists (firstn 5 u), rest. split; [exact E|right; exact W].
  - intros (scheme & rest & -> & [W|W]); unfold same_word in W;
      rewrite !map_app, W; apply orb_true_iff; [left|right].
    + apply (starts_with_app (str "HTTP://")).
    + apply (starts_with_app (str "HTTPS://")).
Qed.

Lemma parseFromHtml_returns (U : UrlApi) (url : jsstring) (html : document) :
  exists r, parseFromHtml url html = Return r.
Proof. rewrite parseFromHtml_merge. apply merge_returns. Qed.

(** X15. The handler answers 401 exactly when [authOk] fails, whatever
    the body; it answers 400 exactly when the request is authorized and
    the [url] of the body is not a string that begins with [http://] or
    [https://], the scheme in any letter case (no body, no [url], an
    empty one, a number, another scheme); and in both cases the answer
    is given without the browser and the page loader. *)
Theorem scrape_rejections (U : UrlApi) (TOKEN : jsstring)
  (browser : jsstring -> rendering) (load : jsstring -> document)
  (req : scrape_request) :
  (scrape TOKEN browser load req = Unauthorized401
   <-> authOk TOKEN (headers req) = false)
  /\ (scrape TOKEN browser load req = InvalidUrl400
      <-> authOk TOKEN (headers req) = true
          /\ ~ (exists u, get (body req) (str "url") = VString u
                          /\ http_prefixed u))
  /\ (forall browser' load',
        scrape TOKEN browser load req = Unauthorized401
        \/ scrape TOKEN browser load req = InvalidUrl400 ->
        scrape TOKEN browser' load' req = scrape TOKEN browser load req).
Proof.
  unfold scrape.
  destruct (authOk TOKEN (headers req)) eqn:A; cbn [negb].
  2:{ repeat split; try discriminate; auto. intros [? _]. discriminate. }
  destruct (get (body req) (str "url")) as [| |b|x|u|items|props] eqn:G;
    try (split; [split; discriminate|];
         split; [split; [intros _; split; [reflexivity|];
                         intros (u & Hu & _); discriminate
                        |reflexivity]
                |reflexivity]).
  destruct (http_url_test u) eqn:T.
  - assert (negb (truthy (VString u)) = false) as ->.
    { destruct u as [|c u]; [discriminate T|reflexivity]. }
    cbn [negb orb].
    assert (P : http_prefixed u) by (apply http_url_test_spec, T).
    destruct (parseFromHtml_returns U u (load (match browser u with
                                               | Rendered h => h
                                               | Failed _ => [] end)))
      as [r Hr].
    split; [|split].
    + split; [|discriminate].
      destruct (browser u); [destruct (parseFromHtml _ _)|]; discriminate.
    + split.
      * destruct (browser u); [destruct (parseFromHtml _ _)|]; discriminate.
      * intros [_ N]. exfalso. apply N. exists u. split; [reflexivity|exact P].
    + intros browser' load' [H|H]; exfalso; revert H;
        (destruct (browser u); [destruct (parseFromHtml _ _)|]; discriminate).
  - rewrite orb_true_r. split; [split; discriminate|].
    split; [|reflexivity].
    split; [|reflexivity]. intros _. split; [reflexivity|].
    intros (u' & [= <-] & P). apply http_url_test_spec in P. congruence.
Qed.

Lemma scrape_rejections_witness :
  @scrape UrlReference.reference (str "s3cret") no_browser blank_loader
    (request_for None shop_url) = Unauthorized401
  /\ @scrape UrlReference.reference (str "") no_browser blank_loader
       (request_for None (str "ftp://shop.example/p/1")) = InvalidUrl400.
Proof.
  split.
  - apply (scrape_rejections UrlReference.reference). vm_compute. reflexivity.
  - apply (scrape_rejections UrlReference.reference).
    split; [vm_compute; reflexivity|].
    intros (u & Hu & P). injection Hu as <-.
    apply http_url_test_spec in P. vm_compute in P. discriminate P.
Defined.

(** X16. For an authorized request whose [url] begins with [http://] or
    [https://], the answer follows the browser alone: when the page was
    rendered the answer is 200 with the requested address, the page text
    and the record [parseFromHtml] makes of them, and when a browser step
    failed it is 502 with that step's message.  [parseFromHtml] is never
    the cause of a 502. *)
Theorem scrape_follows_browser (U : UrlApi) (TOKEN : jsstring)
  (browser : jsstring -> rendering) (load : jsstring -> document)
  (req : scrape_request) :
  (forall u, authOk TOKEN (headers req) = true ->
             get (body req) (str "url") = VString u ->
             http_prefixed u ->
             match browser u with
             | Rendered html =>
                 exists parsed,
                   parseFromHtml u (load html) = Return parsed
                   /\ scrape TOKEN browser load req = Ok200 u html parsed
             | Failed message =>
                 scrape TOKEN browser load req
                 = BadGateway502 u (BrowserError message)
             end)
  /\ (forall u e,
        scrape TOKEN browser load req <> BadGateway502 u (EngineError e)).
Proof.
  split.
  - intros u A G P. apply http_url_test_spec in P. unfold scrape.
    rewrite A, G, P.
    assert (negb (truthy (VString u)) = false) as ->.
    { destruct u as [|c u]; [discriminate P|reflexivity]. }
    cbn [negb orb]. destruct (browser u) as [html|message]; [|reflexivity].
    destruct (parseFromHtml_returns U u (load html)) as [r Hr].
    exists r. rewrite Hr. split; reflexivity.
  - intros u e. unfold scrape.
    destruct (negb _); [discriminate|].
    destruct (get _ _); try discriminate.
    destruct (_ || _); [discriminate|].
    destruct (browser s) as [html|message]; [|discriminate].
    destruct (parseFromHtml_returns U s (load html)) as [r ->]. discriminate.
Qed.

Lemma scrape_follows_browser_witness :
  exists parsed,
    @parseFromHtml UrlReference.reference (str "HTTPS://shop.example/p/1")
      (page_of_script lamp_payload) = Return parsed
    /\ @scrape UrlReference.reference (str "s3cret")
         (fun _ => Rendered lamp_payload)
         (fun html => page_of_script html)
         (request_for (Some (str "Bearer s3cret"))
                      (str "HTTPS://shop.example/p/1"))
       = Ok200 (str "HTTPS://shop.example/p/1") lamp_payload parsed.
Proof.
  destruct (scrape_follows_browser UrlReference.reference (str "s3cret")
              (fun _ => Rendered lamp_payload)
              (fun html => page_of_script html)
              (request_for (Some (str "Bearer s3cret"))
                           (str "HTTPS://shop.example/p/1"))) as [H _].
  apply (H (str "HTTPS://shop.example/p/1")).
  - vm_compute. reflexivity.
  - vm_compute. reflexivity.
  - apply http_url_test_spec. vm_compute. reflexivity.
Defined.

